(** * CardFarmer (src/main.ts): a shallow embedding and its properties

    The embedding follows the class [CardFarmer] of [src/main.ts]:
    - JavaScript numbers that the program handles are integers or [NaN]
      ([jsnum]); the count of an item is the double that unary [+] makes
      of a string of digits ([count]); strings are ASCII strings;
    - the HTML that cheerio queries is represented by what the queries of
      [getBadges] return ([page], [badge_row]);
    - the awaited HTTP exchanges of a scan ([getBadges], [parentalUnlock])
      are answered by a [Server] oracle, indexed by the number of requests
      issued so far and by the cookies that the program has put in the
      jar; what the cookie-jar wrapper of the client, a library, does with
      the cookies of a reply is not represented;
    - everything that Node's event loop dispatches (provider events, timer
      callbacks, the reply to the visibility request that [_idleGames] does
      not wait for, operator lines) is an [event] handled by [dispatch]; a
      scan runs to its end, continuation included, within the turn that
      starts it;
    - every observable action (provider calls, HTTP requests, log lines) is
      appended to the [effects] of the [World]. *)

From Stdlib Require Import ZArith Ascii String List Bool Lia.
From stdpp Require Import base decidable countable gmap list strings.
Import ListNotations.
Local Open Scope string_scope.
Local Open Scope list_scope.
Local Open Scope Z_scope.

(* ===================================================================== *)
(** ** JavaScript values                                                   *)
(* ===================================================================== *)

(** A JavaScript number as the program meets it: an integer or [NaN].
    [Set.prototype.has] compares with SameValueZero, which on this type is
    plain equality. *)
Inductive jsnum : Type :=
| JNum (z : Z)
| JNaN.

#[global] Instance jsnum_eq_dec : EqDecision jsnum.
Proof. solve_decision. Defined.

Definition jsnum_to_option (n : jsnum) : option Z :=
  match n with JNum z => Some z | JNaN => None end.

Definition jsnum_of_option (o : option Z) : jsnum :=
  match o with Some z => JNum z | None => JNaN end.

#[global] Instance jsnum_countable : Countable jsnum.
Proof.
  apply (inj_countable' jsnum_to_option jsnum_of_option).
  intros []; reflexivity.
Defined.

(** Truthiness of a number: [0] and [NaN] are falsy. *)
Definition num_truthy (n : jsnum) : bool :=
  match n with
  | JNum 0 => false
  | JNum _ => true
  | JNaN => false
  end.

(** Truthiness of a string: only the empty string is falsy. *)
Definition str_truthy (s : string) : bool :=
  match s with
  | EmptyString => false
  | String _ _ => true
  end.

(** Truthiness of [string | undefined]. *)
Definition opt_str_truthy (o : option string) : bool :=
  match o with
  | Some s => str_truthy s
  | None => false
  end.

(** [a || b] on [string | undefined]. *)
Definition js_or (a b : option string) : option string :=
  if opt_str_truthy a then a else b.

(* ===================================================================== *)
(** ** String primitives used by the program                               *)
(* ===================================================================== *)

Definition is_digit (c : ascii) : bool :=
  let n := nat_of_ascii c in ((48 <=? n) && (n <=? 57))%nat.

(** [s.replace(/[^0-9]+/g, "")]: every run of non-digits is deleted. *)
Fixpoint keep_digits (s : string) : string :=
  match s with
  | EmptyString => EmptyString
  | String c r => if is_digit c then String c (keep_digits r) else keep_digits r
  end.

Definition digit_value (c : ascii) : Z := Z.of_nat (nat_of_ascii c) - 48.

Fixpoint digits_to_Z (acc : Z) (s : string) : Z :=
  match s with
  | EmptyString => acc
  | String c r => digits_to_Z (10 * acc + digit_value c) r
  end.

(** A number that unary [+] gives for a string of decimal digits: a double
    with a non-negative integer value, or [Infinity]. *)
Inductive count : Type :=
| Count (n : Z)
| Infinity.

Coercion Count : Z >-> count.

#[global] Instance count_eq_dec : EqDecision count.
Proof. solve_decision. Defined.

(** A count above zero ([Infinity] included). *)
Definition count_positive (c : count) : Prop :=
  match c with
  | Count n => 0 < n
  | Infinity => True
  end.

#[global] Instance count_positive_dec c : Decision (count_positive c).
Proof. destruct c; simpl; apply _. Defined.

(** The double nearest to the natural number [n], ties to the even
    significand. Below 2^53 every integer is a double. From there on the
    doubles of the binade of [n] are the multiples of [2^e], with
    [e = log2 n - 52]: [n] goes to the nearer of its two neighbours, and at
    the midpoint to the one with the even quotient. What reaches 2^1024 is
    [Infinity]. *)
Definition round_to_double (n : Z) : count :=
  if n <? 2 ^ 53 then Count n
  else
    let e := Z.log2 n - 52 in
    let q := n / 2 ^ e in
    let r := n mod 2 ^ e in
    let half := 2 ^ (e - 1) in
    let q' :=
      if r <? half then q
      else if half <? r then q + 1
      else if Z.even q then q else q + 1 in
    if 2 ^ 1024 <=? q' * 2 ^ e then Infinity else Count (q' * 2 ^ e).

(** Unary [+] applied to a non-empty string of decimal digits: the double
    nearest to the number that the digits spell, as Node computes it. *)
Definition to_number_digits (s : string) : count :=
  round_to_double (digits_to_Z 0 s).

(** [hay.indexOf(needle) !== -1]. *)
Definition includes (needle hay : string) : bool :=
  match String.index 0 needle hay with
  | Some _ => true
  | None => false
  end.

(** The ASCII members of the regular expression class [\s]. *)
Definition is_space (c : ascii) : bool :=
  let n := nat_of_ascii c in
  ((n =? 32) || ((9 <=? n) && (n <=? 13)))%nat.

(** [line.split(/\s/)]: a cut at every single white-space character, empty
    pieces kept. *)
Fixpoint split_ws (cur : string) (s : string) : list string :=
  match s with
  | EmptyString => [cur]
  | String c r =>
      if is_space c then cur :: split_ws EmptyString r
      else split_ws (cur ++ String c EmptyString)%string r
  end.

Definition lower_char (c : ascii) : ascii :=
  let n := nat_of_ascii c in
  if ((65 <=? n) && (n <=? 90))%nat then ascii_of_nat (n + 32) else c.

Definition upper_char (c : ascii) : ascii :=
  let n := nat_of_ascii c in
  if ((97 <=? n) && (n <=? 122))%nat then ascii_of_nat (n - 32) else c.

(** [s.toLowerCase()]. *)
Fixpoint toLowerCase (s : string) : string :=
  match s with
  | EmptyString => EmptyString
  | String c r => String (lower_char c) (toLowerCase r)
  end.

(** [s.toUpperCase()]. *)
Fixpoint toUpperCase (s : string) : string :=
  match s with
  | EmptyString => EmptyString
  | String c r => String (upper_char c) (toUpperCase r)
  end.

(** The characters that the dot of a regular expression does not match,
    among the ASCII ones: line feed and carriage return. *)
Definition is_line_terminator (c : ascii) : bool :=
  let n := nat_of_ascii c in ((n =? 10) || (n =? 13))%nat.

(** What follows the last ["="] of the first line of [s], up to the end of
    [s], if that line has an ["="]: where a match of the regular expression
    of the [webSession] listener ends when it starts at the head of [s].
    The greedy dots run to the end of the line and give back up to its
    last ["="]. *)
Fixpoint after_last_eq (s : string) : option string :=
  match s with
  | EmptyString => None
  | String c r =>
      if is_line_terminator c then None
      else
        match after_last_eq r with
        | Some t => Some t
        | None => if Ascii.eqb c "="%char then Some r else None
        end
  end.

(** The [cookie.replace] of the [webSession] listener. The expression is
    not global: the first match is replaced, the one that starts at the
    first position from which a match exists. The lazy group is empty, so
    the match is deleted: the text before it and the text after it stay. *)
Fixpoint strip_to_last_eq (s : string) : string :=
  match after_last_eq s with
  | Some t => t
  | None =>
      match s with
      | EmptyString => EmptyString
      | String c r => String c (strip_to_last_eq r)
      end
  end.

(* ===================================================================== *)
(** ** Data model                                                          *)
(* ===================================================================== *)

(** [type GameTradingCards]. *)
Record GameTradingCards : Type := mkGame {
  appTitle : string;
  appId : jsnum;
  leftCards : count;
}.

(** One [.badges_sheet .badge_row] element, as the three queries of the
    [each] callback see it:
    - [drops_text]: the [text()] of [.progress_info_bold];
    - [overlay_appId]: [None] when [.badge_row_overlay] has no [href]
      ([attr] gives [undefined] and [.replace] throws a [TypeError]),
      else the number that unary [+] makes of the [href] once the
      regular expression of the source has cut the id out of it;
    - [title_text]: the trimmed text of the first child of [.badge_title]. *)
Record badge_row : Type := mkRow {
  drops_text : string;
  overlay_appId : option jsnum;
  title_text : string;
}.

(** A badges page: the number of [.pagelink] elements of the first
    [.profile_paging], and the badge rows in document order. *)
Record page : Type := mkPage {
  pagelinks : nat;
  rows : list badge_row;
}.

(** What came back for an awaited request: axios rejects the promise
    ([Rejected]) or resolves it with the [Set-Cookie] headers
    ([response.headers["set-cookie"]], absent or an array) and the data. *)
Inductive http_result (A : Type) : Type :=
| Rejected
| Resolved (set_cookie : option (list string)) (data : A).
Arguments Rejected {A}.
Arguments Resolved {A} set_cookie data.

(** The remote service during a scan. The first argument is the number of
    requests answered so far, the second the cookies that the program has
    put in the jar ([setAxiosCookie]). The client sends what the jar holds,
    and the cookie-jar wrapper around the client (a library, not part of
    [main.ts]) may have put cookies of earlier replies there too; that part
    of the jar is not represented, and an answer can depend on it through
    the first argument. *)
Record Server : Type := mkServer {
  srv_badges : nat -> list string -> nat -> http_result page;
  (** [POST /parental/ajaxunlock] with [pin] and [sessionid];
      the data is [response.data.success]. *)
  srv_unlock : nat -> list string -> jsnum -> string -> http_result bool;
}.

Inductive error : Type :=
| ErrPinNotPassed      (* "parental pin not passed!" *)
| ErrWrongPin          (* "wrong pin!" *)
| ErrPrivacy           (* "unexpected error when setting profile to private!" *)
| ErrRequest.          (* a rejected request that nothing catches *)

Inductive callback : Type :=
| CbRevert             (* () => this.setTempProfilePrivacy(false) *)
| CbDwell              (* quit playing, then arm the 10 s timer *)
| CbRefetch.           (* this._fetchCardsAndPlay *)

#[global] Instance callback_eq_dec : EqDecision callback.
Proof. solve_decision. Defined.

(** A live [setTimeout] timer. *)
Record timer : Type := mkTimer {
  t_id : nat;
  t_due : Z;
  t_cb : callback;
}.

(** The visibility request that is in flight, and who waits for it:
    [p_games] is [Some games] when [_idleGames(games)] awaits it. *)
Record pending_privacy : Type := mkPending {
  p_id : nat;
  p_private : bool;
  p_games : option (list GameTradingCards);
}.

(** Observable actions, in the order in which they happen. *)
Inductive effect : Type :=
| LogOn (accountName password twoFactorCode : option string)
| LogOff
| WebLogOn
| SetPersona (state : jsnum)
| GamesPlayed (apps : list jsnum)
| ReadlineClose
| Emit (name : string)
| HttpGetBadges (cookies : list string) (p : nat)
| HttpPostUnlock (cookies : list string) (pin : jsnum) (sessionid : string)
| HttpPostPrivacy (cookies : list string) (sessionid : string) (isPrivate : bool)
| DebugReadingPage (p : nat)
| DebugParentalWall
| DebugBypassed
| DebugProfileNow (isPrivate : bool)
| DebugNowIdling (games : list GameTradingCards)
| DebugAllIdled
| DebugNextFetch
| DebugQuitDelay
| DebugExiting
| LogSessionId
| UnhandledRejection (e : error).

(** The object and what surrounds it. The fields with a leading underscore
    are the private fields of the class. *)
Record World : Type := mkWorld {
  _accountName : option string;
  _password : option string;
  _parentalPin : jsnum;
  _cookiesJar : list string;     (* the cookies stored by [setAxiosCookie] *)
  _sessionId : string;
  _userGames : option (gset jsnum);
  _delayTimeout : option nat;
  _privacyTimeout : option nat;
  webSession_once : bool;        (* the [once("webSession")] listener is still armed *)
  now : Z;                       (* milliseconds *)
  next_handle : nat;             (* the next timer or request identifier *)
  timers : list timer;           (* live timers *)
  pending : list pending_privacy;
  requests : nat;                (* awaited requests answered so far *)
  effects : list effect;
}.

(** Assignment to one field of the world. *)
Definition with_cookiesJar (v : list string) (w : World) : World :=
  mkWorld (_accountName w) (_password w) (_parentalPin w) v (_sessionId w)
    (_userGames w) (_delayTimeout w) (_privacyTimeout w) (webSession_once w)
    (now w) (next_handle w) (timers w) (pending w) (requests w) (effects w).
Definition with_sessionId (v : string) (w : World) : World :=
  mkWorld (_accountName w) (_password w) (_parentalPin w) (_cookiesJar w) v
    (_userGames w) (_delayTimeout w) (_privacyTimeout w) (webSession_once w)
    (now w) (next_handle w) (timers w) (pending w) (requests w) (effects w).
Definition with_delayTimeout (v : option nat) (w : World) : World :=
  mkWorld (_accountName w) (_password w) (_parentalPin w) (_cookiesJar w)
    (_sessionId w) (_userGames w) v (_privacyTimeout w) (webSession_once w)
    (now w) (next_handle w) (timers w) (pending w) (requests w) (effects w).
Definition with_privacyTimeout (v : option nat) (w : World) : World :=
  mkWorld (_accountName w) (_password w) (_parentalPin w) (_cookiesJar w)
    (_sessionId w) (_userGames w) (_delayTimeout w) v (webSession_once w)
    (now w) (next_handle w) (timers w) (pending w) (requests w) (effects w).
Definition with_webSession_once (v : bool) (w : World) : World :=
  mkWorld (_accountName w) (_password w) (_parentalPin w) (_cookiesJar w)
    (_sessionId w) (_userGames w) (_delayTimeout w) (_privacyTimeout w) v
    (now w) (next_handle w) (timers w) (pending w) (requests w) (effects w).
Definition with_now (v : Z) (w : World) : World :=
  mkWorld (_accountName w) (_password w) (_parentalPin w) (_cookiesJar w)
    (_sessionId w) (_userGames w) (_delayTimeout w) (_privacyTimeout w)
    (webSession_once w) v (next_handle w) (timers w) (pending w)
    (requests w) (effects w).
Definition with_next_handle (v : nat) (w : World) : World :=
  mkWorld (_accountName w) (_password w) (_parentalPin w) (_cookiesJar w)
    (_sessionId w) (_userGames w) (_delayTimeout w) (_privacyTimeout w)
    (webSession_once w) (now w) v (timers w) (pending w) (requests w)
    (effects w).
Definition with_timers (v : list timer) (w : World) : World :=
  mkWorld (_accountName w) (_password w) (_parentalPin w) (_cookiesJar w)
    (_sessionId w) (_userGames w) (_delayTimeout w) (_privacyTimeout w)
    (webSession_once w) (now w) (next_handle w) v (pending w) (requests w)
    (effects w).
Definition with_pending (v : list pending_privacy) (w : World) : World :=
  mkWorld (_accountName w) (_password w) (_parentalPin w) (_cookiesJar w)
    (_sessionId w) (_userGames w) (_delayTimeout w) (_privacyTimeout w)
    (webSession_once w) (now w) (next_handle w) (timers w) v (requests w)
    (effects w).
Definition with_requests (v : nat) (w : World) : World :=
  mkWorld (_accountName w) (_password w) (_parentalPin w) (_cookiesJar w)
    (_sessionId w) (_userGames w) (_delayTimeout w) (_privacyTimeout w)
    (webSession_once w) (now w) (next_handle w) (timers w) (pending w) v
    (effects w).
Definition with_effects (v : list effect) (w : World) : World :=
  mkWorld (_accountName w) (_password w) (_parentalPin w) (_cookiesJar w)
    (_sessionId w) (_userGames w) (_delayTimeout w) (_privacyTimeout w)
    (webSession_once w) (now w) (next_handle w) (timers w) (pending w)
    (requests w) v.

(* ===================================================================== *)
(** ** Primitive actions                                                   *)
(* ===================================================================== *)

(** How a call ends. *)
Inductive outcome (A : Type) : Type :=
| Returned (a : A)
| Thrown (e : error).
Arguments Returned {A} a.
Arguments Thrown {A} e.

Definition say (e : effect) (w : World) : World :=
  with_effects (effects w ++ [e]) w.

(** [setAxiosCookie]: [this._cookiesJar.setCookie(cookie, ...)]. Of the jar
    the world keeps the sequence of the cookies that the program itself has
    handed to it; nothing in [main.ts] reads the jar. *)
Definition setAxiosCookie (cookie : string) (w : World) : World :=
  with_cookiesJar (_cookiesJar w ++ [cookie]) w.

Definition answered (w : World) : World := with_requests (S (requests w)) w.

(** [await this._axiosClient.get(`/profiles/<id>/badges?p=<p>`)]. *)
Definition axios_get_badges (srv : Server) (p : nat) (w : World)
  : http_result page * World :=
  let w1 := answered (say (HttpGetBadges (_cookiesJar w) p) w) in
  match srv_badges srv (requests w) (_cookiesJar w) p with
  | Rejected => (Rejected, w1)
  | Resolved sc d => (Resolved sc d, w1)
  end.

(** [await this._axiosClient.post("/parental/ajaxunlock", payload)]. *)
Definition axios_post_unlock (srv : Server) (pin : jsnum) (w : World)
  : http_result bool * World :=
  let w1 := answered (say (HttpPostUnlock (_cookiesJar w) pin (_sessionId w)) w) in
  match srv_unlock srv (requests w) (_cookiesJar w) pin (_sessionId w) with
  | Rejected => (Rejected, w1)
  | Resolved sc d => (Resolved sc d, w1)
  end.

(** [setTimeout(cb, delay)]: a fresh handle, due [delay] ms from now. *)
Definition setTimeout (cb : callback) (delay : Z) (w : World) : nat * World :=
  let id := next_handle w in
  (id, with_timers (timers w ++ [mkTimer id (now w + delay) cb])
         (with_next_handle (S id) w)).

(** [clearTimeout(h)]: [h] may be [undefined] or the handle of a timer that
    has fired already; then nothing happens. *)
Definition clearTimeout (h : option nat) (w : World) : World :=
  match h with
  | Some id => with_timers (filter (fun t => t_id t <> id) (timers w)) w
  | None => w
  end.

(* ===================================================================== *)
(** ** The methods of [CardFarmer]                                         *)
(* ===================================================================== *)

Definition MAX_GAMES_TO_IDLE : nat := 27.
Definition TIMEOUT_BETWEEN_CHECKS : Z := 15 * 60000.

(** The constructor. [parentalPin] is [None] when the argument is falsy
    (absent, the empty string, zero, [NaN]) and then the field holds 0; else
    it is [Some] of the number that [+parentalPin] gives, which the field
    holds as it is, [NaN] for a string that spells no number. [selected] is
    the array read from [2idle.json] (after [.map(Number)]) when the file
    exists and parses. *)
Definition new_CardFarmer (accountName password : option string)
    (parentalPin : option jsnum) (selected : option (list jsnum)) : World :=
  {| _accountName := accountName;
     _password := password;
     _parentalPin :=
       match parentalPin with
       | Some n => n
       | None => JNum 0
       end;
     _cookiesJar := [];
     _sessionId := "";
     _userGames := (fun l => list_to_set l) <$> selected;
     _delayTimeout := None;
     _privacyTimeout := None;
     webSession_once := true;
     now := 0;
     next_handle := 0%nat;
     timers := [];
     pending := [];
     requests := 0%nat;
     effects := [] |}.

(** [start(accountName, password, twoFactorCode)]. *)
Definition start (accountName password twoFactorCode : option string)
    (w : World) : World :=
  say (LogOn (js_or (_accountName w) accountName)
             (js_or (_password w) password)
             twoFactorCode) w.

(** [parentalUnlock(pin)]. *)
Definition parentalUnlock (srv : Server) (pin : jsnum) (w : World)
  : outcome string * World :=
  match axios_post_unlock srv pin w with
  | (Rejected, w1) => (Thrown ErrRequest, w1)
  | (Resolved set_cookie success, w1) =>
      match (if success then set_cookie else None) with
      | Some cookies =>
          match List.find (includes "steamparental") cookies with
          | Some parentalCookie =>
              if str_truthy parentalCookie
              then (Returned parentalCookie, say DebugBypassed w1)
              else (Thrown ErrWrongPin, say LogOff w1)
          | None => (Thrown ErrWrongPin, say LogOff w1)
          end
      | None => (Thrown ErrWrongPin, say LogOff w1)
      end
  end.

(** [!this._userGames || (this._userGames && this._userGames.has(appId))]. *)
Definition user_picked (userGames : option (gset jsnum)) (id : jsnum) : bool :=
  match userGames with
  | None => true
  | Some s => bool_decide (id ∈ s)
  end.

(** The callback of [.each] on one badge row; [None] is the [TypeError] of
    a row that has digits but no [href]. *)
Definition read_row (userGames : option (gset jsnum))
    (gamesWithCards : list GameTradingCards) (r : badge_row)
  : option (list GameTradingCards) :=
  let remainingCards := keep_digits (drops_text r) in
  if str_truthy remainingCards then
    match overlay_appId r with
    | None => None
    | Some id =>
        if user_picked userGames id
        then Some (gamesWithCards ++
                     [{| appId := id;
                         appTitle := title_text r;
                         leftCards := to_number_digits remainingCards |}])
        else Some gamesWithCards
    end
  else Some gamesWithCards.

Fixpoint read_rows (userGames : option (gset jsnum))
    (gamesWithCards : list GameTradingCards) (rs : list badge_row)
  : option (list GameTradingCards) :=
  match rs with
  | [] => Some gamesWithCards
  | r :: rs' =>
      match read_row userGames gamesWithCards r with
      | Some games => read_rows userGames games rs'
      | None => None
      end
  end.

(** The [catch] block of [getBadges]; [again] is [this.getBadges()]. *)
Definition parental_wall (srv : Server)
    (again : World -> option (outcome (list GameTradingCards) * World))
    (w : World) : option (outcome (list GameTradingCards) * World) :=
  let w1 := say DebugParentalWall w in
  if negb (num_truthy (_parentalPin w1)) then Some (Thrown ErrPinNotPassed, w1)
  else
    match parentalUnlock srv (_parentalPin w1) w1 with
    | (Returned _, w2) => again w2
    | (Thrown e, w2) => Some (Thrown e, w2)
    end.

(** The [for] loop of [getBadges], entered with the current values of
    [currentPage], [totalPages] and [gamesWithCards]. One unit of fuel is
    spent per test of the loop condition; [None] means that the fuel did
    not suffice. *)
Fixpoint getBadges_loop (srv : Server) (fuel : nat)
    (currentPage totalPages : nat) (gamesWithCards : list GameTradingCards)
    (w : World) : option (outcome (list GameTradingCards) * World) :=
  match fuel with
  | O => None
  | S fuel' =>
      if (currentPage <=? totalPages)%nat then
        match axios_get_badges srv currentPage w with
        | (Resolved _ pg, w1) =>
            let w2 := say (DebugReadingPage currentPage) w1 in
            match read_rows (_userGames w2) gamesWithCards (rows pg) with
            | Some games =>
                getBadges_loop srv fuel' (S currentPage) (pagelinks pg + 1)
                  games w2
            | None =>
                parental_wall srv (getBadges_loop srv fuel' 1 1 []) w2
            end
        | (Rejected, w1) =>
            parental_wall srv (getBadges_loop srv fuel' 1 1 []) w1
        end
      else Some (Returned gamesWithCards, w)
  end.

(** [getBadges()]. *)
Definition getBadges (srv : Server) (fuel : nat) (w : World)
  : option (outcome (list GameTradingCards) * World) :=
  getBadges_loop srv fuel 1 1 [] w.

(** [setTempProfilePrivacy(isPrivate)] up to its [await]: the request is
    sent and the caller is suspended. [games] is [Some] when the caller is
    [_idleGames(games)], which awaits the call; the timer callback drops
    the promise. *)
Definition setTempProfilePrivacy (isPrivate : bool)
    (games : option (list GameTradingCards)) (w : World) : World :=
  let id := next_handle w in
  with_pending (pending w ++ [mkPending id isPrivate games])
    (with_next_handle (S id)
       (say (HttpPostPrivacy (_cookiesJar w) (_sessionId w) isPrivate) w)).

(** [setTempProfilePrivacy(isPrivate)] from the reply of the service on. *)
Definition setTempProfilePrivacy_resume (isPrivate : bool)
    (reply : http_result bool) (w : World) : outcome unit * World :=
  match reply with
  | Rejected => (Thrown ErrRequest, w)
  | Resolved _ success =>
      if negb success then (Thrown ErrPrivacy, say LogOff w)
      else
        let w2 := say (DebugProfileNow isPrivate) w in
        if isPrivate then
          let (id, w3) := setTimeout CbRevert 10000 w2 in
          (Returned tt, with_privacyTimeout (Some id) w3)
        else (Returned tt, w2)
  end.

(** [_idleGames(games?)] up to the [await]. An array is truthy, also when
    it is empty. *)
Definition _idleGames (games : option (list GameTradingCards)) (w : World)
  : World :=
  match games with
  | Some gs => setTempProfilePrivacy true (Some gs) w
  | None => say DebugAllIdled w
  end.

(** What waits for the visibility request goes on: [_idleGames] logs and
    calls [gamesPlayed]; an error is an unhandled rejection either way. *)
Definition privacy_settled (games : option (list GameTradingCards))
    (o : outcome unit * World) : World :=
  match o with
  | (Thrown e, w) => say (UnhandledRejection e) w
  | (Returned _, w) =>
      match games with
      | Some gs => say (GamesPlayed (map appId gs)) (say (DebugNowIdling gs) w)
      | None => w
      end
  end.

(** [_quitIdleGames()]. *)
Definition _quitIdleGames (w : World) : World := say (GamesPlayed []) w.

(** [close()]. *)
Definition close (w : World) : World :=
  let w1 := say DebugExiting w in
  let w2 := clearTimeout (_delayTimeout w1) w1 in
  let w3 := clearTimeout (_privacyTimeout w2) w2 in
  say LogOff (say ReadlineClose w3).

(** [_fetchCardsAndPlay] after [await this.getBadges()]. *)
Definition _fetchCardsAndPlay_scanned (gamesWithCards : list GameTradingCards)
    (w : World) : World :=
  match gamesWithCards with
  | [] => close (_idleGames None w)
  | _ :: _ =>
      let w1 := _idleGames (Some (take MAX_GAMES_TO_IDLE gamesWithCards)) w in
      let w2 := say DebugNextFetch w1 in
      let w3 := clearTimeout (_delayTimeout w2) w2 in
      let (id, w4) := setTimeout CbDwell TIMEOUT_BETWEEN_CHECKS w3 in
      with_delayTimeout (Some id) w4
  end.

(** [_fetchCardsAndPlay]. It is called as an event listener or a timer
    callback: nothing handles an error of the scan. The scan and what
    follows its [await] are run in one go; the continuation reads nothing
    that tells whether [close] ran in between. *)
Definition _fetchCardsAndPlay (srv : Server) (fuel : nat) (w : World)
  : option World :=
  match getBadges srv fuel w with
  | Some (Returned gamesWithCards, w1) =>
      Some (_fetchCardsAndPlay_scanned gamesWithCards w1)
  | Some (Thrown e, w1) => Some (say (UnhandledRejection e) w1)
  | None => None
  end.

(** [args[0].charAt(0) + args[0].slice(1).toLowerCase()]. *)
Definition normalise_state (arg : string) : string :=
  match arg with
  | EmptyString => EmptyString
  | String c rest => String c (toLowerCase rest)
  end.

(** [personaStates.find(([stateName]) => stateName === state)]. *)
Definition find_state (personaStates : list (string * jsnum)) (state : string)
  : option (string * jsnum) :=
  List.find (fun entry => String.eqb (fst entry) state) personaStates.

(** [_handleOnLine(line)]. [personaStates] is
    [Object.entries(SteamUser.EPersonaState)], each value already turned
    into a number by unary [+]. *)
Definition _handleOnLine (personaStates : list (string * jsnum))
    (line : string) (w : World) : World :=
  match split_ws "" line with
  | cmd :: args =>
      if String.eqb cmd "exit" then close w
      else if String.eqb cmd "state" then
        match args with
        | arg0 :: _ =>
            if str_truthy arg0 then
              match find_state personaStates (normalise_state arg0) with
              | Some personaState => say (SetPersona (snd personaState)) w
              | None => w
              end
            else w
        | [] => w
        end
      else w
  | [] => w
  end.

(** The listener of ["webSession"]. *)
Definition on_webSession_cookie (w : World) (cookie : string) : World :=
  let w1 := setAxiosCookie cookie w in
  if includes "sessionid" cookie
  then with_sessionId (strip_to_last_eq cookie) w1
  else w1.

(* ===================================================================== *)
(** ** The event loop                                                      *)
(* ===================================================================== *)

Inductive event : Type :=
| EvWebSession (cookies : list string)   (* steam-user emits "webSession" *)
| EvFetchCards                           (* emit("FETCH_CARDS") *)
| EvQuitPlaying                          (* emit("QUIT_PLAYING") *)
| EvTimer (id : nat)                     (* the timer [id] is run *)
| EvPrivacyReply (id : nat) (reply : http_result bool)
| EvLine (line : string)                 (* readline emits "line" *)
| EvTick (ms : Z).                       (* time passes *)

Definition find_timer (id : nat) (w : World) : option timer :=
  List.find (fun t => Nat.eqb (t_id t) id) (timers w).

Definition find_pending (id : nat) (w : World) : option pending_privacy :=
  List.find (fun p => Nat.eqb (p_id p) id) (pending w).

(** The body of a timer callback. *)
Definition run_callback (srv : Server) (fuel : nat) (cb : callback) (w : World)
  : option World :=
  match cb with
  | CbRevert => Some (setTempProfilePrivacy false None w)
  | CbDwell =>
      let w1 := _quitIdleGames (say DebugQuitDelay w) in
      let (id, w2) := setTimeout CbRefetch 10000 w1 in
      Some (with_delayTimeout (Some id) w2)
  | CbRefetch => _fetchCardsAndPlay srv fuel w
  end.

(** One turn of the event loop. A timer runs only when it is live and due
    and is no longer live once it runs; a reply is taken only for a request
    in flight. [None]: the scan started by this turn does not end within
    [fuel]. A scan and its continuation make one turn: the events that Node
    handles while [getBadges] is awaited come before or after the scan
    here. The pieces of a turn ([close], [_fetchCardsAndPlay_scanned], the
    callbacks, the replies) are functions of any world, and what is proved
    of a piece for every world does not depend on the order of the turns. *)
Definition dispatch (srv : Server) (personaStates : list (string * jsnum))
    (fuel : nat) (ev : event) (w : World) : option World :=
  match ev with
  | EvWebSession cookies =>
      if webSession_once w then
        let w1 := with_webSession_once false w in
        let w2 := fold_left on_webSession_cookie cookies w1 in
        _fetchCardsAndPlay srv fuel (say (Emit "WEB_LOGIN") (say LogSessionId w2))
      else Some w
  | EvFetchCards => _fetchCardsAndPlay srv fuel w
  | EvQuitPlaying => Some (_quitIdleGames w)
  | EvTimer id =>
      match find_timer id w with
      | Some t =>
          if t_due t <=? now w
          then run_callback srv fuel (t_cb t) (clearTimeout (Some id) w)
          else Some w
      | None => Some w
      end
  | EvPrivacyReply id reply =>
      match find_pending id w with
      | Some p =>
          let w1 := with_pending (filter (fun q => p_id q <> id) (pending w)) w in
          Some (privacy_settled (p_games p)
                  (setTempProfilePrivacy_resume (p_private p) reply w1))
      | None => Some w
      end
  | EvLine line => Some (_handleOnLine personaStates line w)
  | EvTick ms => Some (with_now (now w + Z.max 0 ms) w)
  end.

Fixpoint run (srv : Server) (personaStates : list (string * jsnum))
    (fuel : nat) (evs : list event) (w : World) : option World :=
  match evs with
  | [] => Some w
  | ev :: evs' =>
      match dispatch srv personaStates fuel ev w with
      | Some w' => run srv personaStates fuel evs' w'
      | None => None
      end
  end.

(** [SteamUser.EPersonaState] of the steam-user package, as
    [Object.entries] lists it: the value-to-name entries (integer keys come
    first; unary [+] of a name is [NaN]), then the name-to-value entries. *)
Definition EPersonaState : list (string * jsnum) :=
  [ ("0", JNaN); ("1", JNaN); ("2", JNaN); ("3", JNaN); ("4", JNaN);
    ("5", JNaN); ("6", JNaN); ("7", JNaN); ("8", JNaN);
    ("Offline", JNum 0); ("Online", JNum 1); ("Busy", JNum 2);
    ("Away", JNum 3); ("Snooze", JNum 4); ("LookingToTrade", JNum 5);
    ("LookingToPlay", JNum 6); ("Invisible", JNum 7); ("Max", JNum 8) ].

(* ===================================================================== *)
(** ** Logging on                                                          *)
(* ===================================================================== *)

(** C10. [start] logs on with the constructor's account name (password)
    whenever that is a non-empty string, whatever [start] is given, and with
    its own argument only when the constructor's value is absent or empty;
    the two-factor code is passed on as given. *)
Theorem start_prefers_constructor_credentials
    (cn cp : option string) (pin : option jsnum) (sel : option (list jsnum))
    (an pw tf : option string) :
  exists a p,
    effects (start an pw tf (new_CardFarmer cn cp pin sel)) = [LogOn a p tf] /\
    (forall s, cn = Some s -> s <> "" -> a = Some s) /\
    (cn = None \/ cn = Some "" -> a = an) /\
    (forall s, cp = Some s -> s <> "" -> p = Some s) /\
    (cp = None \/ cp = Some "" -> p = pw).
Proof.
  exists (js_or cn an), (js_or cp pw).
  split; [reflexivity|].
  repeat split.
  - intros s -> Hs. destruct s; [congruence | reflexivity].
  - intros [-> | ->]; reflexivity.
  - intros s -> Hs. destruct s; [congruence | reflexivity].
  - intros [-> | ->]; reflexivity.
Qed.

Lemma start_prefers_constructor_credentials_witness :
  effects (start (Some "bob") (Some "hunter2") None
             (new_CardFarmer (Some "alice") (Some "") None None))
  = [LogOn (Some "alice") (Some "hunter2") None].
Proof.
  destruct (start_prefers_constructor_credentials
              (Some "alice") (Some "") None None
              (Some "bob") (Some "hunter2") None)
    as (a & p & E & Ha & _ & _ & Hp).
  rewrite E.
  rewrite (Ha "alice" eq_refl ltac:(discriminate)).
  rewrite (Hp (or_intror eq_refl)).
  reflexivity.
Defined.

(* ===================================================================== *)
(** ** What a scan leaves alone                                            *)
(* ===================================================================== *)

(** The part of the world that HTTP traffic and logging do not touch. *)
Definition untouched (w w' : World) : Prop :=
  timers w' = timers w /\ pending w' = pending w /\
  next_handle w' = next_handle w /\
  _delayTimeout w' = _delayTimeout w /\
  _privacyTimeout w' = _privacyTimeout w /\
  now w' = now w /\ _userGames w' = _userGames w /\
  _parentalPin w' = _parentalPin w /\ _sessionId w' = _sessionId w /\
  _cookiesJar w' = _cookiesJar w.

Lemma untouched_refl w : untouched w w.
Proof. repeat split. Qed.

Lemma untouched_trans w1 w2 w3 :
  untouched w1 w2 -> untouched w2 w3 -> untouched w1 w3.
Proof.
  unfold untouched. intros H1 H2.
  decompose [and] H1. decompose [and] H2.
  repeat split; congruence.
Qed.

Lemma untouched_say e w : untouched w (say e w).
Proof. repeat split. Qed.

Lemma untouched_answered w : untouched w (answered w).
Proof. repeat split. Qed.

Lemma untouched_axios_get_badges srv p w :
  untouched w (snd (axios_get_badges srv p w)).
Proof.
  unfold axios_get_badges.
  destruct (srv_badges srv (requests w) (_cookiesJar w) p); repeat split.
Qed.

Lemma untouched_parentalUnlock srv pin w :
  untouched w (snd (parentalUnlock srv pin w)).
Proof.
  unfold parentalUnlock, axios_post_unlock.
  destruct (srv_unlock srv (requests w) (_cookiesJar w) pin (_sessionId w))
    as [|sc success]; simpl.
  - repeat split.
  - assert (untouched w
      (answered (say (HttpPostUnlock (_cookiesJar w) pin (_sessionId w)) w)))
      as H by repeat split.
    destruct (if success then sc else None) as [cookies|]; simpl.
    + destruct (List.find (includes "steamparental") cookies) as [c|]; simpl.
      * destruct (str_truthy c); simpl;
          (eapply untouched_trans; [exact H | apply untouched_say]).
      * eapply untouched_trans; [exact H | apply untouched_say].
    + eapply untouched_trans; [exact H | apply untouched_say].
Qed.

Lemma untouched_parental_wall srv again w r w' :
  (forall v r' v', again v = Some (r', v') -> untouched v v') ->
  parental_wall srv again w = Some (r, w') -> untouched w w'.
Proof.
  intros Hagain. unfold parental_wall.
  destruct (negb _).
  - intros [= <- <-]. apply untouched_say.
  - pose proof (untouched_parentalUnlock srv
                  (_parentalPin (say DebugParentalWall w))
                  (say DebugParentalWall w)) as HU.
    destruct (parentalUnlock _ _ _) as [[c|e] w2]; simpl in HU.
    + intros H. apply Hagain in H.
      eapply untouched_trans; [apply untouched_say|].
      eapply untouched_trans; eassumption.
    + intros [= <- <-].
      eapply untouched_trans; [apply untouched_say | exact HU].
Qed.

Lemma untouched_getBadges_loop srv fuel :
  forall cur tot acc w r w',
    getBadges_loop srv fuel cur tot acc w = Some (r, w') -> untouched w w'.
Proof.
  induction fuel as [|fuel IH]; intros cur tot acc w r w'; simpl;
    [discriminate|].
  destruct (cur <=? tot)%nat; [|intros [= <- <-]; apply untouched_refl].
  pose proof (untouched_axios_get_badges srv cur w) as HG.
  destruct (axios_get_badges srv cur w) as [[|sc pg] w1]; simpl in HG.
  - intros H. eapply untouched_trans; [exact HG|].
    eapply untouched_parental_wall; [|exact H]. intros; eapply IH; eauto.
  - destruct (read_rows _ acc (rows pg)) as [games|].
    + intros H. apply IH in H.
      eapply untouched_trans; [exact HG|].
      eapply untouched_trans; [apply untouched_say | exact H].
    + intros H. eapply untouched_trans; [exact HG|].
      eapply untouched_trans; [apply untouched_say|].
      eapply untouched_parental_wall; [|exact H]. intros; eapply IH; eauto.
Qed.

Lemma untouched_getBadges srv fuel w r w' :
  getBadges srv fuel w = Some (r, w') -> untouched w w'.
Proof. apply untouched_getBadges_loop. Qed.

(* ===================================================================== *)
(** ** The unlock                                                          *)
(* ===================================================================== *)

Lemma parentalUnlock_returned srv pin w c w' :
  parentalUnlock srv pin w = (Returned c, w') ->
  exists cookies,
    srv_unlock srv (requests w) (_cookiesJar w) pin (_sessionId w)
      = Resolved (Some cookies) true /\
    List.find (includes "steamparental") cookies = Some c /\
    w' = say DebugBypassed
           (answered
              (say (HttpPostUnlock (_cookiesJar w) pin (_sessionId w)) w)).
Proof.
  unfold parentalUnlock, axios_post_unlock.
  destruct (srv_unlock srv (requests w) (_cookiesJar w) pin (_sessionId w))
    as [|sc success]; [discriminate|].
  destruct success; [|discriminate].
  destruct sc as [cookies|]; [|discriminate].
  destruct (List.find (includes "steamparental") cookies) as [c'|] eqn:F;
    [|discriminate].
  destruct (str_truthy c'); [|discriminate].
  intros [= <- <-]. exists cookies. auto.
Qed.





(* ===================================================================== *)
(** ** Obstacles and restarts                                              *)
(* ===================================================================== *)

(** The number of unlock requests among the effects. *)
Fixpoint unlock_posts (l : list effect) : nat :=
  match l with
  | [] => 0
  | HttpPostUnlock _ _ _ :: l' => S (unlock_posts l')
  | _ :: l' => unlock_posts l'
  end.

(** The number of badge page requests for page [p] among the effects. *)
Fixpoint page_gets (p : nat) (l : list effect) : nat :=
  match l with
  | [] => 0
  | HttpGetBadges _ q :: l' =>
      if Nat.eqb p q then S (page_gets p l') else page_gets p l'
  | _ :: l' => page_gets p l'
  end.

Lemma unlock_posts_app l1 l2 :
  unlock_posts (l1 ++ l2) = (unlock_posts l1 + unlock_posts l2)%nat.
Proof.
  induction l1 as [|e l1 IH]; simpl; [reflexivity|].
  destruct e; simpl; rewrite ?IH; reflexivity.
Qed.

Lemma page_gets_app p l1 l2 :
  page_gets p (l1 ++ l2) = (page_gets p l1 + page_gets p l2)%nat.
Proof.
  induction l1 as [|e l1 IH]; simpl; [reflexivity|].
  destruct e; simpl; rewrite ?IH; try reflexivity.
  destruct (Nat.eqb p p0); simpl; rewrite ?IH; reflexivity.
Qed.

Definition one_game_page : page :=
  {| pagelinks := 0;
     rows := [ {| drops_text := "3 card drops remaining";
                  overlay_appId := Some (JNum 440);
                  title_text := "Team Fortress 2" |} ] |}.

Definition one_game : list GameTradingCards :=
  [ {| appTitle := "Team Fortress 2"; appId := JNum 440; leftCards := 3 |} ].

(** A service that puts up the wall [n] times: the first [2 * n] requests
    alternate between a rejected page fetch and a successful unlock, and
    every later page fetch is served. *)
Definition walls (n : nat) : Server :=
  {| srv_badges := fun k _ _ =>
       if (k <? 2 * n)%nat then Rejected else Resolved None one_game_page;
     srv_unlock := fun _ _ _ _ => Resolved (Some ["steamparental=ok"]) true |}.

Lemma walls_scan (n : nat) :
  forall k w,
    (requests w + 2 * k = 2 * n)%nat ->
    num_truthy (_parentalPin w) = true ->
    _userGames w = None ->
    exists w',
      getBadges_loop (walls n) (k + 2) 1 1 [] w = Some (Returned one_game, w') /\
      unlock_posts (effects w') = (unlock_posts (effects w) + k)%nat /\
      page_gets 1 (effects w') = (page_gets 1 (effects w) + k + 1)%nat.
Proof.
  induction k as [|k IH]; intros w Hreq Hpin Hsel.
  - assert ((requests w <? 2 * n)%nat = false) as Hlt
      by (apply Nat.ltb_ge; lia).
    change (0 + 2)%nat with 2%nat.
    cbn [getBadges_loop]. unfold axios_get_badges.
    cbn [Nat.leb srv_badges walls]. rewrite Hlt.
    cbn -[Nat.mul]. rewrite Hsel. cbn -[Nat.mul].
    eexists; split; [reflexivity|]. cbn.
    rewrite !unlock_posts_app, !page_gets_app. cbn. lia.
  - assert ((requests w <? 2 * n)%nat = true) as Hlt
      by (apply Nat.ltb_lt; lia).
    change (S k + 2)%nat with (S (k + 2)).
    cbn [getBadges_loop]. unfold axios_get_badges.
    cbn [Nat.leb srv_badges walls]. rewrite Hlt.
    unfold parental_wall. cbn [_parentalPin say with_effects answered with_requests].
    rewrite Hpin. cbn [negb].
    unfold parentalUnlock, axios_post_unlock.
    cbn [srv_unlock walls List.find includes]. 
    set (w2 := say DebugBypassed _).
    destruct (IH w2) as (w' & E & HU & HG).
    + subst w2. cbn. lia.
    + subst w2. cbn. exact Hpin.
    + subst w2. cbn. exact Hsel.
    + exists w'. split; [|split].
      * cbn. exact E.
      * rewrite HU. subst w2. cbn. rewrite !unlock_posts_app. cbn. lia.
      * rewrite HG. subst w2. cbn. rewrite !page_gets_app. cbn. lia.
Qed.

(** The number of obstacles met (the log line of the [catch] block) and of
    unlocks that succeeded (the log line of [parentalUnlock]) among the
    effects. *)
Fixpoint walls_met (l : list effect) : nat :=
  match l with
  | [] => 0
  | DebugParentalWall :: l' => S (walls_met l')
  | _ :: l' => walls_met l'
  end.

Fixpoint bypasses (l : list effect) : nat :=
  match l with
  | [] => 0
  | DebugBypassed :: l' => S (bypasses l')
  | _ :: l' => bypasses l'
  end.

Lemma walls_met_app l1 l2 :
  walls_met (l1 ++ l2) = (walls_met l1 + walls_met l2)%nat.
Proof.
  induction l1 as [|e l1 IH]; simpl; [reflexivity|].
  destruct e; simpl; rewrite ?IH; reflexivity.
Qed.

Lemma bypasses_app l1 l2 :
  bypasses (l1 ++ l2) = (bypasses l1 + bypasses l2)%nat.
Proof.
  induction l1 as [|e l1 IH]; simpl; [reflexivity|].
  destruct e; simpl; rewrite ?IH; reflexivity.
Qed.

(** An obstacle at page [cur]: the fetch is rejected, or the page is served
    and reading one of its rows throws. [wc] is the world in which the
    [catch] block starts. *)
Definition obstacle (srv : Server) (cur : nat) (acc : list GameTradingCards)
    (w wc : World) : Prop :=
  let w1 := answered (say (HttpGetBadges (_cookiesJar w) cur) w) in
  match srv_badges srv (requests w) (_cookiesJar w) cur with
  | Rejected => wc = w1
  | Resolved _ pg =>
      read_rows (_userGames w) acc (rows pg) = None /\
      wc = say (DebugReadingPage cur) w1
  end.

(** What the effects added by a scan with a PIN count, from any point of
    the loop on. [first] is 1 when the loop is about to fetch page 1. *)
Definition obstacles_counted (srv : Server) (pin : jsnum) (first : nat)
    (w : World) (r : outcome (list GameTradingCards)) (w' : World) : Prop :=
  exists added,
    effects w' = effects w ++ added /\
    walls_met added = unlock_posts added /\
    page_gets 1 added = (first + bypasses added)%nat /\
    match r with
    | Returned _ => unlock_posts added = bypasses added
    | Thrown e =>
        unlock_posts added = S (bypasses added) /\
        (e = ErrWrongPin \/ e = ErrRequest) /\
        exists v, parentalUnlock srv pin v = (Thrown e, w')
    end.

(** What [parentalUnlock] adds to the effects, by the way it ends. *)
Lemma parentalUnlock_effects srv pin w :
  let post := HttpPostUnlock (_cookiesJar w) pin (_sessionId w) in
  match parentalUnlock srv pin w with
  | (Returned _, w') => effects w' = effects w ++ [post; DebugBypassed]
  | (Thrown ErrWrongPin, w') => effects w' = effects w ++ [post; LogOff]
  | (Thrown ErrRequest, w') => effects w' = effects w ++ [post]
  | (Thrown _, _) => False
  end.
Proof.
  unfold parentalUnlock, axios_post_unlock.
  destruct (srv_unlock srv (requests w) (_cookiesJar w) pin (_sessionId w))
    as [|sc success]; [reflexivity|].
  assert (forall e,
            effects (say e (answered (say (HttpPostUnlock (_cookiesJar w) pin (_sessionId w)) w)))
            = effects w ++ [HttpPostUnlock (_cookiesJar w) pin (_sessionId w); e])
    as E.
  { intros e. cbn [effects say with_effects].
    cbn. by rewrite <- app_assoc. }
  destruct (if success then sc else None) as [cookies|]; [|apply E].
  destruct (List.find (includes "steamparental") cookies) as [c|]; [|apply E].
  destruct (str_truthy c); apply E.
Qed.

Lemma parental_wall_counted srv fuel w r w' :
  (forall v r' v',
     num_truthy (_parentalPin v) = true ->
     getBadges_loop srv fuel 1 1 [] v = Some (r', v') ->
     obstacles_counted srv (_parentalPin v) 1 v r' v') ->
  num_truthy (_parentalPin w) = true ->
  parental_wall srv (getBadges_loop srv fuel 1 1 []) w = Some (r, w') ->
  obstacles_counted srv (_parentalPin w) 0 w r w'.
Proof.
  intros IH Hpin. unfold parental_wall.
  change (_parentalPin (say DebugParentalWall w)) with (_parentalPin w).
  rewrite Hpin. cbn [negb].
  pose proof (parentalUnlock_effects srv (_parentalPin w)
                (say DebugParentalWall w)) as HE.
  pose proof (untouched_parentalUnlock srv (_parentalPin w)
                (say DebugParentalWall w)) as HU.
  destruct (parentalUnlock srv (_parentalPin w) (say DebugParentalWall w))
    as [[c|e] w2] eqn:EU; cbn [fst snd] in *.
  - assert (_parentalPin w2 = _parentalPin w) as Ep by apply HU.
    intros H. apply IH in H; [|by rewrite Ep].
    destruct H as (added & Ea & Hw & Hp & Hr).
    exists ([DebugParentalWall;
             HttpPostUnlock (_cookiesJar w) (_parentalPin w) (_sessionId w);
             DebugBypassed] ++ added).
    split; [|split; [|split]].
    + rewrite Ea, HE. cbn. by rewrite <- !app_assoc.
    + rewrite walls_met_app, unlock_posts_app. cbn. lia.
    + rewrite page_gets_app, bypasses_app. cbn. lia.
    + rewrite unlock_posts_app, bypasses_app. cbn.
      destruct r as [games|e]; [lia|].
      destruct Hr as (Hc & He & v & Hv).
      split; [lia|]. split; [exact He|]. exists v. by rewrite <- Ep.
  - intros [= <- <-].
    destruct e; simpl in HE; try contradiction.
    + exists [DebugParentalWall;
              HttpPostUnlock (_cookiesJar w) (_parentalPin w) (_sessionId w);
              LogOff].
      split; [rewrite HE; cbn; by rewrite <- !app_assoc|].
      repeat split; auto. by exists (say DebugParentalWall w).
    + exists [DebugParentalWall;
              HttpPostUnlock (_cookiesJar w) (_parentalPin w) (_sessionId w)].
      split; [rewrite HE; cbn; by rewrite <- !app_assoc|].
      repeat split; auto. by exists (say DebugParentalWall w).
Qed.

Lemma obstacles_counted_after srv pin first w e wc r w' :
  effects wc = effects w ++ e ->
  walls_met e = 0%nat -> unlock_posts e = 0%nat -> bypasses e = 0%nat ->
  obstacles_counted srv pin first wc r w' ->
  obstacles_counted srv pin (page_gets 1 e + first) w r w'.
Proof.
  intros Ee Hw Hu Hb (added & Ea & Hwa & Hp & Hr).
  exists (e ++ added). split; [|split; [|split]].
  - rewrite Ea, Ee. by rewrite <- app_assoc.
  - rewrite walls_met_app, unlock_posts_app. lia.
  - rewrite page_gets_app, bypasses_app. lia.
  - rewrite unlock_posts_app, bypasses_app, Hu, Hb. exact Hr.
Qed.

Lemma getBadges_loop_counted srv fuel :
  forall cur tot acc w r w',
    (1 <= cur)%nat ->
    num_truthy (_parentalPin w) = true ->
    getBadges_loop srv fuel cur tot acc w = Some (r, w') ->
    obstacles_counted srv (_parentalPin w)
      (if ((cur <=? tot) && (1 =? cur))%nat then 1 else 0) w r w'.
Proof.
  induction fuel as [|fuel IH]; intros cur tot acc w r w' Hcur Hpin;
    [discriminate|].
  cbn [getBadges_loop].
  destruct (cur <=? tot)%nat; cbn [andb].
  2:{ intros [= <- <-]. exists []. rewrite app_nil_r. repeat split. }
  assert (forall v r' v',
            num_truthy (_parentalPin v) = true ->
            getBadges_loop srv fuel 1 1 [] v = Some (r', v') ->
            obstacles_counted srv (_parentalPin v) 1 v r' v') as IH1.
  { intros v r' v' Hv H. apply (IH 1%nat 1%nat [] v r' v' (le_n 1) Hv H). }
  unfold axios_get_badges.
  set (get := HttpGetBadges (_cookiesJar w) cur).
  assert (page_gets 1 [get] = if (1 =? cur)%nat then 1%nat else 0%nat) as Eg.
  { subst get. cbn. by destruct (1 =? cur)%nat. }
  destruct (srv_badges srv (requests w) (_cookiesJar w) cur) as [|sc pg].
  - intros H.
    apply (parental_wall_counted srv fuel _ r w' IH1) in H; [|exact Hpin].
    rewrite <- Eg, <- (Nat.add_0_r (page_gets 1 [get])).
    eapply (obstacles_counted_after srv _ 0 w [get]); [| | | |exact H];
      reflexivity.
  - set (w2 := say (DebugReadingPage cur) (answered (say get w))).
    assert (effects w2 = effects w ++ [get; DebugReadingPage cur]) as E2
      by (subst w2; cbn; by rewrite <- app_assoc).
    assert (page_gets 1 [get; DebugReadingPage cur]
            = if (1 =? cur)%nat then 1%nat else 0%nat) as Eg2.
    { subst get. cbn. by destruct (1 =? cur)%nat. }
    destruct (read_rows (_userGames w2) acc (rows pg)) as [games|].
    + intros H. apply IH in H; [|lia|exact Hpin].
      replace ((S cur <=? pagelinks pg + 1) && (1 =? S cur))%nat
        with false in H.
      2:{ symmetry. apply andb_false_iff. right. apply Nat.eqb_neq. lia. }
      rewrite <- Eg2, <- (Nat.add_0_r (page_gets 1 _)).
      eapply (obstacles_counted_after srv _ 0 w _ w2); [exact E2| | | |exact H];
        reflexivity.
    + intros H.
      apply (parental_wall_counted srv fuel _ r w' IH1) in H; [|exact Hpin].
      rewrite <- Eg2, <- (Nat.add_0_r (page_gets 1 _)).
      eapply (obstacles_counted_after srv _ 0 w _ w2); [exact E2| | | |exact H];
        reflexivity.
Qed.

Lemma getBadges_loop_pin_not_passed srv fuel :
  forall cur tot acc w e w',
    getBadges_loop srv fuel cur tot acc w = Some (Thrown e, w') ->
    (e = ErrPinNotPassed <-> num_truthy (_parentalPin w) = false) /\
    (num_truthy (_parentalPin w) = false ->
     unlock_posts (effects w') = unlock_posts (effects w)).
Proof.
  induction fuel as [|fuel IH]; intros cur tot acc w e w'; [discriminate|].
  cbn [getBadges_loop].
  destruct (cur <=? tot)%nat; [|discriminate].
  assert (forall v,
            _parentalPin v = _parentalPin w ->
            unlock_posts (effects v) = unlock_posts (effects w) ->
            parental_wall srv (getBadges_loop srv fuel 1 1 []) v
              = Some (Thrown e, w') ->
            (e = ErrPinNotPassed <-> num_truthy (_parentalPin w) = false) /\
            (num_truthy (_parentalPin w) = false ->
             unlock_posts (effects w') = unlock_posts (effects w))) as Hwall.
  { intros v Ep Eu. unfold parental_wall.
    change (_parentalPin (say DebugParentalWall v)) with (_parentalPin v).
    rewrite Ep.
    destruct (num_truthy (_parentalPin w)) eqn:T; cbn [negb].
    - pose proof (parentalUnlock_effects srv (_parentalPin w)
                    (say DebugParentalWall v)) as HE.
      pose proof (untouched_parentalUnlock srv (_parentalPin w)
                    (say DebugParentalWall v)) as HU.
      destruct (parentalUnlock _ _ _) as [[c|e'] w2]; cbn [fst snd] in *.
      + intros H. apply IH in H as [H _].
        assert (_parentalPin w2 = _parentalPin w) as Ep2
          by (rewrite <- Ep; apply HU).
        rewrite Ep2, T in H. split; [exact H | discriminate].
      + destruct e'; simpl in HE; try contradiction;
          intros [= <- <-]; (split; [|discriminate]); split; discriminate.
    - intros [= <- <-]. split; [tauto|]. intros _.
      cbn. rewrite unlock_posts_app. cbn. lia. }
  unfold axios_get_badges.
  destruct (srv_badges srv (requests w) (_cookiesJar w) cur) as [|sc pg].
  - apply Hwall; [reflexivity|].
    cbn. rewrite unlock_posts_app. cbn. lia.
  - set (w2 := say (DebugReadingPage cur) _).
    assert (unlock_posts (effects w2) = unlock_posts (effects w)) as Eu.
    { subst w2. cbn. rewrite !unlock_posts_app. cbn. lia. }
    destruct (read_rows (_userGames w2) acc (rows pg)) as [games|].
    + intros H. apply IH in H as [H1 H2]. split; [exact H1|].
      intros T. rewrite (H2 T). exact Eu.
    + apply Hwall; [reflexivity | exact Eu].
Qed.

(** C1 (as amended). With a PIN configured:
    - nothing counts the restarts: the service [walls n], which rejects [n]
      page fetches, is scanned successfully after [n] unlocks and [n + 1]
      fetches of page 1;
    - an obstacle, a rejected fetch or a row that cannot be read, is
      handled in the same way at every point of every attempt: the unlock
      is called, its error ends the scan, and its success restarts the whole
      scan from page 1 with an empty list;
    - over a whole scan that ends, every obstacle met was answered by one
      unlock request, page 1 was fetched once more than unlocks succeeded,
      a scan that returns had all its unlocks succeed, and a scan that ends
      with an error ends with the error of its last unlock (a wrong PIN or
      a rejected request), all the earlier ones having succeeded.
    Without a PIN the only error of a scan is that of the missing PIN, and
    no unlock is ever requested. *)
Theorem getBadges_restarts_after_every_unlock (n : nat) (pin : jsnum) :
  num_truthy pin = true ->
  (exists w',
     getBadges (walls n) (n + 2) (new_CardFarmer None None (Some pin) None)
       = Some (Returned one_game, w') /\
     unlock_posts (effects w') = n /\
     page_gets 1 (effects w') = S n) /\
  (forall srv fuel cur tot acc w wc,
     _parentalPin w = pin ->
     (cur <= tot)%nat ->
     obstacle srv cur acc w wc ->
     getBadges_loop srv (S fuel) cur tot acc w =
       match parentalUnlock srv pin (say DebugParentalWall wc) with
       | (Returned _, w2) => getBadges srv fuel w2
       | (Thrown e, w2) => Some (Thrown e, w2)
       end) /\
  (forall srv fuel w r w',
     _parentalPin w = pin ->
     getBadges srv fuel w = Some (r, w') ->
     exists added,
       effects w' = effects w ++ added /\
       walls_met added = unlock_posts added /\
       page_gets 1 added = S (bypasses added) /\
       match r with
       | Returned _ => unlock_posts added = bypasses added
       | Thrown e =>
           unlock_posts added = S (bypasses added) /\
           (e = ErrWrongPin \/ e = ErrRequest) /\
           exists v, parentalUnlock srv pin v = (Thrown e, w')
       end) /\
  (forall srv fuel w e w',
     num_truthy (_parentalPin w) = false ->
     getBadges srv fuel w = Some (Thrown e, w') ->
     e = ErrPinNotPassed /\
     unlock_posts (effects w') = unlock_posts (effects w)).
Proof.
  intros Hpin. split; [|split; [|split]].
  - destruct (walls_scan n n (new_CardFarmer None None (Some pin) None))
      as (w' & E & HU & HG).
    + simpl. lia.
    + exact Hpin.
    + reflexivity.
    + exists w'. split; [exact E|]. simpl in HU, HG. split; lia.
  - intros srv fuel cur tot acc w wc <- Hle Hob.
    apply Nat.leb_le in Hle.
    cbn [getBadges_loop]. rewrite Hle.
    unfold obstacle in Hob. unfold axios_get_badges.
    destruct (srv_badges srv (requests w) (_cookiesJar w) cur) as [|sc pg].
    + subst wc. unfold parental_wall.
      cbn [_parentalPin say with_effects answered with_requests].
      rewrite Hpin. reflexivity.
    + destruct Hob as [Hr ->].
      change (_userGames (say (DebugReadingPage cur) _)) with (_userGames w).
      rewrite Hr. unfold parental_wall.
      cbn [_parentalPin say with_effects answered with_requests].
      rewrite Hpin. reflexivity.
  - intros srv fuel w r w' <- H.
    apply getBadges_loop_counted in H; [|lia|exact Hpin].
    exact H.
  - intros srv fuel w e w' T H.
    apply getBadges_loop_pin_not_passed in H as [H1 H2].
    split; [by apply H1 | by apply H2].
Qed.

Lemma getBadges_restarts_after_every_unlock_witness :
  exists w',
    getBadges (walls 3) 5 (new_CardFarmer None None (Some (JNum 1234)) None)
      = Some (Returned one_game, w') /\
    unlock_posts (effects w') = 3%nat /\
    page_gets 1 (effects w') = 4%nat.
Proof.
  exact (proj1 (getBadges_restarts_after_every_unlock 3 (JNum 1234) eq_refl)).
Defined.

(** Against C1 as stated: the second obstacle of a scan is not fatal. The
    scan of [walls 2] meets the wall on its first attempt and again on the
    retried one, unlocks twice and returns the list. *)
Lemma second_obstacle_is_retried_again :
  exists w',
    getBadges (walls 2) 4 (new_CardFarmer None None (Some (JNum 1234)) None)
      = Some (Returned one_game, w') /\
    unlock_posts (effects w') = 2%nat /\
    page_gets 1 (effects w') = 3%nat.
Proof. eexists. split; [vm_compute; reflexivity | split; vm_compute; reflexivity]. Qed.

(** A service whose wall comes back after every unlock. *)
Definition endless_wall : Server :=
  {| srv_badges := fun _ _ _ => Rejected;
     srv_unlock := fun _ _ _ _ => Resolved (Some ["steamparental=ok"]) true |}.

(** On such a service the scan never returns: no amount of fuel lets the
    loop end. *)
Lemma getBadges_endless_wall (fuel : nat) :
  forall cur tot acc w,
    (cur <= tot)%nat ->
    num_truthy (_parentalPin w) = true ->
    getBadges_loop endless_wall fuel cur tot acc w = None.
Proof.
  induction fuel as [|fuel IH]; intros cur tot acc w Hle Hpin;
    [reflexivity|].
  apply Nat.leb_le in Hle. cbn [getBadges_loop]. rewrite Hle.
  unfold axios_get_badges. cbn [srv_badges endless_wall].
  unfold parental_wall.
  cbn [_parentalPin say with_effects answered with_requests].
  rewrite Hpin. cbn [negb].
  unfold parentalUnlock, axios_post_unlock.
  cbn [srv_unlock endless_wall List.find includes].
  cbn. apply IH; [lia | exact Hpin].
Qed.

(* ===================================================================== *)
(** ** The items of a scan                                                 *)
(* ===================================================================== *)

Fixpoint all_digits (s : string) : bool :=
  match s with
  | EmptyString => true
  | String c r => is_digit c && all_digits r
  end.

Fixpoint all_zeros (s : string) : bool :=
  match s with
  | EmptyString => true
  | String c r => Ascii.eqb c "0"%char && all_zeros r
  end.

Lemma keep_digits_all_digits s : all_digits (keep_digits s) = true.
Proof.
  induction s as [|c r IH]; simpl; [reflexivity|].
  destruct (is_digit c) eqn:D; simpl; [rewrite D|]; exact IH.
Qed.

Lemma digit_value_range c : is_digit c = true -> 0 <= digit_value c <= 9.
Proof.
  unfold is_digit, digit_value. intros H.
  apply andb_true_iff in H as [H1 H2].
  apply Nat.leb_le in H1, H2. lia.
Qed.

Lemma digit_value_zero c :
  is_digit c = true -> digit_value c = 0 -> c = "0"%char.
Proof.
  unfold digit_value. intros _ H.
  assert (nat_of_ascii c = 48%nat) as E by lia.
  rewrite <- (ascii_nat_embedding c), E. reflexivity.
Qed.

Lemma digits_to_Z_lower s :
  forall acc, 0 <= acc -> all_digits s = true -> acc <= digits_to_Z acc s.
Proof.
  induction s as [|c r IH]; intros acc Hacc Hd; simpl; [lia|].
  simpl in Hd. apply andb_true_iff in Hd as [Hc Hr].
  pose proof (digit_value_range c Hc).
  specialize (IH (10 * acc + digit_value c) ltac:(lia) Hr). lia.
Qed.

Lemma digits_to_Z_zero s :
  forall acc, 0 <= acc -> all_digits s = true ->
    (digits_to_Z acc s = 0 <-> acc = 0 /\ all_zeros s = true).
Proof.
  induction s as [|c r IH]; intros acc Hacc Hd; simpl.
  - intuition.
  - simpl in Hd. apply andb_true_iff in Hd as [Hc Hr].
    pose proof (digit_value_range c Hc) as Hv.
    rewrite (IH (10 * acc + digit_value c) ltac:(lia) Hr).
    rewrite andb_true_iff. split.
    + intros [H0 Hz]. assert (digit_value c = 0) as Hv0 by lia.
      rewrite (digit_value_zero c Hc Hv0). simpl. split; [lia | auto].
    + intros [-> [Hc0 Hz]]. apply Ascii.eqb_eq in Hc0 as ->.
      split; [reflexivity | exact Hz].
Qed.

Lemma round_to_double_small n : n < 2 ^ 53 -> round_to_double n = Count n.
Proof.
  intros H. unfold round_to_double.
  destruct (Z.ltb_spec n (2 ^ 53)); [reflexivity | lia].
Qed.

(** From 2^53 on the rounded value is a positive multiple of the spacing,
    or [Infinity]. *)
Lemma round_to_double_large n :
  2 ^ 53 <= n -> count_positive (round_to_double n).
Proof.
  intros H. unfold round_to_double.
  destruct (Z.ltb_spec n (2 ^ 53)) as [|_]; [lia|].
  assert (0 < n) as Hn by lia.
  assert (53 <= Z.log2 n) as Hl by (apply Z.log2_le_pow2; lia).
  destruct (Z.log2_spec n Hn) as [Hlo _].
  set (e := Z.log2 n - 52) in *.
  assert (0 < 2 ^ e) as Hp by (apply Z.pow_pos_nonneg; lia).
  assert (2 ^ e <= 2 ^ Z.log2 n) as Hle by (apply Z.pow_le_mono_r; lia).
  assert (1 <= n / 2 ^ e) as Hq.
  { apply Z.div_le_lower_bound; lia. }
  cbv zeta.
  match goal with
  | |- count_positive (if _ <=? ?q' * _ then _ else _) =>
      assert (1 <= q') as Hq'
  end.
  { destruct (_ <? _); [lia|].
    destruct (_ <? _); [lia|].
    destruct (Z.even _); lia. }
  destruct (_ <=? _); simpl; [exact I | nia].
Qed.

Lemma round_to_double_zero n :
  0 <= n -> (round_to_double n = Count 0 <-> n = 0).
Proof.
  intros Hn. split; [|intros ->; reflexivity].
  destruct (Z.lt_ge_cases n (2 ^ 53)) as [H|H].
  - rewrite (round_to_double_small n H). congruence.
  - pose proof (round_to_double_large n H) as P.
    intros E. rewrite E in P. simpl in P. lia.
Qed.

Lemma round_to_double_positive n :
  0 <= n -> (count_positive (round_to_double n) <-> 0 < n).
Proof.
  intros Hn. destruct (Z.lt_ge_cases n (2 ^ 53)) as [H|H].
  - rewrite (round_to_double_small n H). reflexivity.
  - split; [lia|]. intros _. by apply round_to_double_large.
Qed.

(** Above 2^53 the conversion rounds: [+"9007199254740993"] is
    9007199254740992, a tie goes to the even significand, and 310 digits
    give [Infinity]. *)
Example to_number_digits_rounds :
  to_number_digits "9007199254740993" = Count 9007199254740992 /\
  to_number_digits "9007199254740995" = Count 9007199254740996 /\
  to_number_digits "18014398509481987" = Count 18014398509481988 /\
  to_number_digits "0042" = Count 42 /\
  round_to_double (10 ^ 309) = Infinity /\
  round_to_double (2 ^ 1024 - 2 ^ 970) = Infinity /\
  round_to_double (2 ^ 1024 - 2 ^ 970 - 1) = Count (2 ^ 1024 - 2 ^ 971).
Proof. vm_compute. repeat split. Qed.

(** The page [pg] is among the answers of the service. *)
Definition served (srv : Server) (pg : page) : Prop :=
  exists k jar p sc, srv_badges srv k jar p = Resolved sc pg.

(** The item [g] was made from a row, of a page of the service, whose drops
    text has a digit; its count is the number that the digits of that text
    spell, which is zero exactly when all of them are zeros. *)
Definition from_digit_row (srv : Server) (g : GameTradingCards) : Prop :=
  exists pg r,
    served srv pg /\ r ∈ rows pg /\
    keep_digits (drops_text r) <> "" /\
    overlay_appId r = Some (appId g) /\
    appTitle g = title_text r /\
    leftCards g = to_number_digits (keep_digits (drops_text r)) /\
    (leftCards g = Count 0 <->
     all_zeros (keep_digits (drops_text r)) = true) /\
    (count_positive (leftCards g) <->
     all_zeros (keep_digits (drops_text r)) = false).

Lemma to_number_digits_zero s :
  all_digits s = true ->
  (to_number_digits s = Count 0 <-> all_zeros s = true).
Proof.
  intros D. unfold to_number_digits.
  pose proof (digits_to_Z_lower _ 0 ltac:(lia) D) as L.
  rewrite (round_to_double_zero _ L).
  rewrite (digits_to_Z_zero _ 0 ltac:(lia) D). intuition.
Qed.

Lemma to_number_digits_positive s :
  all_digits s = true ->
  (count_positive (to_number_digits s) <-> all_zeros s = false).
Proof.
  intros D. unfold to_number_digits.
  pose proof (digits_to_Z_lower _ 0 ltac:(lia) D) as L.
  rewrite (round_to_double_positive _ L).
  pose proof (digits_to_Z_zero _ 0 ltac:(lia) D) as Z0.
  destruct (all_zeros s).
  - split; [|discriminate]. intros P.
    assert (digits_to_Z 0 s = 0) by (apply Z0; auto). lia.
  - split; [reflexivity|]. intros _.
    assert (digits_to_Z 0 s <> 0) by (intros E; apply Z0 in E as [_ E]; discriminate).
    lia.
Qed.

Lemma read_row_from_digit_row srv pg ug acc r acc' :
  served srv pg -> r ∈ rows pg ->
  Forall (from_digit_row srv) acc ->
  read_row ug acc r = Some acc' ->
  Forall (from_digit_row srv) acc'.
Proof.
  intros Hpg Hr Hacc. unfold read_row.
  destruct (str_truthy (keep_digits (drops_text r))) eqn:T;
    [|intros [= <-]; exact Hacc].
  destruct (overlay_appId r) as [id|] eqn:Hid; [|discriminate].
  destruct (user_picked ug id); intros [= <-]; [|exact Hacc].
  apply Forall_app. split; [exact Hacc|].
  constructor; [|constructor].
  exists pg, r. simpl.
  pose proof (keep_digits_all_digits (drops_text r)) as D.
  repeat split; try assumption; try reflexivity.
  - intros E. rewrite E in T. discriminate.
  - intros H. by apply (to_number_digits_zero _ D).
  - intros H. by apply (to_number_digits_zero _ D).
  - intros H. by apply (to_number_digits_positive _ D).
  - intros H. by apply (to_number_digits_positive _ D).
Qed.

Lemma read_rows_from_digit_row srv pg ug rs :
  forall acc acc',
    served srv pg -> (forall r, r ∈ rs -> r ∈ rows pg) ->
    Forall (from_digit_row srv) acc ->
    read_rows ug acc rs = Some acc' ->
    Forall (from_digit_row srv) acc'.
Proof.
  induction rs as [|r rs IH]; intros acc acc' Hpg Hsub Hacc; simpl.
  - intros [= <-]. exact Hacc.
  - destruct (read_row ug acc r) as [acc1|] eqn:R; [|discriminate].
    intros H. eapply IH; [exact Hpg | | | exact H].
    + intros r' Hr'. apply Hsub. by right.
    + eapply read_row_from_digit_row; [exact Hpg | | exact Hacc | exact R].
      apply Hsub. by left.
Qed.

Lemma getBadges_loop_from_digit_row srv fuel :
  forall cur tot acc w games w',
    Forall (from_digit_row srv) acc ->
    getBadges_loop srv fuel cur tot acc w = Some (Returned games, w') ->
    Forall (from_digit_row srv) games.
Proof.
  induction fuel as [|fuel IH]; intros cur tot acc w games w' Hacc;
    [discriminate|].
  cbn [getBadges_loop].
  destruct (cur <=? tot)%nat; [|intros [= <- <-]; exact Hacc].
  assert (forall v,
            parental_wall srv (getBadges_loop srv fuel 1 1 []) v
              = Some (Returned games, w') ->
            Forall (from_digit_row srv) games) as Hwall.
  { intros v. unfold parental_wall.
    destruct (negb _); [discriminate|].
    destruct (parentalUnlock _ _ _) as [[c|e] w2]; [|discriminate].
    apply IH. constructor. }
  unfold axios_get_badges.
  destruct (srv_badges srv (requests w) (_cookiesJar w) cur) as [|sc pg] eqn:S;
    [apply Hwall|].
  destruct (read_rows _ acc (rows pg)) as [acc1|] eqn:R; [|apply Hwall].
  apply IH.
  eapply read_rows_from_digit_row; [| | exact Hacc | exact R].
  - by exists (requests w), (_cookiesJar w), cur, sc.
  - auto.
Qed.

(** C3 (as amended). Every item of the list that a scan returns was made
    from a badge row whose drops text contains a decimal digit, and its
    [leftCards] is the double that unary [+] gives for those digits: it is
    zero exactly when all the digits are zeros, and above zero otherwise. A
    row whose drops text has no digit gives no item. So every item has
    [leftCards] above zero whenever the service writes no count as a string
    of zeros. *)
Theorem getBadges_items_come_from_digit_rows
    (srv : Server) (fuel : nat) (w w' : World)
    (games : list GameTradingCards) :
  getBadges srv fuel w = Some (Returned games, w') ->
  Forall (from_digit_row srv) games /\
  ((forall pg r,
      served srv pg -> r ∈ rows pg ->
      keep_digits (drops_text r) <> "" ->
      all_zeros (keep_digits (drops_text r)) = false) ->
   Forall (fun g => count_positive (leftCards g)) games).
Proof.
  intros H.
  assert (Forall (from_digit_row srv) games) as F
    by (revert H; apply getBadges_loop_from_digit_row; constructor).
  split; [exact F|].
  intros Hz. eapply Forall_impl; [exact F|].
  intros g (pg & r & Hpg & Hr & Hd & _ & _ & _ & _ & Hpos).
  apply Hpos. by apply (Hz pg r).
Qed.

(** A page of three badges; the second one has its count spelled "0". *)
Definition zero_page : page :=
  {| pagelinks := 0;
     rows := [ {| drops_text := "3 card drops remaining";
                  overlay_appId := Some (JNum 1); title_text := "One" |};
               {| drops_text := "0 card drops remaining";
                  overlay_appId := Some (JNum 2); title_text := "Two" |};
               {| drops_text := "5 card drops remaining";
                  overlay_appId := Some (JNum 3); title_text := "Three" |} ] |}.

Definition zero_service : Server :=
  {| srv_badges := fun _ _ _ => Resolved None zero_page;
     srv_unlock := fun _ _ _ _ => Rejected |}.

Definition zero_page_items : list GameTradingCards :=
  [ {| appTitle := "One"; appId := JNum 1; leftCards := 3 |};
    {| appTitle := "Two"; appId := JNum 2; leftCards := 0 |};
    {| appTitle := "Three"; appId := JNum 3; leftCards := 5 |} ].

Lemma getBadges_items_come_from_digit_rows_witness :
  Forall (from_digit_row zero_service) zero_page_items.
Proof.
  exact (proj1 (getBadges_items_come_from_digit_rows zero_service 3
                  (new_CardFarmer (Some "u") (Some "p") None None) _
                  zero_page_items eq_refl)).
Defined.

(** Against C3 as stated: a row whose drops text reads "0 card drops
    remaining" keeps the digit "0", a non-empty and therefore truthy string,
    and is listed with [leftCards = 0]. *)
Lemma zero_count_item_is_listed :
  exists w',
    getBadges zero_service 3 (new_CardFarmer (Some "u") (Some "p") None None)
      = Some (Returned zero_page_items, w') /\
    ~ Forall (fun g => count_positive (leftCards g)) zero_page_items.
Proof.
  eexists. split; [reflexivity|].
  intros H. apply Forall_cons in H as [_ H].
  apply Forall_cons in H as [H _]. simpl in H. lia.
Qed.

(* ===================================================================== *)
(** ** The selection                                                       *)
(* ===================================================================== *)

Definition with_userGames (v : option (gset jsnum)) (w : World) : World :=
  mkWorld (_accountName w) (_password w) (_parentalPin w) (_cookiesJar w)
    (_sessionId w) v (_delayTimeout w) (_privacyTimeout w)
    (webSession_once w) (now w) (next_handle w) (timers w) (pending w)
    (requests w) (effects w).

(** The same world with no [2idle.json] loaded. *)
Definition without_selection (w : World) : World := with_userGames None w.

(** The item discovered in a row: none when the drops text has no digit. *)
Definition row_item (r : badge_row) : option GameTradingCards :=
  let remainingCards := keep_digits (drops_text r) in
  if str_truthy remainingCards then
    (fun id => {| appId := id;
                  appTitle := title_text r;
                  leftCards := to_number_digits remainingCards |})
      <$> overlay_appId r
  else None.

(** The items discovered on a page, in document order. *)
Definition page_items (pg : page) : list GameTradingCards :=
  omap row_item (rows pg).

(** The items discovered on a sequence of pages, in the order met. *)
Definition discovered (pgs : list page) : list GameTradingCards :=
  flat_map page_items pgs.

(** Membership of the selection; everything is selected when there is no
    selection. *)
Definition selected (userGames : option (gset jsnum)) (g : GameTradingCards)
  : Prop :=
  match userGames with
  | None => True
  | Some s => appId g ∈ s
  end.

#[global] Instance selected_dec userGames g : Decision (selected userGames g).
Proof. destruct userGames; simpl; apply _. Defined.

Lemma user_picked_selected ug g : user_picked ug (appId g) = true <-> selected ug g.
Proof.
  destruct ug as [s|]; simpl; [apply bool_decide_eq_true | tauto].
Qed.

Lemma filter_selected_None (l : list GameTradingCards) :
  filter (selected None) l = l.
Proof.
  induction l as [|g l IH]; [reflexivity|].
  rewrite filter_cons_True by exact I. by rewrite IH.
Qed.

Lemma read_row_selection ug accS accA r :
  accS = filter (selected ug) accA ->
  match read_row ug accS r with
  | Some x =>
      read_row None accA r = Some (accA ++ option_list (row_item r)) /\
      x = filter (selected ug) (accA ++ option_list (row_item r))
  | None => read_row None accA r = None
  end.
Proof.
  intros ->. unfold read_row, row_item.
  destruct (str_truthy (keep_digits (drops_text r))); simpl.
  - destruct (overlay_appId r) as [id|]; simpl; [|reflexivity].
    set (g := {| appTitle := _ |}).
    rewrite filter_app.
    destruct (user_picked ug id) eqn:P.
    + split; [reflexivity|].
      rewrite (filter_cons_True _ g []); [reflexivity|].
      by apply (user_picked_selected ug g).
    + split; [reflexivity|].
      rewrite (filter_cons_False _ g []); [by rewrite app_nil_r|].
      intros H. apply (user_picked_selected ug g) in H.
      simpl in H. congruence.
  - by rewrite !app_nil_r.
Qed.

Lemma read_rows_selection ug rs :
  forall accS accA,
    accS = filter (selected ug) accA ->
    match read_rows ug accS rs with
    | Some x =>
        read_rows None accA rs = Some (accA ++ omap row_item rs) /\
        x = filter (selected ug) (accA ++ omap row_item rs)
    | None => read_rows None accA rs = None
    end.
Proof.
  induction rs as [|r rs IH]; intros accS accA E; simpl.
  - rewrite app_nil_r. auto.
  - pose proof (read_row_selection ug accS accA r E) as H1.
    destruct (read_row ug accS r) as [x|].
    + destruct H1 as [-> Ex].
      specialize (IH x _ Ex).
      assert (forall t, (accA ++ option_list (row_item r)) ++ t
                        = accA ++ (option_list (row_item r) ++ t)) as A
        by (intros; by rewrite <- app_assoc).
      destruct (read_rows ug x rs) as [y|].
      * destruct IH as [-> ->]. rewrite A.
        destruct (row_item r); simpl; auto.
      * rewrite IH. reflexivity.
    + rewrite H1. reflexivity.
Qed.

Lemma axios_get_badges_without_selection srv p w :
  axios_get_badges srv p (without_selection w) =
    (fst (axios_get_badges srv p w),
     without_selection (snd (axios_get_badges srv p w))).
Proof.
  unfold axios_get_badges. simpl.
  destruct (srv_badges srv (requests w) (_cookiesJar w) p); reflexivity.
Qed.

Lemma axios_post_unlock_without_selection srv pin w :
  axios_post_unlock srv pin (without_selection w) =
    (fst (axios_post_unlock srv pin w),
     without_selection (snd (axios_post_unlock srv pin w))).
Proof.
  unfold axios_post_unlock. simpl.
  destruct (srv_unlock srv (requests w) (_cookiesJar w) pin (_sessionId w));
    reflexivity.
Qed.

Lemma parentalUnlock_without_selection srv pin w :
  parentalUnlock srv pin (without_selection w) =
    (fst (parentalUnlock srv pin w),
     without_selection (snd (parentalUnlock srv pin w))).
Proof.
  unfold parentalUnlock. rewrite axios_post_unlock_without_selection.
  destruct (axios_post_unlock srv pin w) as [[|sc success] w1]; simpl;
    [reflexivity|].
  destruct (if success then sc else None) as [cookies|]; simpl;
    [|reflexivity].
  destruct (List.find (includes "steamparental") cookies) as [c|]; simpl;
    [|reflexivity].
  destruct (str_truthy c); reflexivity.
Qed.

(** Every row of the page that has a digit in its drops text has an
    [href] on its overlay link. *)
Definition readable (pg : page) : Prop :=
  forall r, r ∈ rows pg ->
    str_truthy (keep_digits (drops_text r)) = true -> overlay_appId r <> None.

(** The pages [pgs] are what one pass of the loop reads from the service,
    when it starts at page [cur] with [totalPages = tot] and its first
    fetch is request number [k]: as long as [cur <= tot] the next request
    asks for page [cur], is answered with the next page of [pgs], whose
    rows can all be read and whose page links give the new [tot]; after
    the last page of [pgs] the loop condition fails. *)
Fixpoint pass_reads (srv : Server) (jar : list string)
    (k cur tot : nat) (pgs : list page) : Prop :=
  match pgs with
  | [] => (tot < cur)%nat
  | pg :: rest =>
      (cur <= tot)%nat /\
      (exists sc, srv_badges srv k jar cur = Resolved sc pg) /\
      readable pg /\
      pass_reads srv jar (S k) (S cur) (pagelinks pg + 1) rest
  end.

(** The pass of the loop that is the last one of a scan from [w] to [w']:
    either the pass under way, which goes on from page [cur] and keeps the
    items [accA] read so far, or a pass that started again from page 1
    with no item, and whose requests are the last ones of the scan. *)
Definition last_pass (srv : Server) (cur tot : nat)
    (accA : list GameTradingCards) (w w' : World)
    (pgs : list page) (base : list GameTradingCards) : Prop :=
  (base = accA /\
   requests w' = (requests w + length pgs)%nat /\
   pass_reads srv (_cookiesJar w) (requests w) cur tot pgs) \/
  (base = [] /\
   (requests w + length pgs <= requests w')%nat /\
   pass_reads srv (_cookiesJar w) (requests w' - length pgs) 1 1 pgs).

(** How a scan with a selection and the scan of the same service without
    one are related, from any point of the loop on. *)
Definition selection_related (srv : Server) (fuel cur tot : nat)
    (accA : list GameTradingCards) (w : World)
    (r : outcome (list GameTradingCards)) (w' : World) : Prop :=
  match r with
  | Returned games =>
      exists pgs base,
        last_pass srv cur tot accA w w' pgs base /\
        games = filter (selected (_userGames w)) (base ++ discovered pgs) /\
        getBadges_loop srv fuel cur tot accA (without_selection w)
          = Some (Returned (base ++ discovered pgs), without_selection w')
  | Thrown e =>
      getBadges_loop srv fuel cur tot accA (without_selection w)
        = Some (Thrown e, without_selection w')
  end.

Lemma read_rows_some_readable ug rs :
  forall acc x,
    read_rows ug acc rs = Some x ->
    forall r, r ∈ rs ->
      str_truthy (keep_digits (drops_text r)) = true ->
      overlay_appId r <> None.
Proof.
  induction rs as [|r0 rs IH]; intros acc x H r Hin T;
    [by apply elem_of_nil in Hin|].
  simpl in H.
  destruct (read_row ug acc r0) as [y|] eqn:R; [|discriminate].
  apply elem_of_cons in Hin as [->|Hin]; [|eapply IH; eauto].
  unfold read_row in R. rewrite T in R.
  by destruct (overlay_appId r0).
Qed.

Lemma last_pass_restarted srv w w2 w' pgs base :
  (requests w <= requests w2)%nat ->
  _cookiesJar w2 = _cookiesJar w ->
  last_pass srv 1 1 [] w2 w' pgs base ->
  base = [] /\
  (requests w + length pgs <= requests w')%nat /\
  pass_reads srv (_cookiesJar w) (requests w' - length pgs) 1 1 pgs.
Proof.
  intros Hle Ej [(-> & Er & Hp) | (-> & Er & Hp)]; rewrite Ej in Hp.
  - split; [reflexivity|]. split; [lia|].
    replace (requests w' - length pgs)%nat with (requests w2) by lia.
    exact Hp.
  - split; [reflexivity|]. split; [lia | exact Hp].
Qed.

Lemma parental_wall_selection srv fuel w r w' :
  (forall v r' v',
     getBadges_loop srv fuel 1 1 [] v = Some (r', v') ->
     selection_related srv fuel 1 1 [] v r' v') ->
  parental_wall srv (getBadges_loop srv fuel 1 1 []) w = Some (r, w') ->
  match r with
  | Returned games =>
      exists pgs,
        ((requests w + length pgs <= requests w')%nat /\
         pass_reads srv (_cookiesJar w) (requests w' - length pgs) 1 1 pgs) /\
        games = filter (selected (_userGames w)) (discovered pgs) /\
        parental_wall srv (getBadges_loop srv fuel 1 1 []) (without_selection w)
          = Some (Returned (discovered pgs), without_selection w')
  | Thrown e =>
      parental_wall srv (getBadges_loop srv fuel 1 1 []) (without_selection w)
        = Some (Thrown e, without_selection w')
  end.
Proof.
  intros IH. unfold parental_wall.
  change (_parentalPin (say DebugParentalWall (without_selection w)))
    with (_parentalPin (say DebugParentalWall w)).
  destruct (negb _).
  - intros [= <- <-]. reflexivity.
  - change (say DebugParentalWall (without_selection w))
      with (without_selection (say DebugParentalWall w)).
    rewrite parentalUnlock_without_selection.
    pose proof (untouched_parentalUnlock srv
                  (_parentalPin (say DebugParentalWall w))
                  (say DebugParentalWall w)) as HU.
    destruct (parentalUnlock _ _ _) as [[c|e] w2] eqn:EPU; simpl in *.
    + intros H. apply IH in H.
      assert (_userGames w2 = _userGames w) as EU by apply HU.
      assert (_cookiesJar w2 = _cookiesJar w) as EJ by apply HU.
      assert (requests w <= requests w2)%nat as ER.
      { apply parentalUnlock_returned in EPU as (cookies & _ & _ & ->).
        cbn. lia. }
      destruct r as [games|e]; simpl in H.
      * destruct H as (pgs & base & Hl & -> & E).
        apply (last_pass_restarted srv w) in Hl as (-> & Hr & Hp);
          [|exact ER|exact EJ].
        exists pgs. rewrite EU. simpl in *. auto.
      * exact H.
    + intros [= <- <-]. reflexivity.
Qed.

Lemma getBadges_loop_selection srv fuel :
  forall cur tot accS accA w r w',
    accS = filter (selected (_userGames w)) accA ->
    getBadges_loop srv fuel cur tot accS w = Some (r, w') ->
    selection_related srv fuel cur tot accA w r w'.
Proof.
  induction fuel as [|fuel IH]; intros cur tot accS accA w r w' Hacc;
    [discriminate|].
  unfold selection_related. cbn [getBadges_loop].
  destruct (cur <=? tot)%nat eqn:Hct.
  2:{ intros [= <- <-]. exists [], accA. simpl. rewrite app_nil_r.
      split; [|auto]. left. split; [reflexivity|]. cbn [length pass_reads].
      split; [lia|]. by apply Nat.leb_gt. }
  apply Nat.leb_le in Hct.
  assert (forall v v',
            _userGames v = _userGames w ->
            _cookiesJar v = _cookiesJar w ->
            (requests w <= requests v)%nat ->
            parental_wall srv (getBadges_loop srv fuel 1 1 []) v
              = Some (r, v') ->
            match r with
            | Returned games =>
                exists pgs base,
                  last_pass srv cur tot accA w v' pgs base /\
                  games = filter (selected (_userGames w)) (base ++ discovered pgs) /\
                  parental_wall srv (getBadges_loop srv fuel 1 1 [])
                    (without_selection v)
                    = Some (Returned (base ++ discovered pgs), without_selection v')
            | Thrown e =>
                parental_wall srv (getBadges_loop srv fuel 1 1 [])
                  (without_selection v)
                  = Some (Thrown e, without_selection v')
            end) as Hwall.
  { intros v v' EU EJ ER H.
    apply (parental_wall_selection srv fuel v r v') in H.
    - destruct r as [gs|e]; [|exact H].
      destruct H as (pgs & [Hr Hp] & -> & E). exists pgs, [].
      rewrite EU. split; [|auto].
      right. split; [reflexivity|]. rewrite <- EJ. split; [lia | exact Hp].
    - intros u r' u' Hu. eapply IH; [|exact Hu]. reflexivity. }
  rewrite axios_get_badges_without_selection.
  unfold axios_get_badges.
  destruct (srv_badges srv (requests w) (_cookiesJar w) cur) as [|sc pg] eqn:S;
    cbn [fst snd].
  - apply Hwall; [reflexivity | reflexivity | cbn; lia].
  - set (w1 := answered (say (HttpGetBadges (_cookiesJar w) cur) w)).
    change (_userGames (say (DebugReadingPage cur) w1)) with (_userGames w).
    change (_userGames (say (DebugReadingPage cur) (without_selection w1)))
      with (@None (gset jsnum)).
    change (say (DebugReadingPage cur) (without_selection w1))
      with (without_selection (say (DebugReadingPage cur) w1)).
    pose proof (read_rows_selection (_userGames w) (rows pg) accS accA Hacc) as HR.
    destruct (read_rows (_userGames w) accS (rows pg)) as [x|] eqn:RR.
    + destruct HR as [-> Ex]. intros H.
      eapply IH in H; [|exact Ex].
      destruct r as [games|e]; simpl in H; [|exact H].
      destruct H as (pgs & base & Hl & Eg & E).
      change (_userGames (say (DebugReadingPage cur) w1))
        with (_userGames w) in Eg.
      destruct Hl as [(-> & Er & Hp) | (-> & Er & Hp)].
      * exists (pg :: pgs), accA. split; [|split].
        -- left. split; [reflexivity|]. split.
           ++ rewrite Er. subst w1. cbn. lia.
           ++ cbn [pass_reads]. split; [exact Hct|].
              split; [by exists sc|]. split; [|exact Hp].
              intros r0. eapply read_rows_some_readable. exact RR.
        -- rewrite Eg. unfold discovered, page_items. simpl.
           by rewrite <- app_assoc.
        -- rewrite E. unfold discovered, page_items. simpl.
           by rewrite <- app_assoc.
      * exists pgs, []. split; [|auto].
        right. split; [reflexivity|].
        split; [revert Er; subst w1; cbn; lia | exact Hp].
    + rewrite HR. apply Hwall; [reflexivity | reflexivity | cbn; lia].
Qed.

(** C5 (as amended). A scan that returns has read, with its last requests
    and from page 1 on, pages [pgs] of the service whose rows could all be
    read, up to the page whose links ended the loop ([pass_reads]). It
    returns exactly the items discovered on these pages whose id is in the
    selection, in the order met, hence all of them when no selection is
    loaded; and the scan of the same service with no selection loaded reads
    the same pages and returns all the items discovered on them. A
    discovered item is the item of a row whose drops text has a digit, a
    count of zero included ([row_item]). *)
Theorem getBadges_returns_selected_discovered_items
    (srv : Server) (fuel : nat) (w w' : World)
    (games : list GameTradingCards) :
  getBadges srv fuel w = Some (Returned games, w') ->
  exists pgs,
    (requests w + length pgs <= requests w')%nat /\
    pass_reads srv (_cookiesJar w) (requests w' - length pgs) 1 1 pgs /\
    games = filter (selected (_userGames w)) (discovered pgs) /\
    (_userGames w = None -> games = discovered pgs) /\
    getBadges srv fuel (without_selection w)
      = Some (Returned (discovered pgs), without_selection w').
Proof.
  intros H.
  apply (getBadges_loop_selection srv fuel 1 1 [] [] w) in H; [|reflexivity].
  destruct H as (pgs & base & Hl & -> & E).
  apply (last_pass_restarted srv w w w' pgs base) in Hl as (-> & Hr & Hp);
    [|lia|reflexivity].
  exists pgs. split; [exact Hr|]. split; [exact Hp|].
  split; [reflexivity|]. split; [|exact E].
  intros ->. apply filter_selected_None.
Qed.

Definition picks_2_3 : World :=
  new_CardFarmer (Some "u") (Some "p") None (Some [JNum 2; JNum 3]).

Lemma getBadges_returns_selected_discovered_items_witness :
  exists pgs,
    pass_reads zero_service [] (1 - length pgs) 1 1 pgs /\
    [ {| appTitle := "Two"; appId := JNum 2; leftCards := 0 |};
      {| appTitle := "Three"; appId := JNum 3; leftCards := 5 |} ]
      = filter (selected (_userGames picks_2_3)) (discovered pgs).
Proof.
  edestruct (getBadges_returns_selected_discovered_items
               zero_service 3 picks_2_3)
    as (pgs & _ & Hp & E & _); [vm_compute; reflexivity|].
  exists pgs. split; [exact Hp | exact E].
Defined.

(** Against C5 as stated: with the selection [2, 3] loaded, the scan of
    [zero_page] returns the items 2 and 3, although item 2 has no unit left;
    the discovered items with a positive count whose id is in the selection
    are item 3 alone. *)
Lemma selected_zero_count_item_is_returned :
  exists w',
    getBadges zero_service 3 picks_2_3
      = Some (Returned
                [ {| appTitle := "Two"; appId := JNum 2; leftCards := 0 |};
                  {| appTitle := "Three"; appId := JNum 3; leftCards := 5 |} ],
              w') /\
    filter (fun g => count_positive (leftCards g) /\
                     selected (_userGames picks_2_3) g)
      (discovered [zero_page])
      = [ {| appTitle := "Three"; appId := JNum 3; leftCards := 5 |} ].
Proof. eexists. split; vm_compute; reflexivity. Qed.

(* ===================================================================== *)
(** ** Timers                                                              *)
(* ===================================================================== *)

(** A cycle timer is the 15 min dwell timer or the 10 s timer that follows
    it; both are kept in [_delayTimeout]. *)
Definition is_cycle (t : timer) : Prop := t_cb t <> CbRevert.

(** A revert timer, kept in [_privacyTimeout]. *)
Definition is_revert (t : timer) : Prop := t_cb t = CbRevert.

#[global] Instance is_cycle_dec t : Decision (is_cycle t).
Proof. unfold is_cycle. apply _. Defined.

#[global] Instance is_revert_dec t : Decision (is_revert t).
Proof. unfold is_revert. apply _. Defined.

(** What holds of the handles in every world that the event loop reaches:
    handles in use are below the next one, no two live timers share a
    handle, and a live cycle timer is the one held in [_delayTimeout]. *)
Record handles_ok (w : World) : Prop := {
  timers_fresh : forall t, t ∈ timers w -> (t_id t < next_handle w)%nat;
  pending_fresh : forall p, p ∈ pending w -> (p_id p < next_handle w)%nat;
  timers_nodup : NoDup (t_id <$> timers w);
  cycle_handle :
    forall t, t ∈ timers w -> is_cycle t -> _delayTimeout w = Some (t_id t);
}.

Lemma handles_ok_same w w' :
  timers w' = timers w -> pending w' = pending w ->
  next_handle w' = next_handle w -> _delayTimeout w' = _delayTimeout w ->
  handles_ok w -> handles_ok w'.
Proof.
  intros Et Ep En Ed [H1 H2 H3 H4].
  constructor; rewrite ?Et, ?Ep, ?En, ?Ed; assumption.
Qed.

Lemma handles_ok_untouched w w' : untouched w w' -> handles_ok w -> handles_ok w'.
Proof.
  intros (Et & Ep & En & Ed & _). by apply handles_ok_same.
Qed.

Lemma handles_ok_say e w : handles_ok w -> handles_ok (say e w).
Proof. by apply handles_ok_same. Qed.

Lemma handles_ok_new cn cp pin sel : handles_ok (new_CardFarmer cn cp pin sel).
Proof.
  constructor; simpl.
  - intros t Ht. by apply elem_of_nil in Ht.
  - intros p Hp. by apply elem_of_nil in Hp.
  - apply NoDup_nil. exact I.
  - intros t Ht. by apply elem_of_nil in Ht.
Qed.

Lemma NoDup_fmap_filter {A B} (f : A -> B) (P : A -> Prop)
    `{forall x, Decision (P x)} (l : list A) :
  NoDup (f <$> l) -> NoDup (f <$> filter P l).
Proof.
  induction l as [|x l IH]; simpl; [auto|].
  rewrite NoDup_cons. intros [Hx Hl].
  rewrite filter_cons. destruct (decide (P x)); [|auto].
  simpl. apply NoDup_cons. split; [|auto].
  intros Hin. apply Hx.
  apply list_elem_of_fmap in Hin as (y & -> & Hy).
  apply list_elem_of_filter in Hy as [_ Hy].
  by apply list_elem_of_fmap_2.
Qed.

Lemma handles_ok_clearTimeout h w : handles_ok w -> handles_ok (clearTimeout h w).
Proof.
  intros [H1 H2 H3 H4]. destruct h as [id|]; [|by constructor].
  constructor; simpl.
  - intros t Ht. apply list_elem_of_filter in Ht as [_ Ht]. auto.
  - exact H2.
  - by apply NoDup_fmap_filter.
  - intros t Ht. apply list_elem_of_filter in Ht as [_ Ht]. auto.
Qed.

(** Once the handle in [_delayTimeout] is cleared no cycle timer is live. *)
Lemma no_cycle_after_clear w :
  handles_ok w ->
  forall t, t ∈ timers (clearTimeout (_delayTimeout w) w) -> is_revert t.
Proof.
  intros [_ _ _ H4] t Ht.
  destruct (decide (is_revert t)) as [|Hc]; [assumption|].
  exfalso. destruct (_delayTimeout w) as [id|] eqn:E; simpl in Ht.
  - apply list_elem_of_filter in Ht as [Hne Ht].
    specialize (H4 t Ht Hc). congruence.
  - specialize (H4 t Ht Hc). congruence.
Qed.

Lemma handles_ok_setTempProfilePrivacy b games w :
  handles_ok w -> handles_ok (setTempProfilePrivacy b games w).
Proof.
  intros [H1 H2 H3 H4]. constructor; simpl.
  - intros t Ht. specialize (H1 t Ht). lia.
  - intros p Hp. apply elem_of_app in Hp as [Hp|Hp].
    + specialize (H2 p Hp). lia.
    + apply list_elem_of_singleton in Hp as ->. simpl. lia.
  - exact H3.
  - exact H4.
Qed.

Lemma NoDup_fresh_handle (l : list timer) (n : nat) due cb :
  (forall t, t ∈ l -> (t_id t < n)%nat) ->
  NoDup (t_id <$> l) -> NoDup (t_id <$> (l ++ [mkTimer n due cb])).
Proof.
  intros Hfresh Hnd. rewrite fmap_app. apply NoDup_app.
  split; [exact Hnd|]. split.
  - intros x Hx Hx'. simpl in Hx'. apply list_elem_of_singleton in Hx' as ->.
    apply list_elem_of_fmap in Hx as (t & E & Ht).
    specialize (Hfresh t Ht). lia.
  - simpl. apply NoDup_singleton.
Qed.

(** Arming the revert timer, as [setTempProfilePrivacy] does. *)
Lemma handles_ok_arm_revert delay w :
  handles_ok w ->
  handles_ok (with_privacyTimeout (Some (fst (setTimeout CbRevert delay w)))
                (snd (setTimeout CbRevert delay w))).
Proof.
  intros [H1 H2 H3 H4]. constructor; simpl.
  - intros t Ht. apply elem_of_app in Ht as [Ht|Ht].
    + specialize (H1 t Ht). lia.
    + apply list_elem_of_singleton in Ht as ->. simpl. lia.
  - intros p Hp. specialize (H2 p Hp). lia.
  - by apply NoDup_fresh_handle.
  - intros t Ht Hc. apply elem_of_app in Ht as [Ht|Ht]; [auto|].
    apply list_elem_of_singleton in Ht as ->. by destruct Hc.
Qed.

(** Arming a cycle timer when no cycle timer is live. *)
Lemma handles_ok_arm_cycle cb delay w :
  handles_ok w ->
  (forall t, t ∈ timers w -> is_revert t) ->
  handles_ok (with_delayTimeout (Some (fst (setTimeout cb delay w)))
                (snd (setTimeout cb delay w))).
Proof.
  intros [H1 H2 H3 H4] Hrev. constructor; simpl.
  - intros t Ht. apply elem_of_app in Ht as [Ht|Ht].
    + specialize (H1 t Ht). lia.
    + apply list_elem_of_singleton in Ht as ->. simpl. lia.
  - intros p Hp. specialize (H2 p Hp). lia.
  - by apply NoDup_fresh_handle.
  - intros t Ht Hc. apply elem_of_app in Ht as [Ht|Ht].
    + by destruct (Hc (Hrev t Ht)).
    + by apply list_elem_of_singleton in Ht as ->.
Qed.

Lemma handles_ok_close w : handles_ok w -> handles_ok (close w).
Proof.
  intros H. unfold close.
  do 2 apply handles_ok_say. do 2 apply handles_ok_clearTimeout.
  by apply handles_ok_say.
Qed.

Lemma handles_ok_scanned games w :
  handles_ok w -> handles_ok (_fetchCardsAndPlay_scanned games w).
Proof.
  intros H. unfold _fetchCardsAndPlay_scanned.
  destruct games as [|g gs].
  - apply handles_ok_close. simpl. by apply handles_ok_say.
  - set (w2 := say DebugNextFetch _).
    assert (handles_ok w2) as H2
      by (apply handles_ok_say; by apply handles_ok_setTempProfilePrivacy).
    pose proof (handles_ok_arm_cycle CbDwell TIMEOUT_BETWEEN_CHECKS
                  (clearTimeout (_delayTimeout w2) w2)
                  (handles_ok_clearTimeout _ _ H2)
                  (no_cycle_after_clear w2 H2)) as H3.
    exact H3.
Qed.

Lemma handles_ok_fetchCardsAndPlay srv fuel w w' :
  handles_ok w -> _fetchCardsAndPlay srv fuel w = Some w' -> handles_ok w'.
Proof.
  intros H. unfold _fetchCardsAndPlay.
  destruct (getBadges srv fuel w) as [[[games|e] w1]|] eqn:E; [| |discriminate].
  - intros [= <-]. apply handles_ok_scanned.
    eapply handles_ok_untouched; [eapply untouched_getBadges; exact E | exact H].
  - intros [= <-]. apply handles_ok_say.
    eapply handles_ok_untouched; [eapply untouched_getBadges; exact E | exact H].
Qed.

Lemma find_timer_Some id w t :
  find_timer id w = Some t -> t ∈ timers w /\ t_id t = id.
Proof.
  unfold find_timer. intros H. apply List.find_some in H as [Hin Hid].
  split; [by apply list_elem_of_In | by apply Nat.eqb_eq].
Qed.

Lemma find_pending_Some id w p :
  find_pending id w = Some p -> p ∈ pending w /\ p_id p = id.
Proof.
  unfold find_pending. intros H. apply List.find_some in H as [Hin Hid].
  split; [by apply list_elem_of_In | by apply Nat.eqb_eq].
Qed.

Lemma handles_ok_webSession_cookies cookies :
  forall w, handles_ok w -> handles_ok (fold_left on_webSession_cookie cookies w).
Proof.
  induction cookies as [|c cs IH]; intros w H; simpl; [exact H|].
  apply IH. unfold on_webSession_cookie.
  destruct (includes "sessionid" c); revert H; by apply handles_ok_same.
Qed.

Lemma handles_ok_run_callback srv fuel t w w' :
  handles_ok w -> t ∈ timers w ->
  run_callback srv fuel (t_cb t) (clearTimeout (Some (t_id t)) w) = Some w' ->
  handles_ok w'.
Proof.
  intros H Ht.
  assert (handles_ok (clearTimeout (Some (t_id t)) w)) as Hf
    by by apply handles_ok_clearTimeout.
  assert (is_cycle t ->
          forall u, u ∈ timers (clearTimeout (Some (t_id t)) w) -> is_revert u)
    as Hnone.
  { intros Hc. rewrite <- (cycle_handle w H t Ht Hc).
    by apply no_cycle_after_clear. }
  destruct (t_cb t) eqn:Ecb; simpl.
  - intros [= <-]. by apply handles_ok_setTempProfilePrivacy.
  - intros [= <-].
    set (w1 := _quitIdleGames _).
    apply (handles_ok_arm_cycle CbRefetch 10000 w1).
    + subst w1. unfold _quitIdleGames. by do 2 apply handles_ok_say.
    + apply Hnone. unfold is_cycle. congruence.
  - by apply handles_ok_fetchCardsAndPlay.
Qed.

Lemma handles_ok_privacy_reply isPrivate games reply w :
  handles_ok w ->
  handles_ok (privacy_settled games
                (setTempProfilePrivacy_resume isPrivate reply w)).
Proof.
  intros H. unfold setTempProfilePrivacy_resume.
  destruct reply as [|sc success]; simpl; [by apply handles_ok_say|].
  destruct success; simpl; [|by do 2 apply handles_ok_say].
  assert (forall v, handles_ok v ->
            handles_ok (match games with
                        | Some gs =>
                            say (GamesPlayed (map appId gs))
                              (say (DebugNowIdling gs) v)
                        | None => v
                        end)) as Hk
    by (intros v Hv; destruct games; [by do 2 apply handles_ok_say | exact Hv]).
  destruct isPrivate; simpl; apply Hk.
  - apply (handles_ok_arm_revert 10000
             (say (DebugProfileNow true) w)).
    by apply handles_ok_say.
  - by apply handles_ok_say.
Qed.

Lemma handles_ok_handleOnLine tbl line w :
  handles_ok w -> handles_ok (_handleOnLine tbl line w).
Proof.
  intros H. unfold _handleOnLine.
  destruct (split_ws "" line) as [|cmd args]; [exact H|].
  destruct (String.eqb cmd "exit"); [by apply handles_ok_close|].
  destruct (String.eqb cmd "state"); [|exact H].
  destruct args as [|arg0 args]; [exact H|].
  destruct (str_truthy arg0); [|exact H].
  destruct (find_state tbl (normalise_state arg0)); [|exact H].
  by apply handles_ok_say.
Qed.

Lemma handles_ok_dispatch srv tbl fuel ev w w' :
  handles_ok w -> dispatch srv tbl fuel ev w = Some w' -> handles_ok w'.
Proof.
  intros H. destruct ev as [cookies| | |id|id reply|line|ms]; simpl.
  - destruct (webSession_once w); [|by intros [= <-]].
    apply handles_ok_fetchCardsAndPlay. do 2 apply handles_ok_say.
    apply handles_ok_webSession_cookies. revert H. by apply handles_ok_same.
  - by apply handles_ok_fetchCardsAndPlay.
  - intros [= <-]. by apply handles_ok_say.
  - destruct (find_timer id w) as [t|] eqn:F; [|by intros [= <-]].
    apply find_timer_Some in F as [Ht <-].
    destruct (t_due t <=? now w); [|by intros [= <-]].
    by apply handles_ok_run_callback.
  - destruct (find_pending id w) as [p|]; [|by intros [= <-]].
    intros [= <-]. apply handles_ok_privacy_reply.
    destruct H as [H1 H2 H3 H4]. constructor; simpl; try assumption.
    intros q Hq. apply list_elem_of_filter in Hq as [_ Hq]. auto.
  - intros [= <-]. by apply handles_ok_handleOnLine.
  - intros [= <-]. revert H. by apply handles_ok_same.
Qed.

Lemma handles_ok_run srv tbl fuel evs :
  forall w w',
    handles_ok w -> run srv tbl fuel evs w = Some w' -> handles_ok w'.
Proof.
  induction evs as [|ev evs IH]; intros w w' H; simpl.
  - by intros [= <-].
  - destruct (dispatch srv tbl fuel ev w) as [w1|] eqn:D; [|discriminate].
    apply IH. eapply handles_ok_dispatch; eassumption.
Qed.

Lemma at_most_one_with_handle (l : list timer) (P : timer -> Prop)
    `{forall t, Decision (P t)} (h : nat) :
  NoDup (t_id <$> l) ->
  (forall t, t ∈ l -> P t -> t_id t = h) ->
  (length (filter P l) <= 1)%nat.
Proof.
  induction l as [|x l IH]; simpl; [lia|].
  rewrite NoDup_cons. intros [Hx Hnd] Hh.
  rewrite filter_cons. destruct (decide (P x)) as [Px|].
  - assert (filter P l = []) as ->; [|simpl; lia].
    destruct (filter P l) as [|y ys] eqn:F; [reflexivity|].
    exfalso. apply Hx.
    assert (y ∈ filter P l) as Hy by (rewrite F; by left).
    apply list_elem_of_filter in Hy as [Py Hy].
    rewrite (Hh x ltac:(by left) Px), <- (Hh y ltac:(by right) Py).
    by apply list_elem_of_fmap_2.
  - apply IH; [exact Hnd|]. intros t Ht. apply Hh. by right.
Qed.

Lemma NoDup_fmap_eq {A B} (f : A -> B) (l : list A) x y :
  NoDup (f <$> l) -> x ∈ l -> y ∈ l -> f x = f y -> x = y.
Proof.
  induction l as [|z l IH]; simpl; [by intros _ Hx; apply elem_of_nil in Hx|].
  rewrite NoDup_cons. intros [Hz Hnd] Hx Hy E.
  apply elem_of_cons in Hx as [->|Hx]; apply elem_of_cons in Hy as [->|Hy].
  - reflexivity.
  - exfalso. apply Hz. rewrite E. by apply list_elem_of_fmap_2.
  - exfalso. apply Hz. rewrite <- E. by apply list_elem_of_fmap_2.
  - by apply IH.
Qed.

Lemma find_timer_live w t :
  handles_ok w -> t ∈ timers w -> find_timer (t_id t) w = Some t.
Proof.
  intros H Ht. unfold find_timer.
  destruct (List.find _ (timers w)) as [u|] eqn:F.
  - apply List.find_some in F as [Hu E].
    apply Nat.eqb_eq in E. apply list_elem_of_In in Hu.
    f_equal. eapply NoDup_fmap_eq; [apply (timers_nodup w H) | | | ]; eauto.
  - apply list_elem_of_In in Ht.
    apply (List.find_none _ _ F) in Ht. by rewrite Nat.eqb_refl in Ht.
Qed.

Lemma filter_ext_elem {A} (P Q : A -> Prop)
    `{forall x, Decision (P x)} `{forall x, Decision (Q x)} (l : list A) :
  (forall x, x ∈ l -> P x <-> Q x) -> filter P l = filter Q l.
Proof.
  induction l as [|x l IH]; intros Hl; [reflexivity|].
  rewrite !filter_cons.
  assert (filter P l = filter Q l) as ->
    by (apply IH; intros y Hy; apply Hl; by right).
  destruct (decide (P x)) as [Px|Px], (decide (Q x)) as [Qx|Qx];
    try reflexivity; exfalso.
  - apply Qx, Hl; [by left | exact Px].
  - apply Px, Hl; [by left | exact Qx].
Qed.

#[global] Instance timer_eq_dec : EqDecision timer.
Proof. solve_decision. Defined.

(** C8 (as amended). In every world that the event loop reaches from a new
    [CardFarmer], at most one cycle timer is live, and it is the one whose
    handle [_delayTimeout] holds. Running a due revert timer takes that
    timer out of the live timers and leaves all the others, pending revert
    timers included, as they are. *)
Theorem at_most_one_live_cycle_timer
    (srv : Server) (tbl : list (string * jsnum)) (fuel : nat)
    (evs : list event) (cn cp : option string) (pin : option jsnum)
    (sel : option (list jsnum)) (w : World) :
  run srv tbl fuel evs (new_CardFarmer cn cp pin sel) = Some w ->
  (length (filter is_cycle (timers w)) <= 1)%nat /\
  (forall t, t ∈ timers w -> is_cycle t -> _delayTimeout w = Some (t_id t)) /\
  (forall t, t ∈ timers w -> is_revert t -> t_due t <= now w ->
     exists w',
       dispatch srv tbl fuel (EvTimer (t_id t)) w = Some w' /\
       timers w' = filter (fun u => u <> t) (timers w)).
Proof.
  intros Hrun.
  pose proof (handles_ok_run srv tbl fuel evs _ _
                (handles_ok_new cn cp pin sel) Hrun) as H.
  split; [|split].
  - destruct (_delayTimeout w) as [h|] eqn:E.
    + apply (at_most_one_with_handle _ _ h); [apply (timers_nodup w H)|].
      intros t Ht Hc. pose proof (cycle_handle w H t Ht Hc). congruence.
    + assert (filter is_cycle (timers w) = []) as ->; [|simpl; lia].
      destruct (filter is_cycle (timers w)) as [|t ts] eqn:F; [reflexivity|].
      assert (t ∈ filter is_cycle (timers w)) as Ht by (rewrite F; by left).
      apply list_elem_of_filter in Ht as [Hc Ht].
      pose proof (cycle_handle w H t Ht Hc). congruence.
  - apply (cycle_handle w H).
  - intros t Ht Hr Hdue. simpl.
    rewrite (find_timer_live w t H Ht).
    apply Z.leb_le in Hdue. rewrite Hdue.
    unfold is_revert in Hr. rewrite Hr. simpl.
    eexists; split; [reflexivity|]. simpl.
    apply filter_ext_elem. intros u Hu. split.
    + intros Hne ->. by apply Hne.
    + intros Hne Hid. apply Hne.
      eapply NoDup_fmap_eq; [apply (timers_nodup w H) | | | ]; eauto.
Qed.

(** A service with one page and one game on it. *)
Definition one_game_service : Server :=
  {| srv_badges := fun _ _ _ => Resolved None one_game_page;
     srv_unlock := fun _ _ _ _ => Rejected |}.

Definition farmer : World := new_CardFarmer (Some "u") (Some "p") None None.

(** Two cycles in which the service takes more than fifteen minutes to
    answer the first visibility request: both answers arrive after the
    second cycle has begun. *)
Definition slow_replies : list event :=
  [ EvWebSession ["sessionid=abc"];
    EvTick 900000; EvTimer 1;
    EvTick 10000; EvTimer 2;
    EvPrivacyReply 0 (Resolved None true);
    EvPrivacyReply 3 (Resolved None true) ].

Lemma at_most_one_live_cycle_timer_witness :
  exists w,
    run one_game_service EPersonaState 5 slow_replies farmer = Some w /\
    (length (filter is_cycle (timers w)) <= 1)%nat.
Proof.
  eexists. split; [vm_compute; reflexivity|].
  eapply (at_most_one_live_cycle_timer one_game_service EPersonaState 5
            slow_replies (Some "u") (Some "p") None None).
  vm_compute. reflexivity.
Defined.

(** Against C8 as stated: the revert timer is armed without a look at the
    one armed before, so after [slow_replies] two revert timers are live;
    and when the first of them runs the revert, the second stays live. *)
Lemma two_revert_timers_live :
  exists w1 w2,
    run one_game_service EPersonaState 5 slow_replies farmer = Some w1 /\
    length (filter is_revert (timers w1)) = 2%nat /\
    run one_game_service EPersonaState 5 [EvTick 10000; EvTimer 5] w1
      = Some w2 /\
    length (filter is_revert (timers w2)) = 1%nat.
Proof.
  do 2 eexists.
  split; [vm_compute; reflexivity|].
  split; [vm_compute; reflexivity|].
  split; vm_compute; reflexivity.
Qed.

(* ===================================================================== *)
(** ** Activating                                                          *)
(* ===================================================================== *)



Lemma pending_clearTimeout h w : pending (clearTimeout h w) = pending w.
Proof. by destruct h. Qed.

Lemma effects_clearTimeout h w : effects (clearTimeout h w) = effects w.
Proof. by destruct h. Qed.


Lemma effects_scanned g gs w :
  effects (_fetchCardsAndPlay_scanned (g :: gs) w)
    = effects w ++
      [HttpPostPrivacy (_cookiesJar w) (_sessionId w) true; DebugNextFetch].
Proof.
  unfold _fetchCardsAndPlay_scanned, setTimeout.
  cbn [effects with_delayTimeout with_timers with_next_handle].
  rewrite effects_clearTimeout. cbn. by rewrite <- app_assoc.
Qed.


(** A page of forty badges with ids 1 to 40, one card left on each. *)
Definition forty_page : page :=
  {| pagelinks := 0;
     rows := map (fun i => {| drops_text := "1 card drop remaining";
                              overlay_appId := Some (JNum (Z.of_nat i));
                              title_text := "Game" |})
                 (seq 1 40) |}.

Definition forty_service : Server :=
  {| srv_badges := fun _ _ _ => Resolved None forty_page;
     srv_unlock := fun _ _ _ _ => Rejected |}.


(* ===================================================================== *)
(** ** Visibility                                                          *)
(* ===================================================================== *)

(** C7 (as amended). When the service answers a visibility request with no
    success, the session is logged off and the error is raised, whether the
    request was to enter the private state or to revert to the public one;
    nothing handles the error, and no timer is armed or cancelled. *)
Theorem failed_visibility_update_logs_off_both_ways
    (srv : Server) (tbl : list (string * jsnum)) (fuel : nat)
    (id : nat) (p : pending_privacy) (sc : option (list string)) (w : World) :
  find_pending id w = Some p ->
  exists w',
    dispatch srv tbl fuel (EvPrivacyReply id (Resolved sc false)) w = Some w' /\
    effects w' = effects w ++ [LogOff; UnhandledRejection ErrPrivacy] /\
    timers w' = timers w.
Proof.
  intros F. cbn [dispatch]. rewrite F.
  eexists. split; [reflexivity|].
  cbn.
  pose proof (untouched_refl
    (with_pending (filter (fun q => p_id q <> id) (pending w)) w)) as (Et & _).
  split; [by rewrite <- app_assoc | exact Et].
Qed.

(** One cycle up to the moment at which the revert timer has run and its
    request to the service is in flight. *)
Definition revert_in_flight : list event :=
  [ EvWebSession ["sessionid=abc"];
    EvPrivacyReply 0 (Resolved None true);
    EvTick 10000; EvTimer 2 ].

(** The world after [revert_in_flight]. *)
Definition revert_in_flight_world : World :=
  default farmer (run one_game_service EPersonaState 5 revert_in_flight farmer).

Lemma failed_visibility_update_logs_off_both_ways_witness :
  find_pending 3 revert_in_flight_world = Some (mkPending 3 false None) /\
  exists w',
    dispatch one_game_service EPersonaState 5
      (EvPrivacyReply 3 (Resolved None false)) revert_in_flight_world
      = Some w' /\
    effects w' =
      effects revert_in_flight_world ++ [LogOff; UnhandledRejection ErrPrivacy].
Proof.
  assert (find_pending 3 revert_in_flight_world = Some (mkPending 3 false None))
    as F by (vm_compute; reflexivity).
  split; [exact F|].
  destruct (failed_visibility_update_logs_off_both_ways
              one_game_service EPersonaState 5 3 _ None _ F)
    as (w' & Hd & He & _).
  exists w'. split; [exact Hd | exact He].
Defined.

(** Against C7 as stated: a revert to public that the service answers with
    no success logs the session off and raises the error. *)
Lemma failed_revert_logs_off :
  exists w,
    run one_game_service EPersonaState 5
      (revert_in_flight ++ [EvPrivacyReply 3 (Resolved None false)]) farmer
      = Some w /\
    last (effects w) = Some (UnhandledRejection ErrPrivacy) /\
    LogOff ∈ effects w.
Proof.
  eexists. split; [vm_compute; reflexivity|].
  split; [vm_compute; reflexivity|].
  apply list_elem_of_In. vm_compute. tauto.
Qed.

(* ===================================================================== *)
(** ** Shutting down                                                       *)
(* ===================================================================== *)

(** The number of requests to revert to the public state. *)
Fixpoint revert_requests (l : list effect) : nat :=
  match l with
  | [] => 0
  | HttpPostPrivacy _ _ false :: l' => S (revert_requests l')
  | _ :: l' => revert_requests l'
  end.

Lemma revert_requests_app l1 l2 :
  revert_requests (l1 ++ l2) = (revert_requests l1 + revert_requests l2)%nat.
Proof.
  induction l1 as [|e l1 IH]; simpl; [reflexivity|].
  destruct e; simpl; rewrite ?IH; try reflexivity.
  destruct isPrivate; simpl; rewrite ?IH; reflexivity.
Qed.

(** C6 (as amended). [close] cancels the two timers whose handles are held
    in [_delayTimeout] and [_privacyTimeout] and no other, closes the
    operator's input and logs the session off. It sends no request to the
    service: the visibility is left as it is, and a revert that was
    scheduled is cancelled with its timer. *)
Theorem close_cancels_held_timers_and_logs_off (w : World) :
  effects (close w) = effects w ++ [DebugExiting; ReadlineClose; LogOff] /\
  revert_requests (effects (close w)) = revert_requests (effects w) /\
  pending (close w) = pending w /\
  (forall t,
     t ∈ timers (close w) <->
     t ∈ timers w /\ _delayTimeout w <> Some (t_id t) /\
     _privacyTimeout w <> Some (t_id t)).
Proof.
  assert (effects (close w) = effects w ++ [DebugExiting; ReadlineClose; LogOff])
    as E.
  { unfold close. cbn. rewrite !effects_clearTimeout. cbn.
    by rewrite <- !app_assoc. }
  split; [exact E|]. split; [|split].
  - rewrite E, revert_requests_app. simpl. lia.
  - unfold close. cbn. by rewrite !pending_clearTimeout.
  - intros t. unfold close. cbn.
    assert (forall h v, _privacyTimeout (clearTimeout h v) = _privacyTimeout v)
      as Hp by (by intros []).
    rewrite Hp. cbn.
    destruct (_privacyTimeout w) as [hp|], (_delayTimeout w) as [hd|]; cbn;
      rewrite ?list_elem_of_filter; cbn; rewrite ?list_elem_of_filter;
      intuition congruence.
Qed.

(** Against C6 as stated: the operator types "exit" while the profile is
    private and the revert is scheduled. After [close] no request to revert
    has been sent, no timer is live and no request is in flight: nothing is
    left that could bring the visibility back to public. *)
Lemma close_leaves_profile_private :
  exists w,
    run one_game_service EPersonaState 5
      [ EvWebSession ["sessionid=abc"];
        EvPrivacyReply 0 (Resolved None true);
        EvLine "exit" ] farmer = Some w /\
    DebugProfileNow true ∈ effects w /\
    last (effects w) = Some LogOff /\
    revert_requests (effects w) = 0%nat /\
    timers w = [] /\ pending w = [].
Proof.
  eexists. split; [vm_compute; reflexivity|].
  split; [apply list_elem_of_In; vm_compute; tauto|].
  repeat split; vm_compute; reflexivity.
Qed.

(* ===================================================================== *)
(** ** Operator lines                                                      *)
(* ===================================================================== *)

(** C9. With the persona states of steam-user, ["state Online"] and
    ["state ONLINE"] select the state Online (1), but ["state online"]
    selects nothing: the first letter is compared as typed. *)
Theorem lowercase_state_name_selects_nothing (w : World) :
  _handleOnLine EPersonaState "state Online" w = say (SetPersona (JNum 1)) w /\
  _handleOnLine EPersonaState "state ONLINE" w = say (SetPersona (JNum 1)) w /\
  _handleOnLine EPersonaState "state online" w = w.
Proof. repeat split. Qed.

(* ===================================================================== *)
(** ** Pagination                                                          *)
(* ===================================================================== *)

(** A service that never rejects and whose badge pages depend on the page
    number only. *)
Definition static_site (site : nat -> page) : Server :=
  {| srv_badges := fun _ _ p => Resolved None (site p);
     srv_unlock := fun _ _ _ _ => Rejected |}.

(** The requests and log lines of reading the pages [ps] with the jar
    [jar]. *)
Definition page_reads (jar : list string) (ps : list nat) : list effect :=
  flat_map (fun p => [HttpGetBadges jar p; DebugReadingPage p]) ps.

Lemma read_rows_readable ug rs :
  forall acc,
    (forall r, r ∈ rs ->
       str_truthy (keep_digits (drops_text r)) = true ->
       overlay_appId r <> None) ->
    read_rows ug acc rs
      = Some (acc ++ filter (selected ug) (omap row_item rs)).
Proof.
  induction rs as [|r rs IH]; intros acc Hr; simpl.
  - by rewrite app_nil_r.
  - assert (read_row ug acc r
            = Some (acc ++ filter (selected ug) (option_list (row_item r))))
      as ->.
    { unfold read_row, row_item.
      destruct (str_truthy (keep_digits (drops_text r))) eqn:T; simpl;
        [|by rewrite app_nil_r].
      destruct (overlay_appId r) as [id|] eqn:Hid;
        [|by destruct (Hr r ltac:(by left) T)].
      simpl. set (g := {| appTitle := _ |}).
      destruct (user_picked ug id) eqn:P.
      - rewrite (filter_cons_True _ g []); [reflexivity|].
        by apply (user_picked_selected ug g).
      - rewrite (filter_cons_False _ g []); [by rewrite app_nil_r|].
        intros H. apply (user_picked_selected ug g) in H.
        simpl in H. congruence. }
    rewrite IH by (intros r' Hr'; apply Hr; by right).
    rewrite <- app_assoc. f_equal. f_equal.
    destruct (row_item r) as [g|]; [|reflexivity].
    rewrite <- filter_app. reflexivity.
Qed.

Lemma static_site_loop (site : nat -> page) (m : nat) :
  (forall p, (1 <= p < m)%nat -> (p <= pagelinks (site p))%nat) ->
  (pagelinks (site m) < m)%nat ->
  (forall p, (1 <= p <= m)%nat -> readable (site p)) ->
  forall k cur tot acc w,
    (cur + k = m)%nat -> (1 <= cur)%nat -> (cur <= tot)%nat ->
    exists w',
      getBadges_loop (static_site site) (k + 2) cur tot acc w
        = Some (Returned
                  (acc ++ filter (selected (_userGames w))
                            (discovered (map site (seq cur (S k))))), w') /\
      effects w' = effects w ++ page_reads (_cookiesJar w) (seq cur (S k)) /\
      _cookiesJar w' = _cookiesJar w.
Proof.
  intros Hmore Hlast Hread.
  induction k as [|k IH]; intros cur tot acc w Hk H1 Hle.
  - assert (cur = m) as -> by lia.
    apply Nat.leb_le in Hle.
    change (0 + 2)%nat with 2%nat. cbn [getBadges_loop]. rewrite Hle.
    unfold axios_get_badges. cbn [srv_badges static_site].
    cbn [_userGames say with_effects answered with_requests].
    rewrite (read_rows_readable _ _ acc (Hread m ltac:(lia))).
    assert ((S m <=? pagelinks (site m) + 1)%nat = false) as ->
      by (apply Nat.leb_gt; lia).
    eexists. split; [|split].
    + unfold discovered, page_items. simpl. rewrite app_nil_r. reflexivity.
    + cbn. rewrite <- app_assoc. reflexivity.
    + reflexivity.
  - apply Nat.leb_le in Hle.
    change (S k + 2)%nat with (S (k + 2)). cbn [getBadges_loop]. rewrite Hle.
    unfold axios_get_badges. cbn [srv_badges static_site].
    cbn [_userGames say with_effects answered with_requests].
    rewrite (read_rows_readable _ _ acc (Hread cur ltac:(lia))).
    set (w2 := say (DebugReadingPage cur) _).
    destruct (IH (S cur) (pagelinks (site cur) + 1)%nat
                (acc ++ filter (selected (_userGames w)) (omap row_item (rows (site cur))))
                w2) as (w' & E & He & Hj).
    + lia.
    + lia.
    + pose proof (Hmore cur ltac:(lia)). lia.
    + exists w'. split; [|split].
      * rewrite E. subst w2. cbn [_userGames say with_effects answered with_requests].
        f_equal. f_equal. rewrite <- app_assoc. f_equal.
        change (seq cur (S (S k))) with (cur :: seq (S cur) (S k)).
        unfold discovered. cbn [map flat_map]. rewrite filter_app.
        reflexivity.
      * rewrite He. subst w2. cbn. rewrite <- !app_assoc. reflexivity.
      * rewrite Hj. reflexivity.
Qed.

(** X1. On a service that serves every page, the scan reads the pages 1, 2,
    ... in this order and stops with the first page [m] that shows fewer
    than [m] page links (every page [p] before it shows at least [p]). It
    sends no other request and returns the selected items discovered on
    these [m] pages, in page order, provided every row with a digit in its
    drops text has an [href]. *)
Theorem getBadges_reads_pages_in_order
    (site : nat -> page) (m : nat) (w : World) :
  (1 <= m)%nat ->
  (forall p, (1 <= p < m)%nat -> (p <= pagelinks (site p))%nat) ->
  (pagelinks (site m) < m)%nat ->
  (forall p, (1 <= p <= m)%nat -> readable (site p)) ->
  exists w',
    getBadges (static_site site) (S m) w
      = Some (Returned
                (filter (selected (_userGames w))
                   (discovered (map site (seq 1 m)))), w') /\
    effects w' = effects w ++ page_reads (_cookiesJar w) (seq 1 m).
Proof.
  intros Hm Hmore Hlast Hread.
  destruct m as [|k]; [lia|].
  destruct (static_site_loop site (S k) Hmore Hlast Hread k 1%nat 1%nat [] w)
    as (w' & E & He & _); [lia | lia | lia |].
  exists w'. split; [|exact He].
  unfold getBadges. replace (S (S k)) with (k + 2)%nat by lia. exact E.
Qed.

(** A listing of three pages; every page shows two page links. *)
Definition three_pages (p : nat) : page :=
  {| pagelinks := 2;
     rows := [ {| drops_text := "2 card drops remaining";
                  overlay_appId := Some (JNum (Z.of_nat p));
                  title_text := "Game" |} ] |}.

Lemma getBadges_reads_pages_in_order_witness :
  exists w',
    getBadges (static_site three_pages) 4 farmer
      = Some (Returned
                [ {| appTitle := "Game"; appId := JNum 1; leftCards := 2 |};
                  {| appTitle := "Game"; appId := JNum 2; leftCards := 2 |};
                  {| appTitle := "Game"; appId := JNum 3; leftCards := 2 |} ],
              w') /\
    effects w' = page_reads [] [1; 2; 3]%nat.
Proof.
  destruct (getBadges_reads_pages_in_order three_pages 3 farmer)
    as (w' & E & He).
  - lia.
  - intros p Hp. simpl. lia.
  - simpl. lia.
  - intros p _ r Hr _. simpl in Hr.
    apply list_elem_of_singleton in Hr as ->. discriminate.
  - exists w'. split; [exact E | exact He].
Defined.

(* ===================================================================== *)
(** ** How the unlock and the scan end                                     *)
(* ===================================================================== *)

Lemma includes_nonempty needle c :
  str_truthy needle = true -> includes needle c = true -> str_truthy c = true.
Proof.
  destruct c; [|reflexivity]. destruct needle; [discriminate|].
  intros _ H. discriminate.
Qed.

(** X2. [parentalUnlock] returns normally exactly when the request is
    answered with success and with a [Set-Cookie] header that contains
    "steamparental"; it then returns the first such header. When the answer
    lacks either, the session is logged off and "wrong pin!" is thrown; a
    request that is rejected throws without logging off. *)
Theorem parentalUnlock_succeeds_iff_unlock_cookie
    (srv : Server) (pin : jsnum) (w : World) :
  let reply := srv_unlock srv (requests w) (_cookiesJar w) pin (_sessionId w) in
  let r := fst (parentalUnlock srv pin w) in
  let w' := snd (parentalUnlock srv pin w) in
  let post := HttpPostUnlock (_cookiesJar w) pin (_sessionId w) in
  (forall c,
     r = Returned c <->
     exists cookies,
       reply = Resolved (Some cookies) true /\
       List.find (includes "steamparental") cookies = Some c) /\
  (r = Thrown ErrRequest <-> reply = Rejected) /\
  (r = Thrown ErrWrongPin <-> effects w' = effects w ++ [post; LogOff]) /\
  (r = Thrown ErrWrongPin <->
   exists sc success,
     reply = Resolved sc success /\
     (success = false \/ sc = None \/
      exists cookies,
        sc = Some cookies /\
        List.find (includes "steamparental") cookies = None)).
Proof.
  intros reply r w' post.
  pose proof (parentalUnlock_effects srv pin w) as HE.
  subst reply r w' post. cbn zeta in HE.
  unfold parentalUnlock, axios_post_unlock in *.
  destruct (srv_unlock srv (requests w) (_cookiesJar w) pin (_sessionId w))
    as [|sc success]; cbn [fst snd] in *.
  { repeat split; try discriminate; try reflexivity.
    - intros (cookies & H & _). discriminate.
    - intros H. apply app_inv_head in H. discriminate.
    - intros (? & ? & H & _). discriminate. }
  destruct success, sc as [cookies|]; cbn [fst snd] in *.
  2-4: repeat split; try discriminate; try reflexivity; try (intros; exact HE);
       try (intros (cookies' & H & _); discriminate);
       try (intros _; do 2 eexists; split; [reflexivity|]; tauto).
  destruct (List.find (includes "steamparental") cookies) as [c|] eqn:F;
    cbn [fst snd] in *.
  - pose proof F as F'. apply List.find_some in F' as [_ Hinc].
    rewrite (includes_nonempty "steamparental" c eq_refl Hinc) in *.
    cbn [fst snd] in *.
    repeat split; try discriminate.
    + intros [= <-]. exists cookies. auto.
    + intros (cookies' & [= <-] & F'). congruence.
    + intros H. rewrite HE in H. apply app_inv_head in H. discriminate.
    + intros (sc & success & [= <- <-] & [H | [H | (cs & [= <-] & H)]]);
        congruence.
  - repeat split; try discriminate; try reflexivity; try (intros; exact HE).
    + intros (cookies' & [= <-] & F'). congruence.
    + intros _. exists (Some cookies), true. split; [reflexivity|].
      right. right. exists cookies. auto.
Qed.

(** The effects that a scan can have. *)
Definition scan_effect (e : effect) : Prop :=
  match e with
  | HttpGetBadges _ _ | HttpPostUnlock _ _ _ | DebugReadingPage _
  | DebugParentalWall | DebugBypassed | LogOff => True
  | _ => False
  end.

(** A scan went on from [w] to [w'] and ended with [r]: it added scan
    effects only, and a log-off among them exactly when "wrong pin!" was
    thrown. *)
Definition scan_added (w : World) (r : outcome (list GameTradingCards))
    (w' : World) : Prop :=
  exists added,
    effects w' = effects w ++ added /\
    Forall scan_effect added /\
    (LogOff ∈ added <-> r = Thrown ErrWrongPin).

Lemma scan_added_step w v r w' (pre : list effect) :
  effects v = effects w ++ pre ->
  Forall scan_effect pre -> LogOff ∉ pre ->
  scan_added v r w' -> scan_added w r w'.
Proof.
  intros Ev Hpre Hno (added & E & Hall & Hoff).
  exists (pre ++ added). split; [|split].
  - rewrite E, Ev. by rewrite <- app_assoc.
  - by apply Forall_app.
  - rewrite elem_of_app. tauto.
Qed.

Lemma scan_added_parental_wall srv again w r w' :
  (forall v r' v', again v = Some (r', v') -> scan_added v r' v') ->
  parental_wall srv again w = Some (r, w') -> scan_added w r w'.
Proof.
  intros Hagain. unfold parental_wall.
  destruct (negb _).
  - intros [= <- <-]. exists [DebugParentalWall]. split; [reflexivity|].
    split; [repeat constructor|]. split; [|discriminate].
    intros H. apply list_elem_of_singleton in H. discriminate.
  - pose proof (parentalUnlock_effects srv
                  (_parentalPin (say DebugParentalWall w))
                  (say DebugParentalWall w)) as HE.
    cbn zeta in HE.
    destruct (parentalUnlock _ _ _) as [[c|e] w2].
    + intros H. apply Hagain in H.
      eapply (scan_added_step w w2 r w'); [| | |exact H].
      * rewrite HE. cbn. rewrite <- app_assoc. reflexivity.
      * repeat constructor.
      * intros Hin. repeat (apply elem_of_cons in Hin as [Hin|Hin];
                             [discriminate|]).
        by apply elem_of_nil in Hin.
    + intros [= <- <-]. destruct e; try contradiction.
      * eexists. split; [rewrite HE; cbn; rewrite <- app_assoc; reflexivity|].
        split; [repeat constructor|]. split; [reflexivity|].
        intros _. do 2 right. by left.
      * eexists. split; [rewrite HE; cbn; rewrite <- app_assoc; reflexivity|].
        split; [repeat constructor|]. split; [|discriminate].
        intros Hin. repeat (apply elem_of_cons in Hin as [Hin|Hin];
                             [discriminate|]).
        by apply elem_of_nil in Hin.
Qed.

Lemma scan_added_loop srv fuel :
  forall cur tot acc w r w',
    getBadges_loop srv fuel cur tot acc w = Some (r, w') -> scan_added w r w'.
Proof.
  induction fuel as [|fuel IH]; intros cur tot acc w r w'; [discriminate|].
  cbn [getBadges_loop].
  destruct (cur <=? tot)%nat.
  2:{ intros [= <- <-]. exists []. rewrite app_nil_r.
      split; [reflexivity|]. split; [constructor|].
      split; [|discriminate]. intros H. by apply elem_of_nil in H. }
  assert (forall (pre : list effect) v,
            effects v = effects w ++ pre ->
            Forall scan_effect pre -> LogOff ∉ pre ->
            parental_wall srv (getBadges_loop srv fuel 1 1 []) v = Some (r, w') ->
            scan_added w r w') as Hwall.
  { intros pre v Ev Hpre Hno H.
    eapply scan_added_step; [exact Ev | exact Hpre | exact Hno |].
    eapply scan_added_parental_wall; [|exact H]. intros; eapply IH; eauto. }
  unfold axios_get_badges.
  destruct (srv_badges srv (requests w) (_cookiesJar w) cur) as [|sc pg].
  - apply (Hwall [HttpGetBadges (_cookiesJar w) cur]); [reflexivity| |].
    + repeat constructor.
    + intros H. apply list_elem_of_singleton in H. discriminate.
  - assert (effects (say (DebugReadingPage cur)
              (answered (say (HttpGetBadges (_cookiesJar w) cur) w)))
            = effects w ++ [HttpGetBadges (_cookiesJar w) cur;
                            DebugReadingPage cur]) as Ev.
    { cbn [effects say with_effects]. cbn.
      by rewrite <- app_assoc. }
    assert (LogOff ∉ [HttpGetBadges (_cookiesJar w) cur; DebugReadingPage cur])
      as Hno.
    { intros Hin. repeat (apply elem_of_cons in Hin as [Hin|Hin];
                           [discriminate|]).
      by apply elem_of_nil in Hin. }
    destruct (read_rows _ acc (rows pg)) as [games|].
    + intros H. apply IH in H.
      eapply scan_added_step; [exact Ev | repeat constructor | exact Hno | exact H].
    + apply (Hwall _ _ Ev); [repeat constructor | exact Hno].
Qed.

(** X3. A scan, however it ends, leaves the timers, the requests in
    flight, the handles, the selection, the PIN and the session id as they
    were; all it does is to fetch pages and to send unlock requests (with
    their log lines), and it logs the session off exactly when it ends with
    "wrong pin!". In particular it never calls [gamesPlayed]. *)
Theorem getBadges_only_reads_and_unlocks
    (srv : Server) (fuel : nat) (w w' : World)
    (r : outcome (list GameTradingCards)) :
  getBadges srv fuel w = Some (r, w') ->
  untouched w w' /\
  exists added,
    effects w' = effects w ++ added /\
    Forall scan_effect added /\
    (LogOff ∈ added <-> r = Thrown ErrWrongPin).
Proof.
  intros H. split.
  - eapply untouched_getBadges. exact H.
  - eapply scan_added_loop. exact H.
Qed.

(** A service that rejects every page and does not take the PIN. *)
Definition locked_service : Server :=
  {| srv_badges := fun _ _ _ => Rejected;
     srv_unlock := fun _ _ _ _ => Resolved None false |}.

Definition farmer_with_pin : World :=
  new_CardFarmer (Some "u") (Some "p") (Some (JNum 1234)) None.

Lemma getBadges_only_reads_and_unlocks_witness :
  exists w' added,
    getBadges locked_service 2 farmer_with_pin = Some (Thrown ErrWrongPin, w') /\
    effects w' = effects farmer_with_pin ++ added /\
    LogOff ∈ added.
Proof.
  edestruct (getBadges_only_reads_and_unlocks locked_service 2 farmer_with_pin)
    as (_ & added & E & _ & Hoff); [vm_compute; reflexivity|].
  do 2 eexists. split; [reflexivity|]. split; [exact E|].
  apply Hoff. reflexivity.
Defined.

(** X4. Without a PIN, a scan whose first page fetch is rejected ends at
    once with "parental pin not passed!": no unlock request is sent and the
    session is not logged off. *)
Theorem getBadges_without_pin_stops_at_wall
    (srv : Server) (fuel : nat) (w : World) :
  num_truthy (_parentalPin w) = false ->
  srv_badges srv (requests w) (_cookiesJar w) 1 = Rejected ->
  exists w',
    getBadges srv (S fuel) w = Some (Thrown ErrPinNotPassed, w') /\
    effects w' =
      effects w ++ [HttpGetBadges (_cookiesJar w) 1; DebugParentalWall].
Proof.
  intros Hpin Hrej. unfold getBadges. cbn [getBadges_loop Nat.leb].
  unfold axios_get_badges. rewrite Hrej. unfold parental_wall.
  cbn [_parentalPin say with_effects answered with_requests].
  rewrite Hpin. cbn [negb].
  eexists. split; [reflexivity|]. cbn. by rewrite <- app_assoc.
Qed.

Lemma getBadges_without_pin_stops_at_wall_witness :
  exists w',
    getBadges locked_service 1 farmer = Some (Thrown ErrPinNotPassed, w') /\
    effects w' = [HttpGetBadges [] 1; DebugParentalWall].
Proof.
  exact (getBadges_without_pin_stops_at_wall locked_service 0 farmer
           eq_refl eq_refl).
Defined.

Lemma read_rows_unreadable ug rs :
  forall acc,
    (exists r, r ∈ rs /\
       str_truthy (keep_digits (drops_text r)) = true /\
       overlay_appId r = None) ->
    read_rows ug acc rs = None.
Proof.
  induction rs as [|r rs IH]; intros acc (r0 & Hin & Hd & Hh).
  - by apply elem_of_nil in Hin.
  - simpl. apply elem_of_cons in Hin as [->|Hin].
    + unfold read_row. rewrite Hd, Hh. reflexivity.
    + destruct (read_row ug acc r); [|reflexivity].
      apply IH. eauto.
Qed.

(** X5. A page that is served but has a row with a digit in its drops text
    and no [href] on its overlay link is taken for the parental wall: the
    items read so far are dropped, and without a PIN the scan ends with
    "parental pin not passed!" although no request was rejected. *)
Theorem getBadges_takes_broken_row_for_wall
    (srv : Server) (fuel : nat) (w : World)
    (sc : option (list string)) (pg : page) (r : badge_row) :
  num_truthy (_parentalPin w) = false ->
  srv_badges srv (requests w) (_cookiesJar w) 1 = Resolved sc pg ->
  r ∈ rows pg ->
  str_truthy (keep_digits (drops_text r)) = true ->
  overlay_appId r = None ->
  exists w',
    getBadges srv (S fuel) w = Some (Thrown ErrPinNotPassed, w') /\
    effects w' =
      effects w ++ [HttpGetBadges (_cookiesJar w) 1; DebugReadingPage 1;
                    DebugParentalWall].
Proof.
  intros Hpin Hsrv Hin Hd Hh. unfold getBadges. cbn [getBadges_loop Nat.leb].
  unfold axios_get_badges. rewrite Hsrv.
  rewrite (read_rows_unreadable _ (rows pg) []) by eauto.
  unfold parental_wall.
  cbn [_parentalPin answered with_requests say with_effects].
  rewrite Hpin. cbn [negb].
  eexists. split; [reflexivity|].
  cbn [effects say with_effects]. cbn.
  by rewrite <- !app_assoc.
Qed.

Definition broken_page : page :=
  {| pagelinks := 0;
     rows := [ {| drops_text := "3 card drops remaining";
                  overlay_appId := Some (JNum 1); title_text := "One" |};
               {| drops_text := "2 card drops remaining";
                  overlay_appId := None; title_text := "Two" |} ] |}.

Lemma getBadges_takes_broken_row_for_wall_witness :
  exists w',
    getBadges (static_site (fun _ => broken_page)) 1 farmer
      = Some (Thrown ErrPinNotPassed, w') /\
    effects w' = [HttpGetBadges [] 1; DebugReadingPage 1; DebugParentalWall].
Proof.
  refine (getBadges_takes_broken_row_for_wall
            (static_site (fun _ => broken_page)) 0 farmer None broken_page
            {| drops_text := "2 card drops remaining";
               overlay_appId := None; title_text := "Two" |}
            eq_refl eq_refl _ eq_refl eq_refl).
  right. left.
Defined.

(* ===================================================================== *)
(** ** The cycle                                                           *)
(* ===================================================================== *)

(** The world [w] is reached by the event loop from a new [CardFarmer]. *)
Definition reachable (srv : Server) (tbl : list (string * jsnum))
    (fuel : nat) (w : World) : Prop :=
  exists cn cp pin sel evs,
    run srv tbl fuel evs (new_CardFarmer cn cp pin sel) = Some w.

Lemma reachable_handles_ok srv tbl fuel w :
  reachable srv tbl fuel w -> handles_ok w.
Proof.
  intros (cn & cp & pin & sel & evs & Hrun).
  eapply handles_ok_run; [apply handles_ok_new | exact Hrun].
Qed.

Lemma timers_close w t :
  t ∈ timers (close w) ->
  t ∈ timers (clearTimeout (_delayTimeout w) w).
Proof.
  unfold close. cbn [timers say with_effects].
  set (w2 := clearTimeout _ (say DebugExiting w)).
  intros Ht.
  assert (t ∈ timers w2) as Ht2.
  { destruct (_privacyTimeout w2); simpl in Ht; [|exact Ht].
    by apply list_elem_of_filter in Ht as [_ Ht]. }
  subst w2. cbn in Ht2. destruct (_delayTimeout w); exact Ht2.
Qed.

Lemma filter_filter_nil {A} (P Q : A -> Prop)
    `{!forall x, Decision (P x)} `{!forall x, Decision (Q x)} (l : list A) :
  filter P l = [] -> filter P (filter Q l) = [].
Proof.
  induction l as [|x l IH]; [done|]. intros Hl.
  destruct (decide (P x)) as [Hp|Hn].
  - rewrite filter_cons_True in Hl by done. discriminate.
  - rewrite filter_cons_False in Hl by done.
    destruct (decide (Q x)).
    + rewrite (filter_cons_True Q) by done.
      rewrite filter_cons_False by done. by apply IH.
    + rewrite (filter_cons_False Q) by done. by apply IH.
Qed.

(** The continuation of a scan that found something arms the dwell timer
    whatever happened while the scan was awaited: it reads no flag. *)
Lemma scanned_arms_dwell games v :
  games <> [] ->
  filter is_cycle (timers v) = [] ->
  filter is_cycle (timers (_fetchCardsAndPlay_scanned games v))
    = [mkTimer (S (next_handle v)) (now v + TIMEOUT_BETWEEN_CHECKS) CbDwell].
Proof.
  intros Hg Hv. destruct games as [|g gs]; [done|].
  unfold _fetchCardsAndPlay_scanned, _idleGames, setTempProfilePrivacy,
    setTimeout.
  cbn [_delayTimeout say with_effects with_pending with_next_handle].
  destruct (_delayTimeout v) as [id|]; cbn; rewrite filter_app.
  - rewrite (filter_filter_nil is_cycle _ (timers v) Hv). reflexivity.
  - rewrite Hv. reflexivity.
Qed.

(** X6. In a world that the event loop reaches, no cycle timer is live
    after [close], in particular after the operator line "exit". But
    [close] sets no flag and [_fetchCardsAndPlay] reads none after its
    [await]: the continuation of a scan that found something, run on the
    world that [close] left, arms the dwell timer again. *)
Theorem close_ends_the_cycle
    (srv : Server) (tbl : list (string * jsnum)) (fuel : nat) (w : World) :
  reachable srv tbl fuel w ->
  filter is_cycle (timers (close w)) = [] /\
  filter is_cycle (timers (_handleOnLine tbl "exit" w)) = [] /\
  (forall games,
     games <> [] ->
     filter is_cycle (timers (_fetchCardsAndPlay_scanned games (close w)))
       = [mkTimer (S (next_handle w)) (now w + TIMEOUT_BETWEEN_CHECKS) CbDwell]).
Proof.
  intros Hr. apply reachable_handles_ok in Hr.
  assert (filter is_cycle (timers (close w)) = []) as E.
  { destruct (filter is_cycle (timers (close w))) as [|t ts] eqn:F;
      [reflexivity|].
    assert (t ∈ filter is_cycle (timers (close w))) as Ht
      by (rewrite F; by left).
    apply list_elem_of_filter in Ht as [Hc Ht].
    apply timers_close in Ht.
    by destruct (Hc (no_cycle_after_clear w Hr t Ht)). }
  split; [exact E|]. split; [exact E|].
  intros games Hg.
  rewrite (scanned_arms_dwell games (close w) Hg E).
  assert (forall h v, next_handle (clearTimeout h v) = next_handle v) as Hn
    by (by intros [] v).
  assert (forall h v, now (clearTimeout h v) = now v) as Hw
    by (by intros [] v).
  assert (next_handle (close w) = next_handle w) as ->
    by (unfold close; cbn; by rewrite !Hn).
  assert (now (close w) = now w) as ->
    by (unfold close; cbn; by rewrite !Hw).
  reflexivity.
Qed.

Lemma close_ends_the_cycle_witness :
  exists w,
    run one_game_service EPersonaState 5 [EvWebSession ["sessionid=abc"]] farmer
      = Some w /\
    length (filter is_cycle (timers w)) = 1%nat /\
    filter is_cycle (timers (close w)) = [] /\
    length (filter is_cycle
              (timers (_fetchCardsAndPlay_scanned one_game (close w))))
      = 1%nat.
Proof.
  eexists. split; [vm_compute; reflexivity|].
  split; [vm_compute; reflexivity|].
  edestruct (close_ends_the_cycle one_game_service EPersonaState 5)
    as (E & _ & D).
  - exists (Some "u"), (Some "p"), None, None, [EvWebSession ["sessionid=abc"]].
    vm_compute. reflexivity.
  - split; [exact E|]. by rewrite (D one_game).
Defined.

(** X7. When a scan returns an empty list, [_fetchCardsAndPlay] sends no
    visibility request and calls [gamesPlayed] not at all: it logs that all
    games were idled and closes (timers cancelled, session logged off). *)
Theorem empty_scan_shuts_down
    (srv : Server) (fuel : nat) (w ws : World) :
  getBadges srv fuel w = Some (Returned [], ws) ->
  exists w',
    _fetchCardsAndPlay srv fuel w = Some w' /\
    effects w' =
      effects ws ++ [DebugAllIdled; DebugExiting; ReadlineClose; LogOff] /\
    pending w' = pending w /\
    (forall t, t ∈ timers w' -> t ∈ timers w) /\
    (forall t, t ∈ timers w' ->
       _delayTimeout w <> Some (t_id t) /\ _privacyTimeout w <> Some (t_id t)).
Proof.
  intros Hscan. unfold _fetchCardsAndPlay. rewrite Hscan.
  eexists. split; [reflexivity|].
  pose proof (untouched_getBadges srv fuel w _ ws Hscan)
    as (Et & Ep & _ & Ed & Epr & _).
  cbn [_fetchCardsAndPlay_scanned _idleGames].
  unfold close.
  cbn [effects pending timers say with_effects _delayTimeout _privacyTimeout].
  assert (forall h v, _privacyTimeout (clearTimeout h v) = _privacyTimeout v)
    as Hp by (by intros []).
  rewrite !effects_clearTimeout, !pending_clearTimeout, Hp.
  cbn [effects pending timers say with_effects _delayTimeout _privacyTimeout].
  rewrite Ed, Epr, Ep.
  split; [by rewrite <- !app_assoc|]. split; [reflexivity|].
  assert (forall t,
            t ∈ timers (clearTimeout (_privacyTimeout w)
                          (clearTimeout (_delayTimeout w)
                             (say DebugExiting (say DebugAllIdled ws)))) ->
            t ∈ timers w /\ _delayTimeout w <> Some (t_id t) /\
            _privacyTimeout w <> Some (t_id t)) as Ht.
  { intros t. destruct (_privacyTimeout w) as [hp|], (_delayTimeout w) as [hd|];
      cbn; rewrite ?list_elem_of_filter; cbn; rewrite ?list_elem_of_filter;
      rewrite Et; intuition congruence. }
  split; intros t H; apply Ht in H; tauto.
Qed.

(** A service whose badge page lists nothing. *)
Definition empty_service : Server :=
  {| srv_badges := fun _ _ _ => Resolved None {| pagelinks := 0; rows := [] |};
     srv_unlock := fun _ _ _ _ => Rejected |}.

Lemma empty_scan_shuts_down_witness :
  exists w',
    _fetchCardsAndPlay empty_service 2 farmer = Some w' /\
    effects w' =
      [HttpGetBadges [] 1; DebugReadingPage 1;
       DebugAllIdled; DebugExiting; ReadlineClose; LogOff].
Proof.
  edestruct (empty_scan_shuts_down empty_service 2 farmer)
    as (w' & E & He & _); [vm_compute; reflexivity|].
  exists w'. split; [exact E | exact He].
Defined.

(** X8. When the 10 s timer runs the scan and the scan throws, nothing
    handles the error and no timer is armed: in a world that the event loop
    reaches no cycle timer is live afterwards, so the farmer never scans
    again; the session is logged off only if the error is "wrong pin!". *)
Theorem failed_rescan_ends_the_cycle
    (srv : Server) (tbl : list (string * jsnum)) (fuel : nat)
    (w ws : World) (t : timer) (e : error) :
  reachable srv tbl fuel w ->
  t ∈ timers w -> t_cb t = CbRefetch -> t_due t <= now w ->
  getBadges srv fuel (clearTimeout (Some (t_id t)) w) = Some (Thrown e, ws) ->
  exists w',
    dispatch srv tbl fuel (EvTimer (t_id t)) w = Some w' /\
    effects w' = effects ws ++ [UnhandledRejection e] /\
    filter is_cycle (timers w') = [] /\
    pending w' = pending w /\
    (LogOff ∈ drop (length (effects w)) (effects w') <-> e = ErrWrongPin).
Proof.
  intros Hr Ht Hcb Hdue Hscan. apply reachable_handles_ok in Hr.
  cbn [dispatch]. rewrite (find_timer_live w t Hr Ht).
  apply Z.leb_le in Hdue. rewrite Hdue, Hcb.
  cbn [run_callback]. unfold _fetchCardsAndPlay. rewrite Hscan.
  eexists. split; [reflexivity|]. split; [reflexivity|].
  pose proof (untouched_getBadges _ _ _ _ _ Hscan) as (Et & Ep & _).
  pose proof (scan_added_loop _ _ _ _ _ _ _ _ Hscan)
    as (added & Ea & _ & Hoff).
  cbn [effects timers pending say with_effects].
  split; [|split].
  - rewrite Et.
    assert (_delayTimeout w = Some (t_id t)) as Ed
      by (apply (cycle_handle w Hr t Ht); unfold is_cycle; congruence).
    destruct (filter is_cycle (timers (clearTimeout (Some (t_id t)) w)))
      as [|u us] eqn:F; [reflexivity|].
    assert (u ∈ filter is_cycle (timers (clearTimeout (Some (t_id t)) w)))
      as Hu by (rewrite F; by left).
    apply list_elem_of_filter in Hu as [Hc Hu].
    rewrite <- Ed in Hu.
    by destruct (Hc (no_cycle_after_clear w Hr u Hu)).
  - rewrite Ep. reflexivity.
  - rewrite Ea. cbn [effects clearTimeout with_timers].
    rewrite <- app_assoc, drop_app_length.
    rewrite elem_of_app, list_elem_of_singleton, Hoff.
    split; [intros [H|H]; [inversion H; reflexivity | discriminate]|].
    intros ->. by left.
Qed.

(** A service that serves the first page fetch and rejects the later ones. *)
Definition flaky_service : Server :=
  {| srv_badges := fun k _ _ =>
       match k with O => Resolved None one_game_page | S _ => Rejected end;
     srv_unlock := fun _ _ _ _ => Rejected |}.

(** One cycle on [flaky_service], up to the moment at which the 10 s timer
    is due. *)
Definition before_rescan : list event :=
  [ EvWebSession ["sessionid=abc"];
    EvPrivacyReply 0 (Resolved None true);
    EvTick 900000; EvTimer 1; EvTick 10000 ].

Definition before_rescan_world : World :=
  default farmer (run flaky_service EPersonaState 5 before_rescan farmer).

Lemma failed_rescan_ends_the_cycle_witness :
  exists w',
    dispatch flaky_service EPersonaState 5 (EvTimer 3) before_rescan_world
      = Some w' /\
    last (effects w') = Some (UnhandledRejection ErrPinNotPassed) /\
    filter is_cycle (timers w') = [].
Proof.
  edestruct (failed_rescan_ends_the_cycle flaky_service EPersonaState 5
               before_rescan_world)
    with (t := {| t_id := 3; t_due := 910000; t_cb := CbRefetch |})
         (e := ErrPinNotPassed)
    as (w' & Hd & He & Hc & _).
  - exists (Some "u"), (Some "p"), None, None, before_rescan.
    vm_compute. reflexivity.
  - apply list_elem_of_In. vm_compute. tauto.
  - reflexivity.
  - vm_compute. discriminate.
  - vm_compute. reflexivity.
  - exists w'. split; [exact Hd|]. split; [|exact Hc].
    rewrite He. apply last_snoc.
Defined.

(* ===================================================================== *)
(** ** The games that are played                                           *)
(* ===================================================================== *)

(** An effect that is no [gamesPlayed] call with more than 27 ids. *)
Definition plays_at_most_27 (e : effect) : Prop :=
  match e with
  | GamesPlayed apps => (length apps <= MAX_GAMES_TO_IDLE)%nat
  | _ => True
  end.

(** A visibility request that waits on behalf of at most 27 games. *)
Definition waits_for_at_most_27 (p : pending_privacy) : Prop :=
  match p_games p with
  | Some gs => (length gs <= MAX_GAMES_TO_IDLE)%nat
  | None => True
  end.

Definition played_ok (w : World) : Prop :=
  Forall plays_at_most_27 (effects w) /\
  Forall waits_for_at_most_27 (pending w).

Lemma played_ok_same w w' :
  effects w' = effects w -> pending w' = pending w ->
  played_ok w -> played_ok w'.
Proof. unfold played_ok. intros -> ->. tauto. Qed.

Lemma played_ok_say e w :
  plays_at_most_27 e -> played_ok w -> played_ok (say e w).
Proof.
  intros He [H1 H2]. split; [|exact H2].
  cbn. apply Forall_app. split; [exact H1 | by repeat constructor].
Qed.

Lemma scan_effect_plays e : scan_effect e -> plays_at_most_27 e.
Proof. by destruct e. Qed.

Lemma played_ok_getBadges srv fuel w r w' :
  getBadges srv fuel w = Some (r, w') -> played_ok w -> played_ok w'.
Proof.
  intros H [H1 H2].
  pose proof (untouched_getBadges _ _ _ _ _ H) as (_ & Ep & _).
  pose proof (scan_added_loop _ _ _ _ _ _ _ _ H) as (added & Ea & Hall & _).
  split; [|by rewrite Ep].
  rewrite Ea. apply Forall_app. split; [exact H1|].
  eapply Forall_impl; [exact Hall | apply scan_effect_plays].
Qed.

Lemma played_ok_clearTimeout h w : played_ok w -> played_ok (clearTimeout h w).
Proof.
  apply played_ok_same;
    [apply effects_clearTimeout | apply pending_clearTimeout].
Qed.

Lemma played_ok_close w : played_ok w -> played_ok (close w).
Proof.
  intros H. unfold close.
  do 2 (apply played_ok_say; [exact I|]).
  do 2 apply played_ok_clearTimeout.
  by apply played_ok_say.
Qed.

Lemma played_ok_setTempProfilePrivacy b games w :
  match games with
  | Some gs => (length gs <= MAX_GAMES_TO_IDLE)%nat
  | None => True
  end ->
  played_ok w -> played_ok (setTempProfilePrivacy b games w).
Proof.
  intros Hg [H1 H2]. split; cbn.
  - apply Forall_app. split; [exact H1 | by repeat constructor].
  - apply Forall_app. split; [exact H2 | by repeat constructor].
Qed.

Lemma played_ok_scanned games w :
  played_ok w -> played_ok (_fetchCardsAndPlay_scanned games w).
Proof.
  intros H. unfold _fetchCardsAndPlay_scanned.
  destruct games as [|g gs].
  - apply played_ok_close. cbn. by apply played_ok_say.
  - set (w1 := _idleGames _ w).
    assert (played_ok (say DebugNextFetch w1)) as H2.
    { apply played_ok_say; [exact I|]. subst w1.
      apply (played_ok_setTempProfilePrivacy true
               (Some (take MAX_GAMES_TO_IDLE (g :: gs)))); [|exact H].
      rewrite length_take. lia. }
    apply (played_ok_clearTimeout
             (_delayTimeout (say DebugNextFetch w1))) in H2.
    revert H2. unfold setTimeout. apply played_ok_same; reflexivity.
Qed.

Lemma played_ok_fetchCardsAndPlay srv fuel w w' :
  played_ok w -> _fetchCardsAndPlay srv fuel w = Some w' -> played_ok w'.
Proof.
  intros H. unfold _fetchCardsAndPlay.
  destruct (getBadges srv fuel w) as [[[games|e] w1]|] eqn:E; [| |discriminate].
  - intros [= <-]. apply played_ok_scanned.
    eapply played_ok_getBadges; eassumption.
  - intros [= <-]. apply played_ok_say; [exact I|].
    eapply played_ok_getBadges; eassumption.
Qed.

Lemma played_ok_webSession_cookies cookies :
  forall w, played_ok w -> played_ok (fold_left on_webSession_cookie cookies w).
Proof.
  induction cookies as [|c cs IH]; intros w H; simpl; [exact H|].
  apply IH. unfold on_webSession_cookie.
  destruct (includes "sessionid" c); revert H; by apply played_ok_same.
Qed.

Lemma played_ok_handleOnLine tbl line w :
  played_ok w -> played_ok (_handleOnLine tbl line w).
Proof.
  intros H. unfold _handleOnLine.
  destruct (split_ws "" line) as [|cmd args]; [exact H|].
  destruct (String.eqb cmd "exit"); [by apply played_ok_close|].
  destruct (String.eqb cmd "state"); [|exact H].
  destruct args as [|arg0 args]; [exact H|].
  destruct (str_truthy arg0); [|exact H].
  destruct (find_state tbl (normalise_state arg0)); [|exact H].
  by apply played_ok_say.
Qed.

Lemma played_ok_dispatch srv tbl fuel ev w w' :
  played_ok w -> dispatch srv tbl fuel ev w = Some w' -> played_ok w'.
Proof.
  intros H. destruct ev as [cookies| | |id|id reply|line|ms]; simpl.
  - destruct (webSession_once w); [|by intros [= <-]].
    apply played_ok_fetchCardsAndPlay.
    do 2 (apply played_ok_say; [exact I|]).
    apply played_ok_webSession_cookies. revert H. by apply played_ok_same.
  - by apply played_ok_fetchCardsAndPlay.
  - intros [= <-]. apply played_ok_say; [cbn; lia | exact H].
  - destruct (find_timer id w) as [t|]; [|by intros [= <-]].
    destruct (t_due t <=? now w); [|by intros [= <-]].
    assert (played_ok (clearTimeout (Some id) w)) as Hc
      by by apply played_ok_clearTimeout.
    destruct (t_cb t); simpl.
    + intros [= <-]. by apply played_ok_setTempProfilePrivacy.
    + intros [= <-].
      assert (played_ok (_quitIdleGames (say DebugQuitDelay
                (clearTimeout (Some id) w)))) as Hq.
      { unfold _quitIdleGames. apply played_ok_say; [cbn; lia|].
        by apply played_ok_say. }
      revert Hq. unfold setTimeout. apply played_ok_same; reflexivity.
    + by apply played_ok_fetchCardsAndPlay.
  - destruct (find_pending id w) as [p|] eqn:F; [|by intros [= <-]].
    intros [= <-].
    apply find_pending_Some in F as [Hp _].
    destruct H as [H1 H2].
    assert (waits_for_at_most_27 p) as Hw
      by (rewrite Forall_forall in H2; by apply H2).
    set (w1 := with_pending _ w).
    assert (played_ok w1) as Hw1.
    { split; [exact H1|]. subst w1. cbn.
      apply Forall_forall. intros q Hq.
      apply list_elem_of_filter in Hq as [_ Hq].
      rewrite Forall_forall in H2. by apply H2. }
    unfold setTempProfilePrivacy_resume.
    destruct reply as [|sc success]; simpl;
      [by apply played_ok_say|].
    assert (played_ok w1) as Hs.
    { revert Hw1. apply played_ok_same;
        [reflexivity | apply untouched_refl]. }
    destruct success; simpl;
      [|do 2 (apply played_ok_say; [exact I|]); exact Hs].
    assert (forall v, played_ok v ->
              played_ok (match p_games p with
                         | Some gs =>
                             say (GamesPlayed (map appId gs))
                               (say (DebugNowIdling gs) v)
                         | None => v
                         end)) as Hk.
    { intros v Hv. unfold waits_for_at_most_27 in Hw.
      destruct (p_games p) as [gs|]; [|exact Hv].
      apply played_ok_say; [cbn; by rewrite length_map|].
      by apply played_ok_say. }
    destruct (p_private p); simpl; apply Hk.
    + assert (played_ok (say (DebugProfileNow true) w1))
        as Hq by by apply played_ok_say.
      revert Hq. unfold setTimeout. apply played_ok_same; reflexivity.
    + by apply played_ok_say.
  - intros [= <-]. by apply played_ok_handleOnLine.
  - intros [= <-]. revert H. by apply played_ok_same.
Qed.

Lemma played_ok_run srv tbl fuel evs :
  forall w w',
    played_ok w -> run srv tbl fuel evs w = Some w' -> played_ok w'.
Proof.
  induction evs as [|ev evs IH]; intros w w' H; simpl.
  - by intros [= <-].
  - destruct (dispatch srv tbl fuel ev w) as [w1|] eqn:D; [|discriminate].
    apply IH. eapply played_ok_dispatch; eassumption.
Qed.

(** X9. In every world that the event loop reaches, every call of
    [gamesPlayed] that has been made passed at most 27 application ids. *)
Theorem gamesPlayed_never_exceeds_27
    (srv : Server) (tbl : list (string * jsnum)) (fuel : nat) (w : World)
    (apps : list jsnum) :
  reachable srv tbl fuel w ->
  GamesPlayed apps ∈ effects w ->
  (length apps <= 27)%nat.
Proof.
  intros (cn & cp & pin & sel & evs & Hrun) Hin.
  assert (played_ok w) as [H _].
  { eapply played_ok_run; [|exact Hrun]. split; constructor. }
  rewrite Forall_forall in H. exact (H _ Hin).
Qed.

(** The world after one cycle on [forty_service] in which the visibility
    request was accepted. *)
Definition forty_played_world : World :=
  default farmer
    (run forty_service EPersonaState 3
       [EvWebSession ["sessionid=abc"]; EvPrivacyReply 0 (Resolved None true)]
       farmer).

Lemma gamesPlayed_never_exceeds_27_witness :
  GamesPlayed (map (fun i => JNum (Z.of_nat i)) (seq 1 27))
    ∈ effects forty_played_world /\
  (length (map (fun i => JNum (Z.of_nat i)) (seq 1 27)) <= 27)%nat.
Proof.
  assert (GamesPlayed (map (fun i => JNum (Z.of_nat i)) (seq 1 27))
            ∈ effects forty_played_world) as Hin.
  { apply list_elem_of_In. vm_compute. tauto. }
  split; [exact Hin|].
  apply (gamesPlayed_never_exceeds_27 forty_service EPersonaState 3
           forty_played_world); [|exact Hin].
  exists (Some "u"), (Some "p"), None, None,
    [EvWebSession ["sessionid=abc"]; EvPrivacyReply 0 (Resolved None true)].
  vm_compute. reflexivity.
Defined.

(* ===================================================================== *)
(** ** The revert                                                          *)
(* ===================================================================== *)

Lemma timers_privacy_settled games isPrivate sc w :
  timers (privacy_settled games
            (setTempProfilePrivacy_resume isPrivate (Resolved sc true) w))
  = if isPrivate
    then timers w ++ [mkTimer (next_handle w) (now w + 10000) CbRevert]
    else timers w.
Proof.
  unfold setTempProfilePrivacy_resume. cbn [negb].
  destruct isPrivate, games; reflexivity.
Qed.

Lemma effects_privacy_settled isPrivate sc w :
  effects (privacy_settled None
             (setTempProfilePrivacy_resume isPrivate (Resolved sc true) w))
  = effects w ++ [DebugProfileNow isPrivate].
Proof.
  unfold setTempProfilePrivacy_resume. cbn [negb].
  destruct isPrivate; cbn; reflexivity.
Qed.

(** X10. In a world that the event loop reaches, when the service accepts
    the request to enter the private state, the revert timer is armed, due
    10 s later, and its handle is kept in [_privacyTimeout]; when that
    timer is run, 10 s later or more, the request to revert to the public
    state is sent, with the session id and the cookies of that moment, and
    nobody waits for its answer. *)
Theorem revert_is_requested_after_private
    (srv : Server) (tbl : list (string * jsnum)) (fuel : nat)
    (w : World) (id : nat) (p : pending_privacy)
    (sc : option (list string)) (ms : Z) :
  reachable srv tbl fuel w ->
  find_pending id w = Some p ->
  p_private p = true ->
  10000 <= ms ->
  exists w1 w3,
    dispatch srv tbl fuel (EvPrivacyReply id (Resolved sc true)) w = Some w1 /\
    timers w1 = timers w ++ [mkTimer (next_handle w) (now w + 10000) CbRevert] /\
    _privacyTimeout w1 = Some (next_handle w) /\
    run srv tbl fuel [EvTick ms; EvTimer (next_handle w)] w1 = Some w3 /\
    effects w3 =
      effects w1 ++ [HttpPostPrivacy (_cookiesJar w1) (_sessionId w1) false] /\
    pending w3 = pending w1 ++ [mkPending (next_handle w1) false None].
Proof.
  intros Hr F Hp Hms. apply reachable_handles_ok in Hr.
  destruct (dispatch srv tbl fuel (EvPrivacyReply id (Resolved sc true)) w)
    as [w1|] eqn:D; [|cbn in D; rewrite F in D; discriminate].
  pose proof (handles_ok_dispatch _ _ _ _ _ _ Hr D) as H1.
  cbn [dispatch] in D. rewrite F, Hp in D.
  set (W := with_pending (filter (fun q => p_id q <> id) (pending w)) w) in D.
  assert (privacy_settled (p_games p)
            (setTempProfilePrivacy_resume true (Resolved sc true) W) = w1)
    as D' by congruence.
  clear D. rename D' into D.
  assert (timers w1
          = timers w ++ [mkTimer (next_handle w) (now w + 10000) CbRevert])
    as Et.
  { rewrite <- D. apply (timers_privacy_settled (p_games p) true sc W). }
  assert (now w1 = now w) as En.
  { rewrite <- D. unfold setTempProfilePrivacy_resume. cbn [negb].
    destruct (p_games p); reflexivity. }
  assert (_privacyTimeout w1 = Some (next_handle w)) as Ep.
  { rewrite <- D. unfold setTempProfilePrivacy_resume. cbn [negb].
    destruct (p_games p); reflexivity. }
  exists w1. eexists. split; [reflexivity|]. split; [exact Et|].
  split; [exact Ep|].
  set (t := mkTimer (next_handle w) (now w + 10000) CbRevert) in *.
  set (w2 := with_now (now w1 + Z.max 0 ms) w1).
  assert (handles_ok w2) as H2 by (revert H1; by apply handles_ok_same).
  assert (t ∈ timers w2) as Ht
    by (subst w2; cbn; rewrite Et; apply elem_of_app; right; by left).
  cbn [run dispatch]. fold w2.
  change (next_handle w) with (t_id t).
  rewrite (find_timer_live w2 t H2 Ht).
  assert ((t_due t <=? now w2) = true) as -> by (apply Z.leb_le; cbn; lia).
  cbn [t_cb t run_callback].
  split; [reflexivity|]. split; reflexivity.
Qed.

(** The world in which the first visibility request is in flight. *)
Definition private_in_flight_world : World :=
  default farmer
    (run one_game_service EPersonaState 5 [EvWebSession ["sessionid=abc"]]
       farmer).

Lemma revert_is_requested_after_private_witness :
  exists w3,
    run one_game_service EPersonaState 5
      [EvPrivacyReply 0 (Resolved None true); EvTick 10000; EvTimer 2]
      private_in_flight_world = Some w3 /\
    last (effects w3) = Some (HttpPostPrivacy ["sessionid=abc"] "abc" false).
Proof.
  edestruct (revert_is_requested_after_private one_game_service EPersonaState 5
               private_in_flight_world 0
               (mkPending 0 true (Some one_game)) None 10000)
    as (w1 & w3 & Hd & _ & _ & Hrun & He & _).
  - exists (Some "u"), (Some "p"), None, None, [EvWebSession ["sessionid=abc"]].
    vm_compute. reflexivity.
  - vm_compute. reflexivity.
  - reflexivity.
  - lia.
  - exists w3. split.
    + cbn [run]. rewrite Hd. exact Hrun.
    + rewrite He, last_snoc.
      assert (w1 = default farmer
                (dispatch one_game_service EPersonaState 5
                   (EvPrivacyReply 0 (Resolved None true))
                   private_in_flight_world)) as ->
        by (rewrite Hd; reflexivity).
      vm_compute. reflexivity.
Defined.

(* ===================================================================== *)
(** ** Dwell, cool-down, next scan                                         *)
(* ===================================================================== *)

Lemma timers_scanned g gs w :
  timers (_fetchCardsAndPlay_scanned (g :: gs) w)
  = timers (clearTimeout (_delayTimeout w) w)
    ++ [mkTimer (S (next_handle w)) (now w + TIMEOUT_BETWEEN_CHECKS) CbDwell].
Proof.
  unfold _fetchCardsAndPlay_scanned, setTimeout.
  change (_delayTimeout (say DebugNextFetch
            (_idleGames (Some (take MAX_GAMES_TO_IDLE (g :: gs))) w)))
    with (_delayTimeout w).
  destruct (_delayTimeout w); reflexivity.
Qed.

Lemma now_scanned g gs w : now (_fetchCardsAndPlay_scanned (g :: gs) w) = now w.
Proof.
  unfold _fetchCardsAndPlay_scanned, setTimeout.
  change (_delayTimeout (say DebugNextFetch
            (_idleGames (Some (take MAX_GAMES_TO_IDLE (g :: gs))) w)))
    with (_delayTimeout w).
  destruct (_delayTimeout w); reflexivity.
Qed.

Lemma next_handle_scanned g gs w :
  next_handle (_fetchCardsAndPlay_scanned (g :: gs) w) = S (S (next_handle w)).
Proof.
  unfold _fetchCardsAndPlay_scanned, setTimeout.
  change (_delayTimeout (say DebugNextFetch
            (_idleGames (Some (take MAX_GAMES_TO_IDLE (g :: gs))) w)))
    with (_delayTimeout w).
  destruct (_delayTimeout w); reflexivity.
Qed.

(** From the armed dwell timer to the next scan. *)
Lemma cycle_from_dwell srv tbl fuel (w1 : World) (d : nat) (ms1 ms2 : Z) :
  handles_ok w1 ->
  mkTimer d (now w1 + 900000) CbDwell ∈ timers w1 ->
  next_handle w1 = S d ->
  900000 <= ms1 -> 10000 <= ms2 ->
  exists w2 w3,
    find_timer d w1 = Some (mkTimer d (now w1 + 900000) CbDwell) /\
    run srv tbl fuel [EvTick ms1; EvTimer d] w1 = Some w2 /\
    effects w2 = effects w1 ++ [DebugQuitDelay; GamesPlayed []] /\
    find_timer (S d) w2
      = Some (mkTimer (S d) (now w1 + ms1 + 10000) CbRefetch) /\
    _delayTimeout w2 = Some (S d) /\
    dispatch srv tbl fuel (EvTick ms2) w2 = Some w3 /\
    dispatch srv tbl fuel (EvTimer (S d)) w3
      = _fetchCardsAndPlay srv fuel (clearTimeout (Some (S d)) w3).
Proof.
  intros H1 Htd En1 Hms1 Hms2.
  set (td := mkTimer d (now w1 + 900000) CbDwell) in *.
  set (w1' := with_now (now w1 + Z.max 0 ms1) w1).
  assert (handles_ok w1') as H1'
    by (revert H1; apply handles_ok_same; reflexivity).
  set (tc := mkTimer (S d) (now w1 + ms1 + 10000) CbRefetch).
  set (w2 := with_delayTimeout (Some (S d))
               (with_timers
                  (timers (clearTimeout (Some (t_id td)) w1') ++ [tc])
                  (with_next_handle (S (S d))
                     (_quitIdleGames (say DebugQuitDelay
                        (clearTimeout (Some (t_id td)) w1')))))).
  assert (run srv tbl fuel [EvTick ms1; EvTimer d] w1 = Some w2) as R.
  { cbn [run dispatch]. fold w1'. change d with (t_id td).
    rewrite (find_timer_live w1' td H1' Htd).
    assert ((t_due td <=? now w1') = true) as ->
      by (apply Z.leb_le; cbn; lia).
    cbn [t_cb td run_callback]. unfold setTimeout.
    cbn [next_handle now clearTimeout with_timers _quitIdleGames say
         with_effects timers w1' with_now].
    rewrite En1.
    replace (now w1 + Z.max 0 ms1 + 10000) with (now w1 + ms1 + 10000) by lia.
    reflexivity. }
  pose proof (handles_ok_run _ _ _ _ _ _ H1 R) as H2.
  assert (tc ∈ timers w2) as Htc
    by (cbn [timers w2 with_delayTimeout with_timers];
        apply elem_of_app; right; by left).
  exists w2. eexists.
  split; [change d with (t_id td); by apply find_timer_live|].
  split; [exact R|].
  split; [cbn; by rewrite <- app_assoc|].
  split; [change (S d) with (t_id tc); by apply find_timer_live|].
  split; [reflexivity|].
  split; [reflexivity|].
  set (w3 := with_now (now w2 + Z.max 0 ms2) w2).
  assert (handles_ok w3) as H3
    by (revert H2; apply handles_ok_same; reflexivity).
  cbn [dispatch]. change (S d) with (t_id tc).
  rewrite (find_timer_live w3 tc H3 Htc).
  assert ((t_due tc <=? now w3) = true) as ->
    by (apply Z.leb_le; cbn; lia).
  reflexivity.
Qed.

(** X11. In a world that the event loop reaches, after a scan that found
    games the dwell timer is armed for 15 min later. When it is run (15 min
    later or more) [gamesPlayed([])] quits the games and the 10 s timer is
    armed; when that one is run (10 s later or more) [_fetchCardsAndPlay]
    starts the next scan. *)
Theorem dwell_then_cooldown_then_rescan
    (srv : Server) (tbl : list (string * jsnum)) (fuel : nat)
    (w ws : World) (games : list GameTradingCards) (ms1 ms2 : Z) :
  reachable srv tbl fuel w ->
  getBadges srv fuel w = Some (Returned games, ws) ->
  games <> [] ->
  900000 <= ms1 -> 10000 <= ms2 ->
  exists w1 w2 w3,
    w1 = _fetchCardsAndPlay_scanned games ws /\
    find_timer (S (next_handle w)) w1
      = Some (mkTimer (S (next_handle w)) (now w + 900000) CbDwell) /\
    run srv tbl fuel [EvTick ms1; EvTimer (S (next_handle w))] w1 = Some w2 /\
    effects w2 = effects w1 ++ [DebugQuitDelay; GamesPlayed []] /\
    find_timer (S (S (next_handle w))) w2
      = Some (mkTimer (S (S (next_handle w))) (now w + ms1 + 10000) CbRefetch) /\
    dispatch srv tbl fuel (EvTick ms2) w2 = Some w3 /\
    dispatch srv tbl fuel (EvTimer (S (S (next_handle w)))) w3
      = _fetchCardsAndPlay srv fuel
          (clearTimeout (Some (S (S (next_handle w)))) w3).
Proof.
  intros Hr Hscan Hne Hms1 Hms2.
  apply reachable_handles_ok in Hr.
  pose proof (untouched_getBadges _ _ _ _ _ Hscan)
    as (_ & _ & En & _ & _ & Enow & _).
  assert (handles_ok ws) as Hs
    by (eapply handles_ok_untouched;
        [eapply untouched_getBadges; exact Hscan | exact Hr]).
  destruct games as [|g gs]; [congruence|].
  pose proof (handles_ok_scanned (g :: gs) ws Hs) as H1.
  pose proof (timers_scanned g gs ws) as Et.
  pose proof (now_scanned g gs ws) as Enow1.
  pose proof (next_handle_scanned g gs ws) as En1.
  remember (_fetchCardsAndPlay_scanned (g :: gs) ws) as w1 eqn:E1.
  rewrite En in Et, En1. rewrite Enow in Et, Enow1.
  destruct (cycle_from_dwell srv tbl fuel w1 (S (next_handle w)) ms1 ms2)
    as (w2 & w3 & A & B & C & D & _ & F & G); try assumption.
  - rewrite Enow1, Et. apply elem_of_app. right. by left.
  - rewrite Enow1 in A, D. exists w1, w2, w3. auto 10.
Qed.

Lemma dwell_then_cooldown_then_rescan_witness :
  exists w2,
    run one_game_service EPersonaState 5
      [EvFetchCards; EvTick 900000; EvTimer 1] farmer = Some w2 /\
    find_timer 2 w2 = Some (mkTimer 2 910000 CbRefetch).
Proof.
  edestruct (dwell_then_cooldown_then_rescan one_game_service EPersonaState 5
               farmer) with (games := one_game) (ms1 := 900000) (ms2 := 10000)
    as (w1 & w2 & w3 & E1 & _ & R & _ & Ft & _).
  - exists (Some "u"), (Some "p"), None, None, []. reflexivity.
  - vm_compute. reflexivity.
  - discriminate.
  - lia.
  - lia.
  - exists w2. split; [|exact Ft].
    cbn [run dispatch].
    assert (_fetchCardsAndPlay one_game_service 5 farmer = Some w1) as ->
      by (rewrite E1; vm_compute; reflexivity).
    exact R.
Defined.

(* ===================================================================== *)
(** ** The web session                                                     *)
(* ===================================================================== *)

(** [w'] differs from [w] at most in the cookie jar, the number of
    requests answered and the effects. *)
Definition http_only (w w' : World) : Prop :=
  exists jar n eff,
    w' = with_effects eff (with_requests n (with_cookiesJar jar w)).

Lemma http_only_refl w : http_only w w.
Proof. exists (_cookiesJar w), (requests w), (effects w). by destruct w. Qed.

Lemma http_only_trans w1 w2 w3 :
  http_only w1 w2 -> http_only w2 w3 -> http_only w1 w3.
Proof.
  intros (j & n & e & ->) (j' & n' & e' & ->). by exists j', n', e'.
Qed.

Lemma http_only_say e w : http_only w (say e w).
Proof. exists (_cookiesJar w), (requests w), (effects w ++ [e]). by destruct w. Qed.

Lemma http_only_answered w : http_only w (answered w).
Proof. exists (_cookiesJar w), (S (requests w)), (effects w). by destruct w. Qed.

Lemma http_only_parentalUnlock srv pin w :
  http_only w (snd (parentalUnlock srv pin w)).
Proof.
  unfold parentalUnlock, axios_post_unlock.
  assert (http_only w
            (answered (say (HttpPostUnlock (_cookiesJar w) pin (_sessionId w)) w)))
    as H0 by (eapply http_only_trans;
              [apply http_only_say | apply http_only_answered]).
  destruct (srv_unlock srv (requests w) (_cookiesJar w) pin (_sessionId w))
    as [|sc success]; [exact H0|].
  assert (forall e,
            http_only w
              (say e (answered (say (HttpPostUnlock (_cookiesJar w) pin (_sessionId w)) w))))
    as H.
  { intros e. eapply http_only_trans; [exact H0 | apply http_only_say]. }
  destruct (if success then sc else None) as [cookies|]; [|apply H].
  destruct (List.find (includes "steamparental") cookies) as [c|]; [|apply H].
  destruct (str_truthy c); apply H.
Qed.

Lemma http_only_getBadges_loop srv fuel :
  forall cur tot acc w r w',
    getBadges_loop srv fuel cur tot acc w = Some (r, w') -> http_only w w'.
Proof.
  induction fuel as [|fuel IH]; intros cur tot acc w r w'; [discriminate|].
  cbn [getBadges_loop].
  destruct (cur <=? tot)%nat; [|intros [= <- <-]; apply http_only_refl].
  assert (forall v,
            http_only w v ->
            parental_wall srv (getBadges_loop srv fuel 1 1 []) v = Some (r, w') ->
            http_only w w') as Hwall.
  { intros v Hv. unfold parental_wall.
    destruct (negb _).
    - intros [= <- <-]. eapply http_only_trans; [exact Hv | apply http_only_say].
    - pose proof (http_only_parentalUnlock srv
                    (_parentalPin (say DebugParentalWall v))
                    (say DebugParentalWall v)) as HU.
      destruct (parentalUnlock _ _ _) as [[c|e] w2]; cbn [snd] in HU.
      + intros H. apply IH in H.
        eapply http_only_trans; [exact Hv|].
        eapply http_only_trans; [apply http_only_say|].
        eapply http_only_trans; eassumption.
      + intros [= <- <-].
        eapply http_only_trans; [exact Hv|].
        eapply http_only_trans; [apply http_only_say | exact HU]. }
  unfold axios_get_badges.
  assert (http_only w (answered (say (HttpGetBadges (_cookiesJar w) cur) w)))
    as H0 by (eapply http_only_trans;
              [apply http_only_say | apply http_only_answered]).
  destruct (srv_badges srv (requests w) (_cookiesJar w) cur) as [|sc pg];
    [by apply Hwall|].
  assert (http_only w
            (say (DebugReadingPage cur)
               (answered (say (HttpGetBadges (_cookiesJar w) cur) w))))
    as H1.
  { eapply http_only_trans; [exact H0 | apply http_only_say]. }
  destruct (read_rows _ acc (rows pg)) as [games|]; [|by apply Hwall].
  intros H. apply IH in H. eapply http_only_trans; [exact H1 | exact H].
Qed.

Lemma once_http_only w w' :
  http_only w w' -> webSession_once w' = webSession_once w.
Proof. by intros (j & n & e & ->). Qed.

Lemma once_clearTimeout h w :
  webSession_once (clearTimeout h w) = webSession_once w.
Proof. by destruct h. Qed.

Lemma once_close w : webSession_once (close w) = webSession_once w.
Proof. unfold close. cbn. by rewrite !once_clearTimeout. Qed.

Lemma once_scanned games w :
  webSession_once (_fetchCardsAndPlay_scanned games w) = webSession_once w.
Proof.
  unfold _fetchCardsAndPlay_scanned. destruct games as [|g gs].
  - by rewrite once_close.
  - unfold setTimeout. cbn. by rewrite once_clearTimeout.
Qed.

Lemma once_fetchCardsAndPlay srv fuel w w' :
  _fetchCardsAndPlay srv fuel w = Some w' ->
  webSession_once w' = webSession_once w.
Proof.
  unfold _fetchCardsAndPlay.
  destruct (getBadges srv fuel w) as [[[games|e] w1]|] eqn:E; [| |discriminate].
  - intros [= <-]. rewrite once_scanned.
    apply once_http_only. eapply http_only_getBadges_loop. exact E.
  - intros [= <-]. cbn.
    apply once_http_only. eapply http_only_getBadges_loop. exact E.
Qed.

Lemma once_webSession_cookies cookies :
  forall w,
    webSession_once (fold_left on_webSession_cookie cookies w)
      = webSession_once w.
Proof.
  induction cookies as [|c cs IH]; intros w; simpl; [reflexivity|].
  rewrite IH. unfold on_webSession_cookie.
  by destruct (includes "sessionid" c).
Qed.

Lemma once_dispatch srv tbl fuel ev w w' :
  dispatch srv tbl fuel ev w = Some w' ->
  webSession_once w' = false \/ webSession_once w' = webSession_once w.
Proof.
  destruct ev as [cookies| | |id|id reply|line|ms]; simpl.
  - destruct (webSession_once w) eqn:O; [|intros [= <-]; by left].
    intros H. apply once_fetchCardsAndPlay in H. left. rewrite H. cbn.
    by rewrite once_webSession_cookies.
  - intros H. right. by apply once_fetchCardsAndPlay in H.
  - intros [= <-]. by right.
  - destruct (find_timer id w) as [t|]; [|intros [= <-]; by right].
    destruct (t_due t <=? now w); [|intros [= <-]; by right].
    destruct (t_cb t); simpl.
    + intros [= <-]. by right.
    + intros [= <-]. by right.
    + intros H. right. apply once_fetchCardsAndPlay in H. rewrite H.
      apply (once_clearTimeout (Some id)).
  - destruct (find_pending id w) as [p|]; [|intros [= <-]; by right].
    intros [= <-]. right. unfold setTempProfilePrivacy_resume.
    destruct reply as [|sc success]; [reflexivity|].
    destruct success, (p_private p), (p_games p); reflexivity.
  - intros [= <-]. right. unfold _handleOnLine.
    destruct (split_ws "" line) as [|cmd args]; [reflexivity|].
    destruct (String.eqb cmd "exit"); [apply once_close|].
    destruct (String.eqb cmd "state"); [|reflexivity].
    destruct args as [|arg0 args]; [reflexivity|].
    destruct (str_truthy arg0); [|reflexivity].
    by destruct (find_state tbl (normalise_state arg0)).
  - intros [= <-]. by right.
Qed.

Lemma once_run srv tbl fuel evs :
  forall w w',
    run srv tbl fuel evs w = Some w' ->
    webSession_once w = false -> webSession_once w' = false.
Proof.
  induction evs as [|ev evs IH]; intros w w'; simpl.
  - by intros [= <-].
  - destruct (dispatch srv tbl fuel ev w) as [w1|] eqn:D; [|discriminate].
    intros H O. eapply IH; [exact H|].
    apply once_dispatch in D as [D|D]; congruence.
Qed.

(** X12. The listener of "webSession" is registered with [once]: after the
    first web session, whatever else has happened since, a further
    "webSession" event changes nothing - no cookie is stored, the session
    id is kept and no scan is started. *)
Theorem webSession_is_handled_once
    (srv : Server) (tbl : list (string * jsnum)) (fuel : nat)
    (w0 w : World) (cookies cookies' : list string) (evs : list event) :
  run srv tbl fuel (EvWebSession cookies :: evs) w0 = Some w ->
  dispatch srv tbl fuel (EvWebSession cookies') w = Some w.
Proof.
  cbn [run].
  destruct (dispatch srv tbl fuel (EvWebSession cookies) w0) as [w1|] eqn:D;
    [|discriminate].
  intros Hrun.
  assert (webSession_once w1 = false) as O1.
  { cbn [dispatch] in D.
    destruct (webSession_once w0) eqn:O; [|by injection D as <-].
    apply once_fetchCardsAndPlay in D. rewrite D. cbn.
    by rewrite once_webSession_cookies. }
  cbn [dispatch]. by rewrite (once_run _ _ _ _ _ _ Hrun O1).
Qed.

Lemma webSession_is_handled_once_witness :
  exists w,
    run one_game_service EPersonaState 5
      [EvWebSession ["sessionid=abc"]; EvPrivacyReply 0 (Resolved None true)]
      farmer = Some w /\
    dispatch one_game_service EPersonaState 5
      (EvWebSession ["sessionid=other"]) w = Some w.
Proof.
  eexists. split; [vm_compute; reflexivity|].
  eapply (webSession_is_handled_once one_game_service EPersonaState 5 farmer _
            ["sessionid=abc"] ["sessionid=other"]
            [EvPrivacyReply 0 (Resolved None true)]).
  vm_compute. reflexivity.
Defined.

Lemma webSession_cookies_fold cookies :
  forall w,
    let w' := fold_left on_webSession_cookie cookies w in
    _cookiesJar w' = _cookiesJar w ++ cookies /\
    _sessionId w' =
      match List.find (includes "sessionid") (rev cookies) with
      | Some c => strip_to_last_eq c
      | None => _sessionId w
      end /\
    effects w' = effects w.
Proof.
  induction cookies as [|c cs IH] using rev_ind; intros w.
  - cbn. by rewrite app_nil_r.
  - cbn zeta. rewrite fold_left_app, rev_unit. cbn [fold_left List.find].
    destruct (IH w) as (Ej & Es & Ee). cbn zeta in Ej, Es, Ee.
    set (W := fold_left on_webSession_cookie cs w) in *.
    unfold on_webSession_cookie.
    destruct (includes "sessionid" c); cbn; rewrite Ej, ?Es, Ee;
      by rewrite <- app_assoc.
Qed.

(** X13. The first "webSession" event hands every cookie it is given to
    the jar, in the order given, and sets the session id from the last of
    the cookies that contain "sessionid": it is what [cookie.replace] makes
    of that cookie ([strip_to_last_eq]). Without such a cookie the session
    id stays as it was. Then it starts the first scan. *)
Theorem webSession_stores_cookies_and_session_id
    (srv : Server) (tbl : list (string * jsnum)) (fuel : nat)
    (w : World) (cookies : list string) :
  webSession_once w = true ->
  exists ws,
    dispatch srv tbl fuel (EvWebSession cookies) w
      = _fetchCardsAndPlay srv fuel ws /\
    _cookiesJar ws = _cookiesJar w ++ cookies /\
    _sessionId ws =
      match List.find (includes "sessionid") (rev cookies) with
      | Some c => strip_to_last_eq c
      | None => _sessionId w
      end /\
    effects ws = effects w ++ [LogSessionId; Emit "WEB_LOGIN"] /\
    webSession_once ws = false.
Proof.
  intros O. cbn [dispatch]. rewrite O.
  eexists. split; [reflexivity|].
  destruct (webSession_cookies_fold cookies (with_webSession_once false w))
    as (Ej & Es & Ee). cbn zeta in Ej, Es, Ee.
  cbn [_cookiesJar _sessionId effects say with_effects webSession_once].
  rewrite Ej, Es, Ee, once_webSession_cookies. cbn.
  by rewrite <- app_assoc.
Qed.

Lemma webSession_stores_cookies_and_session_id_witness :
  exists ws,
    dispatch one_game_service EPersonaState 5
      (EvWebSession ["sessionid=abc"; "steamLoginSecure=765%7C%7Cxyz";
                     "sessionid=def"]) farmer
      = _fetchCardsAndPlay one_game_service 5 ws /\
    _cookiesJar ws = ["sessionid=abc"; "steamLoginSecure=765%7C%7Cxyz";
                      "sessionid=def"] /\
    _sessionId ws = "def".
Proof.
  destruct (webSession_stores_cookies_and_session_id
              one_game_service EPersonaState 5 farmer
              ["sessionid=abc"; "steamLoginSecure=765%7C%7Cxyz";
               "sessionid=def"] eq_refl)
    as (ws & Hd & Hj & Hs & _).
  exists ws. split; [exact Hd|]. split; [exact Hj | exact Hs].
Defined.

(** The string has no ["="]. *)
Fixpoint no_eq_sign (s : string) : bool :=
  match s with
  | EmptyString => true
  | String c r => negb (Ascii.eqb c "="%char) && no_eq_sign r
  end.

(** The string has no line terminator. *)
Fixpoint one_line (s : string) : bool :=
  match s with
  | EmptyString => true
  | String c r => negb (is_line_terminator c) && one_line r
  end.

Lemma after_last_eq_none s : no_eq_sign s = true -> after_last_eq s = None.
Proof.
  induction s as [|c r IH]; simpl; [reflexivity|].
  intros H. apply andb_true_iff in H as [Hc Hr].
  rewrite (IH Hr). destruct (is_line_terminator c); [reflexivity|].
  by destruct (Ascii.eqb c "=").
Qed.

Lemma after_last_eq_line line nl rest :
  no_eq_sign line = true -> is_line_terminator nl = true ->
  after_last_eq (line ++ String nl rest)%string = None.
Proof.
  intros Hl Hn. induction line as [|c r IH]; simpl.
  - by rewrite Hn.
  - simpl in Hl. apply andb_true_iff in Hl as [Hc Hr].
    rewrite (IH Hr). destruct (is_line_terminator c); [reflexivity|].
    by destruct (Ascii.eqb c "=").
Qed.

Lemma after_last_eq_app prefix tail :
  one_line prefix = true ->
  after_last_eq tail = None ->
  after_last_eq (prefix ++ String "=" tail)%string = Some tail.
Proof.
  intros Hp Ht. induction prefix as [|c r IH]; simpl.
  - by rewrite Ht.
  - simpl in Hp. apply andb_true_iff in Hp as [Hc Hr].
    apply negb_true_iff in Hc. by rewrite Hc, (IH Hr).
Qed.

Lemma strip_to_last_eq_unfold s :
  strip_to_last_eq s =
    match after_last_eq s with
    | Some t => t
    | None =>
        match s with
        | EmptyString => EmptyString
        | String c r => String c (strip_to_last_eq r)
        end
    end.
Proof. by destruct s. Qed.

Lemma strip_to_last_eq_none s : no_eq_sign s = true -> strip_to_last_eq s = s.
Proof.
  induction s as [|c r IH]; [reflexivity|].
  intros H. rewrite strip_to_last_eq_unfold, (after_last_eq_none _ H).
  simpl in H. apply andb_true_iff in H as [_ Hr]. by rewrite (IH Hr).
Qed.

Lemma strip_to_last_eq_line line nl rest :
  no_eq_sign line = true -> is_line_terminator nl = true ->
  strip_to_last_eq (line ++ String nl rest)%string
    = (line ++ String nl (strip_to_last_eq rest))%string.
Proof.
  intros Hl Hn. induction line as [|c r IH].
  - change (strip_to_last_eq (String nl rest)
            = String nl (strip_to_last_eq rest)).
    rewrite strip_to_last_eq_unfold. simpl. by rewrite Hn.
  - rewrite strip_to_last_eq_unfold.
    rewrite (after_last_eq_line (String c r) nl rest Hl Hn).
    simpl in Hl. apply andb_true_iff in Hl as [_ Hr].
    change (String c (strip_to_last_eq (r ++ String nl rest))
            = String c (r ++ String nl (strip_to_last_eq rest)))%string.
    by rewrite (IH Hr).
Qed.

(** X14. What [cookie.replace] makes of a cookie, line by line. In a
    cookie of one line [name=value] whose value has no "=" it leaves the
    value, whatever the name contains, and a cookie without any "=" stays
    whole. A line without "=" stays with its line terminator, and the
    replacement goes on in what follows; in the first line that has an
    "=" the text up to its last "=" is deleted, and everything after it,
    later lines included, stays as it is. *)
Theorem strip_to_last_eq_takes_value
    (prefix value line rest : string) (nl : ascii) :
  one_line prefix = true ->
  no_eq_sign value = true ->
  one_line line = true ->
  no_eq_sign line = true ->
  is_line_terminator nl = true ->
  strip_to_last_eq (prefix ++ String "=" value)%string = value /\
  strip_to_last_eq value = value /\
  strip_to_last_eq (line ++ String nl rest)%string
    = (line ++ String nl (strip_to_last_eq rest))%string /\
  strip_to_last_eq (prefix ++ String "=" (line ++ String nl rest))%string
    = (line ++ String nl rest)%string.
Proof.
  intros Hp Hv Hl1 Hl Hn.
  split; [|split; [|split]].
  - rewrite strip_to_last_eq_unfold.
    by rewrite (after_last_eq_app prefix value Hp (after_last_eq_none _ Hv)).
  - by apply strip_to_last_eq_none.
  - by apply strip_to_last_eq_line.
  - rewrite strip_to_last_eq_unfold.
    by rewrite (after_last_eq_app prefix _ Hp
                  (after_last_eq_line line nl rest Hl Hn)).
Qed.

Lemma strip_to_last_eq_takes_value_witness :
  strip_to_last_eq "a=b=sessionid=0123abcd" = "0123abcd" /\
  strip_to_last_eq ("a=b=sessionid=a" ++ String "010" "b=c")%string
    = ("a" ++ String "010" "b=c")%string.
Proof.
  destruct (strip_to_last_eq_takes_value "a=b=sessionid" "0123abcd" "a" "b=c"
              "010"%char eq_refl eq_refl eq_refl eq_refl eq_refl)
    as (H1 & _ & _ & H4).
  split; [exact H1 | exact H4].
Defined.

(* ===================================================================== *)
(** ** What an operator line can do                                        *)
(* ===================================================================== *)

Lemma split_ws_first s : forall cur, exists cmd args, split_ws cur s = cmd :: args.
Proof.
  induction s as [|c r IH]; intros cur; simpl; [eauto|].
  destruct (is_space c); [eauto | apply IH].
Qed.

Lemma lower_char_idem c : lower_char (lower_char c) = lower_char c.
Proof. destruct c as [[] [] [] [] [] [] [] []]; reflexivity. Qed.

Lemma toLowerCase_idem s : toLowerCase (toLowerCase s) = toLowerCase s.
Proof.
  induction s as [|c r IH]; simpl; [reflexivity|].
  by rewrite lower_char_idem, IH.
Qed.

Lemma normalise_state_idem s : normalise_state (normalise_state s) = normalise_state s.
Proof. destruct s as [|c r]; simpl; [reflexivity|]. by rewrite toLowerCase_idem. Qed.

Lemma find_state_Some tbl state e :
  find_state tbl state = Some e -> e ∈ tbl /\ fst e = state.
Proof.
  unfold find_state. intros H. apply List.find_some in H as [Hin He].
  split; [by apply list_elem_of_In | by apply String.eqb_eq].
Qed.

(** What [_handleOnLine] makes of a line, by its first word. *)
Lemma handleOnLine_result tbl line w :
  exists cmd args,
    split_ws "" line = cmd :: args /\
    (cmd = "exit" -> _handleOnLine tbl line w = close w) /\
    (cmd <> "exit" -> cmd <> "state" -> _handleOnLine tbl line w = w) /\
    (cmd = "state" ->
     _handleOnLine tbl line w = w \/
     exists key v,
       (key, v) ∈ tbl /\ normalise_state key = key /\
       _handleOnLine tbl line w = say (SetPersona v) w).
Proof.
  destruct (split_ws_first line "") as (cmd & args & E).
  exists cmd, args. split; [exact E|].
  unfold _handleOnLine. rewrite E.
  split; [|split].
  - intros ->. reflexivity.
  - intros H1 H2.
    apply String.eqb_neq in H1, H2. by rewrite H1, H2.
  - intros ->. cbn [String.eqb Ascii.eqb Bool.eqb].
    change ("state" =? "exit")%string with false.
    change ("state" =? "state")%string with true. cbn iota.
    destruct args as [|arg0 args']; [by left|].
    destruct (str_truthy arg0); [|by left].
    destruct (find_state tbl (normalise_state arg0)) as [[key v]|] eqn:F;
      [|by left].
    right. exists key, v.
    apply find_state_Some in F as [Hin Hk]. cbn [fst] in Hk.
    split; [exact Hin|]. split; [|reflexivity].
    rewrite Hk. apply normalise_state_idem.
Qed.


Lemma app_singleton_neq {A} (l : list A) (x : A) : l <> l ++ [x].
Proof.
  intros H. apply (f_equal length) in H. rewrite length_app in H.
  simpl in H. lia.
Qed.

(** X16. With the persona states of steam-user, no operator line selects
    LookingToTrade (5) or LookingToPlay (6): the name looked up has only
    lower-case letters after its first character, and these two names have a
    capital inside. *)
Theorem camel_case_states_cannot_be_selected (line : string) (w : World) :
  effects (_handleOnLine EPersonaState line w)
    <> effects w ++ [SetPersona (JNum 5)] /\
  effects (_handleOnLine EPersonaState line w)
    <> effects w ++ [SetPersona (JNum 6)].
Proof.
  assert (forall n, n = 5 \/ n = 6 ->
            effects (_handleOnLine EPersonaState line w)
              <> effects w ++ [SetPersona (JNum n)]) as H;
    [|split; apply H; auto].
  intros n Hn.
  destruct (handleOnLine_result EPersonaState line w)
    as (cmd & args & _ & Hexit & Hother & Hstate).
  assert (effects (close w) <> effects w ++ [SetPersona (JNum n)]) as Hclose.
  { unfold close. cbn. rewrite !effects_clearTimeout. cbn.
    rewrite <- !app_assoc. intros E. apply app_inv_head in E. discriminate. }
  destruct (String.eqb_spec cmd "exit") as [->|Hne1];
    [rewrite Hexit by reflexivity; exact Hclose|].
  destruct (String.eqb_spec cmd "state") as [->|Hne2];
    [|rewrite Hother by assumption; apply app_singleton_neq].
  destruct (Hstate eq_refl) as [-> | (key & v & Hin & Hnorm & ->)];
    [apply app_singleton_neq|].
  cbn. intros E. apply app_inv_head in E. injection E as ->.
  unfold EPersonaState in Hin.
  repeat (apply elem_of_cons in Hin as [Hin|Hin];
          [injection Hin as -> Hv;
           first [ discriminate Hv
                 | destruct Hn as [->| ->]; discriminate Hv
                 | cbv in Hnorm; discriminate Hnorm ]|]).
  by apply elem_of_nil in Hin.
Qed.






(* ===================================================================== *)
(** ** The selection file                                                  *)
(* ===================================================================== *)

(** X18. With a selection loaded, every item that a scan returns has its
    id in the selection. With an empty selection (a [2idle.json] that holds
    an empty array) every scan that returns returns nothing, so that the
    farmer closes after its first scan. *)
Theorem getBadges_returns_selected_ids_only
    (srv : Server) (fuel : nat) (w ws : World) (s : gset jsnum)
    (games : list GameTradingCards) :
  _userGames w = Some s ->
  getBadges srv fuel w = Some (Returned games, ws) ->
  Forall (fun g => appId g ∈ s) games /\
  (s = ∅ ->
   games = [] /\
   _fetchCardsAndPlay srv fuel w = Some (close (say DebugAllIdled ws))).
Proof.
  intros Hs Hscan.
  pose proof Hscan as H.
  apply (getBadges_loop_selection srv fuel 1 1 [] [] w) in H; [|reflexivity].
  destruct H as (pgs & base & _ & E & _). rewrite Hs in E.
  assert (Forall (fun g => appId g ∈ s) games) as Hall.
  { rewrite E. apply Forall_forall. intros g Hg.
    by apply list_elem_of_filter in Hg as [Hg _]. }
  split; [exact Hall|].
  intros ->.
  assert (games = []) as ->.
  { destruct games as [|g gs]; [reflexivity|].
    apply Forall_cons in Hall as [Hg _]. by apply not_elem_of_empty in Hg. }
  split; [reflexivity|].
  unfold _fetchCardsAndPlay. rewrite Hscan. reflexivity.
Qed.

Lemma getBadges_returns_selected_ids_only_witness :
  exists ws,
    getBadges zero_service 3
      (new_CardFarmer (Some "u") (Some "p") None (Some [])) = Some (Returned [], ws) /\
    _fetchCardsAndPlay zero_service 3
      (new_CardFarmer (Some "u") (Some "p") None (Some []))
      = Some (close (say DebugAllIdled ws)).
Proof.
  eexists. split; [vm_compute; reflexivity|].
  eapply (getBadges_returns_selected_ids_only zero_service 3
            (new_CardFarmer (Some "u") (Some "p") None (Some [])) _ ∅ []);
    [reflexivity | vm_compute; reflexivity | reflexivity].
Defined.

(* ===================================================================== *)
(** ** The script                                                          *)
(* ===================================================================== *)

(** [process.env] after [dotenv.config()], as far as the script reads it. *)
Record Environment : Type := mkEnv {
  env_user : option string;
  env_pass : option string;
  env_pin : option string;
}.

(** The variables [user], [pass] and [pin] once the script has looked at
    the command line and at the environment; [args] is
    [process.argv.slice(2)]. *)
Definition credentials (args : list string) (env : Environment)
  : option string * option string * option string :=
  if (2 <=? length args)%nat then (args !! 0%nat, args !! 1%nat, args !! 2%nat)
  else if opt_str_truthy (env_user env) && opt_str_truthy (env_pass env)
       then (env_user env, env_pass env, env_pin env)
       else (None, None, None).

(** The arguments of [new CardFarmer(user, pass, pin)] when the script
    creates the farmer and calls [start()] on it; [None] when it does
    nothing. *)
Definition launch (args : list string) (env : Environment)
  : option (option string * option string * option string) :=
  let '(user, pass, pin) := credentials args env in
  if opt_str_truthy user && opt_str_truthy pass
  then Some (user, pass, pin)
  else None.

Lemma opt_str_truthy_iff o : opt_str_truthy o = true <-> exists s, o = Some s /\ s <> "".
Proof.
  destruct o as [[|c r]|]; simpl; split; try discriminate.
  - intros (s & [= <-] & H). congruence.
  - intros _. eexists. split; [reflexivity | discriminate].
  - reflexivity.
  - intros (s & H & _). discriminate.
Qed.

(** X19. The script starts a farmer exactly when it has a non-empty user
    and a non-empty password. With two or more command-line arguments these
    are the first two arguments and the environment is not looked at, also
    when an argument is empty; with fewer they are [user] and [pass] of the
    environment. The farmer then logs on with exactly this user and
    password and without a two-factor code. *)
Theorem launch_takes_arguments_before_environment
    (args : list string) (env : Environment) :
  ((2 <= length args)%nat ->
   forall env', launch args env' = launch args env) /\
  (forall user pass pin,
     launch args env = Some (user, pass, pin) <->
     ((exists u p, user = Some u /\ u <> "" /\ pass = Some p /\ p <> "") /\
      if (2 <=? length args)%nat
      then user = args !! 0%nat /\ pass = args !! 1%nat /\ pin = args !! 2%nat
      else user = env_user env /\ pass = env_pass env /\ pin = env_pin env)) /\
  (forall user pass pin pinv sel,
     launch args env = Some (user, pass, pin) ->
     effects (start None None None (new_CardFarmer user pass pinv sel))
       = [LogOn user pass None]).
Proof.
  assert (forall user pass pin,
     launch args env = Some (user, pass, pin) <->
     ((exists u p, user = Some u /\ u <> "" /\ pass = Some p /\ p <> "") /\
      if (2 <=? length args)%nat
      then user = args !! 0%nat /\ pass = args !! 1%nat /\ pin = args !! 2%nat
      else user = env_user env /\ pass = env_pass env /\ pin = env_pin env))
    as Hiff.
  { intros user pass pin. unfold launch, credentials.
    assert (forall a b, opt_str_truthy a && opt_str_truthy b = true <->
              exists u p, a = Some u /\ u <> "" /\ b = Some p /\ p <> "") as T.
    { intros a b. rewrite andb_true_iff, !opt_str_truthy_iff.
      split.
      - intros [(u & -> & Hu) (p & -> & Hp)]. exists u, p. auto.
      - intros (u & p & -> & Hu & -> & Hp).
        split; eexists; (split; [reflexivity | assumption]). }
    destruct (2 <=? length args)%nat.
    - destruct (opt_str_truthy (args !! 0%nat) && opt_str_truthy (args !! 1%nat))
        eqn:B.
      + apply T in B. split.
        * intros [= <- <- <-]. split; [exact B | repeat split].
        * intros (_ & -> & -> & ->). reflexivity.
      + split; [discriminate|].
        intros (HT & -> & -> & ->). apply T in HT. congruence.
    - destruct (opt_str_truthy (env_user env) && opt_str_truthy (env_pass env))
        eqn:B.
      + rewrite B. apply T in B. split.
        * intros [= <- <- <-]. split; [exact B | repeat split].
        * intros (_ & -> & -> & ->). reflexivity.
      + split; [discriminate|].
        intros (HT & -> & -> & ->). apply T in HT. congruence. }
  split; [|split; [exact Hiff|]].
  - intros Hlen env'. unfold launch, credentials.
    apply Nat.leb_le in Hlen. by rewrite Hlen.
  - intros user pass pin pinv sel H.
    apply Hiff in H as [(u & p & -> & Hu & -> & Hp) _].
    destruct u; [congruence|]. destruct p; [congruence|]. reflexivity.
Qed.

Lemma launch_takes_arguments_before_environment_witness :
  launch [""; "secret"] (mkEnv (Some "me") (Some "secret") None) = None /\
  launch ["me"; "secret"] (mkEnv (Some "you") (Some "other") (Some "1"))
    = launch ["me"; "secret"] (mkEnv None None None).
Proof.
  split; [reflexivity|].
  apply (proj1 (launch_takes_arguments_before_environment
                  ["me"; "secret"] (mkEnv None None None))).
  simpl. lia.
Defined.

(* ===================================================================== *)
(** ** When the games are played                                           *)
(* ===================================================================== *)



(* ===================================================================== *)
(** ** Through the wall                                                    *)
(* ===================================================================== *)



